(** * Scripts/download_data.py: daily bars from Yahoo Finance to LEAN archives

    A shallow embedding of the script and the properties of its conversion
    pipeline.

    Conventions of the embedding:
    - a Python [float] is an IEEE 754 binary64 value, taken from the Standard
      Library's [SpecFloat] ([prec = 53], [emax = 1024]); the product
      [float(val) * MULTIPLIER] is [SFmul], correctly rounded to nearest even;
    - a Python [int] is a [Z]; [str] of an [int] is stdpp's [pretty];
    - a Python [str] is the [string] of its UTF-8 bytes; [str.upper] and
      [str.lower] follow the Unicode case mappings, so they are parameters
      of the development, known on ASCII strings, where they map the letters
      [a-z] and [A-Z] onto each other;
    - the interpreter is CPython on Linux with the GNU C library: [os.path]
      is [posixpath], text-mode files write ["\n"] as [os.linesep], a single
      line feed, and [%Y] in [strftime] prints the year without padding;
    - the file system is a tree of directories and regular files, without
      links, in which the process may read and write whatever it reaches;
      standard output takes every string it is given; the state of the
      process is the working directory, the tree and the lines printed, and
      [main] runs in a state and exception monad over it; [sys.exit] raises
      [SystemExit] as in Python;
    - a frame cell is what [row[...].iloc[0]] yields inside [iterrows]: a
      binary64 value, for the volume too, the integer column being cast to
      the common dtype of the row;
    - [yf.download] is a parameter of the development: any function from the
      symbol and the two date arguments to a frame of rows. *)

From Stdlib Require Import ZArith Lia SpecFloat Ascii.
From stdpp Require Import gmap strings list pretty.

Local Open Scope Z_scope.

(** ** Python floats *)

Module Float.

Definition prec : Z := 53.
Definition emax : Z := 1024.

(** [float(n)] for a Python int [n]: the nearest binary64 value. *)
Definition of_int (n : Z) : spec_float := binary_normalize prec emax n 0 false.

(** [x * y] on floats. *)
Definition mul (x y : spec_float) : spec_float := SFmul prec emax x y.

(** [x / y] on floats (used to write decimal literals such as [0.29]). *)
Definition div (x y : spec_float) : spec_float := SFdiv prec emax x y.

(** [x <= y] on floats. *)
Definition leb (x y : spec_float) : bool := SFleb x y.

(** The value is one that a binary64 register can hold. *)
Definition well_formed (x : spec_float) : Prop := valid_binary prec emax x = true.

(** Neither an infinity nor a NaN. *)
Definition is_finite (x : spec_float) : bool :=
  match x with
  | S754_zero _ | S754_finite _ _ _ => true
  | S754_infinity _ | S754_nan => false
  end.

(** Finite and not below zero: a zero of either sign or a positive number. *)
Definition is_nonneg (x : spec_float) : bool :=
  match x with
  | S754_zero _ | S754_finite false _ _ => true
  | _ => false
  end.

(** The largest integer not above the value of a finite float. *)
Definition floor (x : spec_float) : Z :=
  match x with
  | S754_finite s m e => Z.shiftl (cond_Zopp s (Z.pos m)) e
  | _ => 0
  end.

(** The value of a finite non-negative float in units of [2^-1074], the
    spacing of the subnormal numbers: an integer for every well-formed
    float. *)
Definition scaled (x : spec_float) : Z :=
  match x with
  | S754_finite false m e => Z.shiftl (Z.pos m) (e + 1074)
  | _ => 0
  end.

End Float.

(** ** Exceptions and the state of the process *)

Inductive exn : Type :=
  | SystemExit (code : Z)
  | OverflowError
  | ValueError
  | IndexError
  | FileNotFoundError
  | FileExistsError
  | NotADirectoryError
  | IsADirectoryError.

(** [zipfile.ZIP_STORED] and [zipfile.ZIP_DEFLATED] *)
Inductive compression : Type :=
  | ZIP_STORED
  | ZIP_DEFLATED.

(** Contents of a file: text, or a zip archive as its compression method
    and the list of its entries (entry name and contents) in the order they
    were written. *)
#[local] Set Warnings "-register-all".
Inductive file : Type :=
  | Plain (text : string)
  | ZipArchive (method : compression) (entries : list (string * file)).

(** A place in the file tree: the names on the way down from the root. *)
Definition node : Type := list string.

(** An open [zipfile.ZipFile]: the file it writes to and its method. *)
Record ZipFile : Type := mkZipFile {
  zip_fp : node;
  zip_compression : compression
}.

(** The working directory, the regular files, the directories (the working
    directory and the directories above it exist without being listed) and
    the lines printed so far. *)
Record World : Type := mkWorld {
  cwd : node;
  files : gmap node file;
  dirs : gset node;
  stdout : list string
}.

Definition M (A : Type) : Type := World → (exn + A) * World.

Global Instance M_ret : MRet M := λ A (a : A) w, (inr a, w).
Global Instance M_bind : MBind M := λ A B (f : A → M B) (m : M A) w,
  match m w with
  | (inr a, w') => f a w'
  | (inl e, w') => (inl e, w')
  end.

Definition raise {A : Type} (e : exn) : M A := λ w, (inl e, w).

(** A computation that does not touch the world. *)
Definition lift {A : Type} (r : exn + A) : M A := λ w, (r, w).

(** [if c: body] with nothing after [else]. *)
Definition when (c : bool) (body : M unit) : M unit :=
  if c then body else mret tt.

(** ** Built-ins and library calls *)

(** [int(x)] for a float: truncation toward zero; an infinity raises
    [OverflowError] and a NaN [ValueError]. *)
Definition int_of_float (x : spec_float) : exn + Z :=
  match x with
  | S754_zero _ => inr 0
  | S754_finite s m e => inr (cond_Zopp s (Z.shiftl (Z.pos m) e))
  | S754_infinity _ => inl OverflowError
  | S754_nan => inl ValueError
  end.

Definition print (line : string) : M unit :=
  λ w, (inr tt, mkWorld (cwd w) (files w) (dirs w) (stdout w ++ [line])).

Definition sys_exit {A : Type} (code : Z) : M A := raise (SystemExit code).

Definition LF : ascii := "010"%char.
Definition NUL : ascii := "000"%char.

(** The string literal ["\n"]. *)
Definition newline : string := String LF "".

(** [os.linesep] *)
Definition os_linesep : string := String LF "".

(** What a text-mode file stores for a written string: every ["\n"] becomes
    [os.linesep]. *)
Fixpoint text_mode (s : string) : string :=
  match s with
  | "" => ""
  | String c s' =>
      (if Ascii.eqb c LF then os_linesep else String c "") +:+ text_mode s'
  end.

(** [c in s] for a character. *)
Fixpoint str_contains (c : ascii) (s : string) : bool :=
  match s with
  | "" => false
  | String c' s' => Ascii.eqb c' c || str_contains c s'
  end.

(** [s.startswith(String c "")] and [s.endswith(String c "")]. *)
Definition startswith (c : ascii) (s : string) : bool :=
  match s with
  | String c' _ => Ascii.eqb c' c
  | "" => false
  end.

Fixpoint endswith (c : ascii) (s : string) : bool :=
  match s with
  | "" => false
  | String c' "" => Ascii.eqb c' c
  | String _ s' => endswith c s'
  end.

(** [s.split(String sep "")] *)
Fixpoint split_on (sep : ascii) (s : string) : list string :=
  match s with
  | "" => [""]
  | String c s' =>
      if Ascii.eqb c sep then "" :: split_on sep s'
      else match split_on sep s' with
           | [] => [String c ""]
           | w :: ws => String c w :: ws
           end
  end.

(** [posixpath.join]: a component that starts with the separator replaces
    what came before; otherwise it is appended, after a separator unless
    the path is empty or already ends with one. *)
Definition path_join2 (path b : string) : string :=
  if startswith "/" b then b
  else if String.eqb path "" || endswith "/" path then path +:+ b
  else path +:+ "/" +:+ b.

Definition os_path_join (a : string) (p : list string) : string :=
  fold_left path_join2 p a.

(** [posixpath.normpath]: empty and [.] components are dropped, a [..]
    removes the component before it, and exactly two leading slashes are
    kept as two. *)
Definition normpath_step (initial_slashes : bool) (new_comps : list string)
    (comp : string) : list string :=
  if String.eqb comp "" || String.eqb comp "." then new_comps
  else if negb (String.eqb comp "..")
          || (negb initial_slashes && bool_decide (new_comps = []))
          || bool_decide (last new_comps = Some "..")
  then new_comps ++ [comp]
  else removelast new_comps.

Definition normpath (path : string) : string :=
  if String.eqb path "" then "." else
  let initial_slashes : nat :=
    if String.prefix "/" path then
      if String.prefix "//" path && negb (String.prefix "///" path) then 2%nat else 1%nat
    else 0%nat in
  let comps :=
    fold_left (normpath_step (0 <? initial_slashes)%nat) (split_on "/" path) [] in
  let path := String.string_of_list_ascii (replicate initial_slashes "/"%char)
                +:+ String.concat "/" comps in
  if String.eqb path "" then "." else path.

(** ** The file system *)

Definition is_dir (w : World) (n : node) : bool :=
  bool_decide (n `prefix_of` cwd w) || bool_decide (n ∈ dirs w).

(** One component of a path, followed from the directory [cur]. *)
Definition step (cur : node) (comp : string) : node :=
  if String.eqb comp "" || String.eqb comp "." then cur
  else if String.eqb comp ".." then removelast cur
  else cur ++ [comp].

(** The directory reached from [cur] through the components [comps], each
    of which has to lead to a directory. *)
Fixpoint walk (w : World) (cur : node) (comps : list string) : exn + node :=
  match comps with
  | [] => inr cur
  | comp :: rest =>
      let next := step cur comp in
      if is_dir w next then walk w next rest
      else match files w !! next with
           | Some _ => inl NotADirectoryError
           | None => inl FileNotFoundError
           end
  end.

(** What any call does with a path before the tree is looked at. *)
Definition check_path (path : string) : exn + unit :=
  if str_contains NUL path then inl ValueError
  else if String.eqb path "" then inl FileNotFoundError
  else inr tt.

Definition start (w : World) (path : string) : node :=
  if startswith "/" path then [] else cwd w.

(** The place a path names, as [os.stat] resolves it: the directories on
    the way have to exist; whether there is anything at the place itself is
    for the caller to see. *)
Definition locate (w : World) (path : string) : exn + node :=
  match check_path path with
  | inl e => inl e
  | inr _ =>
      let comps := split_on "/" path in
      match walk w (start w path) (removelast comps) with
      | inl e => inl e
      | inr dir => inr (step dir (List.last comps ""))
      end
  end.

Fixpoint drop_trailing_empty (comps : list string) : list string :=
  match comps with
  | [] => []
  | comp :: rest =>
      match drop_trailing_empty rest with
      | [] => if String.eqb comp "" then [] else [comp]
      | rest' => comp :: rest'
      end
  end.

(** The file that opening [path] for writing creates or truncates: the
    directories on the way have to exist, and the path must not name a
    directory, by a trailing slash, by [.] or [..], or by what is there. *)
Definition open_w (w : World) (path : string) : exn + node :=
  if endswith "/" path then
    match check_path path with
    | inl e => inl e
    | inr _ =>
        match walk w (start w path)
                (removelast (drop_trailing_empty (split_on "/" path))) with
        | inl e => inl e
        | inr _ => inl IsADirectoryError
        end
    end
  else
    match locate w path with
    | inl e => inl e
    | inr n =>
        let name := List.last (split_on "/" path) "" in
        if String.eqb name "." || String.eqb name ".." || is_dir w n
        then inl IsADirectoryError
        else inr n
    end.

Definition mkdir (w : World) (n : node) : World :=
  mkWorld (cwd w) (files w) ({[n]} ∪ dirs w) (stdout w).

(** [os.makedirs] along the components of its path: a directory that is
    there is entered, one that is missing is made; a file in the way stops
    the call, with [FileExistsError] when it is at the end of the path and
    [NotADirectoryError] before. The directories made so far stay. *)
Fixpoint makedirs_from (w : World) (cur : node) (comps : list string)
  : (exn + unit) * World :=
  match comps with
  | [] => (inr tt, w)
  | comp :: rest =>
      let next := step cur comp in
      if is_dir w next then makedirs_from w next rest
      else match files w !! next with
           | Some _ =>
               (inl (if forallb (String.eqb "") rest then FileExistsError
                     else NotADirectoryError), w)
           | None => makedirs_from (mkdir w next) next rest
           end
  end.

(** [os.makedirs(path, exist_ok=True)]. *)
Definition os_makedirs (path : string) : M unit :=
  λ w,
    match check_path path with
    | inl e => (inl e, w)
    | inr _ => makedirs_from w (start w path) (split_on "/" path)
    end.

(** [with open(path, "w") as f: f.write(s)]: the file is created or
    truncated and holds the text afterwards. *)
Definition write_text (path s : string) : M unit :=
  λ w,
    match open_w w path with
    | inl e => (inl e, w)
    | inr n =>
        (inr tt, mkWorld (cwd w) (<[n := Plain (text_mode s)]> (files w)) (dirs w) (stdout w))
    end.

(** [zipfile.ZipFile(path, "w", compression=method)]: mode ["w"] truncates
    the file and starts a new archive. *)
Definition ZipFile_w (path : string) (method : compression) : M ZipFile :=
  λ w,
    match open_w w path with
    | inl e => (inl e, w)
    | inr n =>
        (inr (mkZipFile n method),
         mkWorld (cwd w) (<[n := ZipArchive method []]> (files w)) (dirs w) (stdout w))
    end.

(** The characters of [s] before the first [c]. *)
Fixpoint before (c : ascii) (s : string) : string :=
  match s with
  | "" => ""
  | String c' s' => if Ascii.eqb c' c then "" else String c' (before c s')
  end.

Fixpoint lstrip (c : ascii) (s : string) : string :=
  match s with
  | String c' s' => if Ascii.eqb c' c then lstrip c s' else s
  | "" => ""
  end.

(** The name [zipfile] gives an entry for [arcname]: the path is
    normalised, its leading separators are dropped one by one, indexing
    the first character each time, a directory gets a slash at the end, and
    the name ends before a null byte. *)
Definition zip_arcname (isdir : bool) (arcname : string) : exn + string :=
  match lstrip "/" (normpath arcname) with
  | "" => inl IndexError
  | name => inr (before NUL (if isdir then name +:+ "/" else name))
  end.

(** The entries of the archive at a place. *)
Definition entries_at (w : World) (n : node) : list (string * file) :=
  match files w !! n with
  | Some (ZipArchive _ es) => es
  | _ => []
  end.

(** [z.write(filename, arcname=arcname)]: the file is looked up, its entry
    name is made from [arcname], and its contents are appended to the
    archive as a new entry; a directory gives an empty entry. *)
Definition ZipFile_write (z : ZipFile) (filename arcname : string) : M unit :=
  λ w,
    match locate w filename with
    | inl e => (inl e, w)
    | inr src =>
        let isdir := is_dir w src in
        match (if isdir then Some (Plain "") else files w !! src) with
        | None => (inl FileNotFoundError, w)
        | Some content =>
            match zip_arcname isdir arcname with
            | inl e => (inl e, w)
            | inr name =>
                (inr tt,
                 mkWorld (cwd w)
                   (<[zip_fp z :=
                        ZipArchive (zip_compression z)
                          (entries_at w (zip_fp z) ++ [(name, content)])]>
                      (files w))
                   (dirs w) (stdout w))
            end
        end
    end.

(** [os.remove(path)]. *)
Definition os_remove (path : string) : M unit :=
  λ w,
    match locate w path with
    | inl e => (inl e, w)
    | inr n =>
        if is_dir w n then (inl IsADirectoryError, w)
        else match files w !! n with
             | None => (inl FileNotFoundError, w)
             | Some _ => (inr tt, mkWorld (cwd w) (delete n (files w)) (dirs w) (stdout w))
             end
    end.

(** ** Data frames *)

(** The index of a row: a calendar date. *)
Record Timestamp : Type := mkTimestamp { year : Z; month : Z; day : Z }.

(** One row of the frame; each field is what [row[...].iloc[0]] yields, a
    float for the volume as for the prices. *)
Record Row : Type := mkRow {
  Open : spec_float;
  High : spec_float;
  Low : spec_float;
  Close : spec_float;
  Volume : spec_float
}.

Definition DataFrame : Type := list (Timestamp * Row).

(** [data.empty] *)
Definition DataFrame_empty (data : DataFrame) : bool :=
  match data with
  | [] => true
  | _ => false
  end.

(** [s.zfill(width)] for a string of digits. *)
Definition zfill (width : nat) (s : string) : string :=
  String.string_of_list_ascii (replicate (width - String.length s) "0"%char) +:+ s.

(** [date.strftime("%Y%m%d 00:00")]: the year as it is, month and day on
    two digits. *)
Definition strftime (date : Timestamp) : string :=
  pretty (year date) +:+ zfill 2 (pretty (month date))
    +:+ zfill 2 (pretty (day date)) +:+ " 00:00".

(** ** The script *)

Definition MULTIPLIER : Z := 10000.

Definition convert_price_value (val : spec_float) : exn + Z :=
  int_of_float (Float.mul val (Float.of_int MULTIPLIER)).

Definition lean_data_dir : string := "C:\GitRepo\Finance\LeanFork\Data".

(** The right arrow of the progress message, U+2192 in UTF-8. *)
Definition arrow : string :=
  String "226"%char (String "134"%char (String "146"%char "")).

Definition usage_line : string :=
  "Usage: python download_data.py <symbol> <start_date> <end_date>".
Definition example_line : string :=
  "Example: python download_data.py AAPL 2023-01-01 2023-12-31".

Definition no_data_line (symbol : string) : string :=
  "No data found for " +:+ symbol +:+ " in this date range.".

(** The body of the loop at one row: the formatted line, or the exception
    of the first conversion that fails. *)
Definition format_row (date : Timestamp) (row : Row) : exn + string :=
  let dt := strftime date in
  match convert_price_value (Open row) with
  | inl e => inl e
  | inr open_val =>
  match convert_price_value (High row) with
  | inl e => inl e
  | inr high_val =>
  match convert_price_value (Low row) with
  | inl e => inl e
  | inr low_val =>
  match convert_price_value (Close row) with
  | inl e => inl e
  | inr close_val =>
  match int_of_float (Volume row) with
  | inl e => inl e
  | inr volume_val =>
      inr (dt +:+ "," +:+ pretty open_val +:+ "," +:+ pretty high_val
              +:+ "," +:+ pretty low_val +:+ "," +:+ pretty close_val
              +:+ "," +:+ pretty volume_val)
  end end end end end.

(** [for date, row in data.iterrows(): ... formatted_data.append(...)],
    started from the list built so far. *)
Fixpoint format_rows (data : DataFrame) (formatted_data : list string)
  : exn + list string :=
  match data with
  | [] => inr formatted_data
  | (date, row) :: rest =>
      match format_row date row with
      | inl e => inl e
      | inr line => format_rows rest (formatted_data ++ [line])
      end
  end.

(** [output_dir], [csv_path] and [zip_path] as [main] computes them. *)
Definition output_dir : string :=
  os_path_join lean_data_dir ["equity"; "usa"; "daily"].

Definition csv_path (symbol_lower : string) : string :=
  os_path_join output_dir [symbol_lower +:+ ".csv"].

Definition zip_path (symbol_lower : string) : string :=
  os_path_join output_dir [symbol_lower +:+ ".zip"].

(** The progress messages. *)
Definition downloading_line (symbol start_date end_date : string) : string :=
  "Downloading " +:+ symbol +:+ " data from Yahoo Finance ("
    +:+ start_date +:+ " " +:+ arrow +:+ " " +:+ end_date +:+ ")...".

Definition saving_line : string := "Saving data to " +:+ output_dir +:+ "...".

Definition ready_line (symbol_lower : string) : string :=
  newline +:+ "Data ready for LEAN: " +:+ zip_path symbol_lower.

Definition contains_line (n : nat) (symbol : string) : string :=
  "Contains " +:+ pretty n +:+ " daily bars for " +:+ symbol +:+ ".".

Section Script.

(** [str.upper] and [str.lower] *)
Variable upper lower : string → string.

(** [yf.download(symbol, start=..., end=..., auto_adjust=True)] *)
Variable yf_download : string → string → string → DataFrame.

Definition main (argv : list string) : M unit :=
  when (length argv <? 4)%nat
    (print usage_line ;; print example_line ;; sys_exit 1) ;;
  let symbol := upper (nth 1 argv "") in
  let start_date := nth 2 argv "" in
  let end_date := nth 3 argv "" in
  print (downloading_line symbol start_date end_date) ;;
  let data := yf_download symbol start_date end_date in
  when (DataFrame_empty data)
    (print (no_data_line symbol) ;; sys_exit 1) ;;
  formatted_data ← lift (format_rows data []) ;
  let symbol_lower := lower symbol in
  print saving_line ;;
  os_makedirs output_dir ;;
  write_text (csv_path symbol_lower) (String.concat newline formatted_data) ;;
  z ← ZipFile_w (zip_path symbol_lower) ZIP_DEFLATED ;
  ZipFile_write z (csv_path symbol_lower) (symbol_lower +:+ ".csv") ;;
  os_remove (csv_path symbol_lower) ;;
  print (ready_line symbol_lower) ;;
  print (contains_line (length formatted_data) symbol).

End Script.

(** The exit status of the interpreter: 0 when [main] returns, the code
    of [sys.exit], 1 for any other uncaught exception. *)
Definition exit_status (r : exn + unit) : Z :=
  match r with
  | inr _ => 0
  | inl (SystemExit code) => code
  | inl _ => 1
  end.

(** * Definitions used by the statements *)

(** ** Rounding, on integers *)

(** [m / 2^n] rounded to the nearest integer, ties to the even one. *)
Definition rne (m n : Z) : Z :=
  let q := m / 2 ^ n in
  match 2 * (m mod 2 ^ n) ?= 2 ^ n with
  | Lt => q
  | Eq => if Z.even q then q else q + 1
  | Gt => q + 1
  end.

(** The float that [binary_round_aux] returns for a rounded mantissa
    [0 <= k <= 2^53] at exponent [E1]: a mantissa of [2^53] is renormalised,
    an exponent above [emax - prec = 971] gives an infinity. *)
Definition round_result (s : bool) (k E1 : Z) : spec_float :=
  if k =? 0 then S754_zero s
  else if k <? 2 ^ 53 then
    if E1 <=? 971 then S754_finite s (Z.to_pos k) E1 else S754_infinity s
  else
    if E1 + 1 <=? 971 then S754_finite s (Z.to_pos (2 ^ 52)) (E1 + 1) else S754_infinity s.

(** Rounding to binary64 of a non-negative real given in units of
    [2^-1113], the unit in which the exact product of a float and
    [float(MULTIPLIER)] is an integer ([1113 = 1074 + 39]): [round_exp] is
    the number of low bits that rounding drops, at least 39 since no float
    is finer than [2^-1074], and [round_scaled] the rounded value in the
    same units. *)
Definition round_exp (P : Z) : Z := Z.max (Zdigits2 P - 53) 39.

Definition round_scaled (P : Z) : Z := rne P (round_exp P) * 2 ^ round_exp P.

(** The mantissa of [float(MULTIPLIER)], whose exponent is [-39]. *)
Definition multiplier_mantissa : positive := 5497558138880000.

(** The largest float whose product with [float(MULTIPLIER)] is finite,
    about 1.7976931348623157e304; the product is the largest finite float. *)
Definition MAX_PRICE : spec_float := S754_finite false 7378697629483820 958.

(** ** Strings *)

(** Every character of the string satisfies [P]. *)
Fixpoint str_forallb (P : ascii → bool) (s : string) : bool :=
  match s with
  | "" => true
  | String c s' => P c && str_forallb P s'
  end.

(** [c.isdigit()], on ASCII. *)
Definition is_digit (c : ascii) : bool :=
  let n := nat_of_ascii c in ((48 <=? n) && (n <=? 57))%nat.

(** The characters of a printed integer. *)
Definition is_int_char (c : ascii) : bool := is_digit c || Ascii.eqb c "-".

(** The characters of a timestamp. *)
Definition is_stamp_char (c : ascii) : bool :=
  is_int_char c || Ascii.eqb c " " || Ascii.eqb c ":".

(** The characters of an output line. *)
Definition is_line_char (c : ascii) : bool :=
  is_stamp_char c || Ascii.eqb c ",".

(** [differs c c'] holds when [c'] is not the character [c]. *)
Definition differs (c : ascii) (c' : ascii) : bool := negb (Ascii.eqb c' c).

(** ** Letter case *)

(** [s.isascii()]: every byte is below 128. *)
Definition isascii (s : string) : bool :=
  str_forallb (λ c, (nat_of_ascii c <? 128)%nat) s.

(** The case mappings of the ASCII letters. *)
Definition ascii_upper (c : ascii) : ascii :=
  let n := nat_of_ascii c in
  if ((97 <=? n) && (n <=? 122))%nat then ascii_of_nat (n - 32) else c.

Definition ascii_lower (c : ascii) : ascii :=
  let n := nat_of_ascii c in
  if ((65 <=? n) && (n <=? 90))%nat then ascii_of_nat (n + 32) else c.

Fixpoint str_map (f : ascii → ascii) (s : string) : string :=
  match s with
  | "" => ""
  | String c s' => String (f c) (str_map f s')
  end.

(** [str.upper] and [str.lower] as they are on ASCII strings; bytes that
    are not ASCII letters stay. *)
Definition ascii_str_upper : string → string := str_map ascii_upper.
Definition ascii_str_lower : string → string := str_map ascii_lower.



(** ** Rows and lines *)

(** A date of the proleptic Gregorian calendar of [datetime]: years 1 to
    9999, months 1 to 12, days 1 to 31. *)
Definition valid_date (date : Timestamp) : bool :=
  (1 <=? year date) && (year date <=? 9999) && (1 <=? month date) && (month date <=? 12)
  && (1 <=? day date) && (day date <=? 31).

(** The eight digits [YYYYMMDD] of a date. *)
Definition yyyymmdd (date : Timestamp) : string :=
  zfill 8 (pretty (year date * 10000 + month date * 100 + day date)).

(** The cell that [iterrows] yields for the integer [n] of an [int64]
    column: the nearest float. *)
Definition int64_cell (n : Z) : spec_float := Float.of_int n.

(** A bar as the data model describes it: representable, non-negative
    prices with [low <= open, close <= high] and a non-negative volume. *)
Definition RawBar_ok (row : Row) : bool :=
  valid_binary Float.prec Float.emax (Open row)
  && valid_binary Float.prec Float.emax (High row)
  && valid_binary Float.prec Float.emax (Low row)
  && valid_binary Float.prec Float.emax (Close row)
  && Float.is_nonneg (Open row) && Float.is_nonneg (High row)
  && Float.is_nonneg (Low row) && Float.is_nonneg (Close row)
  && Float.leb (Low row) (Open row) && Float.leb (Open row) (High row)
  && Float.leb (Low row) (Close row) && Float.leb (Close row) (High row)
  && Float.is_nonneg (Volume row).

(** [floor(price * 10000)], the product taken in floating point. *)
Definition floor_of_product (price : spec_float) : Z :=
  Float.floor (Float.mul price (Float.of_int MULTIPLIER)).

(** The four prices of a row are representable and not below zero. *)
Definition prices_ok (row : Row) : bool :=
  valid_binary Float.prec Float.emax (Open row)
  && valid_binary Float.prec Float.emax (High row)
  && valid_binary Float.prec Float.emax (Low row)
  && valid_binary Float.prec Float.emax (Close row)
  && Float.is_nonneg (Open row) && Float.is_nonneg (High row)
  && Float.is_nonneg (Low row) && Float.is_nonneg (Close row).

(** The four prices of a row are at most [MAX_PRICE]. *)
Definition prices_in_range (row : Row) : bool :=
  Float.leb (Open row) MAX_PRICE && Float.leb (High row) MAX_PRICE
  && Float.leb (Low row) MAX_PRICE && Float.leb (Close row) MAX_PRICE.

(** The line of a row whose prices convert to the four given integers,
    or the exception of the volume. *)
Definition line_of (date : Timestamp) (open_i high_i low_i close_i : Z)
    (volume : exn + Z) : exn + string :=
  match volume with
  | inl e => inl e
  | inr volume_i =>
      inr (String.concat ","
             [strftime date; pretty open_i; pretty high_i; pretty low_i;
              pretty close_i; pretty volume_i])
  end.

(** ** Files *)

(** [os.path.exists(path)] *)
Definition path_exists (w : World) (path : string) : bool :=
  match locate w path with
  | inr n => is_dir w n || bool_decide (is_Some (files w !! n))
  | inl _ => false
  end.

(** The regular file that [path] names, if there is one. *)
Definition read_file (w : World) (path : string) : option file :=
  match locate w path with
  | inr n => if is_dir w n then None else files w !! n
  | inl _ => None
  end.

(** The path of the staging file and of the archive without the
    extension: the lowercased symbol in [output_dir], or the lowercased
    symbol alone when it starts with a slash. *)
Definition path_stem (symbol_lower : string) : string :=
  if startswith "/" symbol_lower then symbol_lower
  else output_dir +:+ "/" +:+ symbol_lower.

(** The places passed on the way from [cur] through [comps]. *)
Fixpoint path_nodes (cur : node) (comps : list string) : list node :=
  match comps with
  | [] => []
  | comp :: rest => step cur comp :: path_nodes (step cur comp) rest
  end.

(** The place of [output_dir] and of the directories above it, below the
    working directory. *)
Definition output_node (w : World) : node :=
  cwd w ++ [lean_data_dir; "equity"; "usa"; "daily"].

Definition output_nodes (w : World) : list node :=
  [cwd w ++ [lean_data_dir]; cwd w ++ [lean_data_dir; "equity"];
   cwd w ++ [lean_data_dir; "equity"; "usa"]; output_node w].

(** Nothing in the tree stands in the way of an archive for a symbol: no
    regular file is where [output_dir] or a directory above it has to be,
    and no directory is where the staging file and the archive go. *)
Definition can_archive (w : World) (symbol_lower : string) : bool :=
  forallb (λ n, is_dir w n || bool_decide (files w !! n = None)) (output_nodes w)
  && negb (is_dir w (output_node w ++ [symbol_lower +:+ ".csv"]))
  && negb (is_dir w (output_node w ++ [symbol_lower +:+ ".zip"])).

(** The files after a successful run: the staging file written, the
    archive written, the staging file removed. *)
Definition archived (csv_node zip_node : node) (name content : string)
    (fs : gmap node file) : gmap node file :=
  delete csv_node
    (<[zip_node := ZipArchive ZIP_DEFLATED [(name, Plain content)]]>
       (<[csv_node := Plain content]> fs)).

(** ** The AAPL scenario: one bar, dated 2023-01-03 *)

Definition aapl_date : Timestamp := mkTimestamp 2023 1 3.

(** open 130.0, high 131.5, low 129.25, close 131.0, volume 1000 *)
Definition aapl_row : Row :=
  mkRow (Float.of_int 130)
        (Float.div (Float.of_int 263) (Float.of_int 2))
        (Float.div (Float.of_int 517) (Float.of_int 4))
        (Float.of_int 131)
        (int64_cell 1000).
Definition aapl_line : string := "20230103 00:00,1300000,1315000,1292500,1310000,1000".

(** A provider that knows this one bar of AAPL and nothing else. *)
Definition aapl_download (symbol start_date end_date : string) : DataFrame :=
  if String.eqb symbol "AAPL" then [(aapl_date, aapl_row)] else [].

Definition aapl_argv : list string :=
  ["download_data.py"; "AAPL"; "2023-01-01"; "2023-01-03"].

(** A second bar, dated 2023-01-04: open 127.0, high 128.5, low 125.0,
    close 126.25, volume 2000. *)
Definition next_date : Timestamp := mkTimestamp 2023 1 4.

Definition next_row : Row :=
  mkRow (Float.of_int 127)
        (Float.div (Float.of_int 257) (Float.of_int 2))
        (Float.of_int 125)
        (Float.div (Float.of_int 505) (Float.of_int 4))
        (int64_cell 2000).
Definition next_line : string := "20230104 00:00,1270000,1285000,1250000,1262500,2000".

(** A provider that returns the two bars, whatever the symbol. *)
Definition two_bar_download (symbol start_date end_date : string) : DataFrame :=
  [(aapl_date, aapl_row); (next_date, next_row)].

Definition two_bar_argv : list string :=
  ["download_data.py"; "aapl"; "2023-01-01"; "2023-01-05"].

(** The same bars for a symbol with a directory part. *)
Definition dot_slash_argv : list string :=
  ["download_data.py"; "./aapl"; "2023-01-01"; "2023-01-05"].


(** A working directory with nothing below it, nothing printed. *)
Definition fresh_world : World := mkWorld ["home"; "lean"] ∅ ∅ [].

(** A tree in which [output_dir] exists and holds a directory named
    [aapl.zip]. *)
Definition blocked_world : World :=
  mkWorld ["home"; "lean"] ∅
    (list_to_set (output_nodes fresh_world
                    ++ [output_node fresh_world ++ ["aapl.zip"]])) [].

(** A tree in which [output_dir] exists and holds an archive [aapl.zip]
    from an earlier day. *)
Definition stale_archive : file :=
  ZipArchive ZIP_DEFLATED [("aapl.csv", Plain "20221230 00:00,1280000,1290000,1270000,1285000,900")].

Definition stale_world : World :=
  mkWorld ["home"; "lean"]
    {[ output_node fresh_world ++ ["aapl.zip"] := stale_archive ]}
    (list_to_set (output_nodes fresh_world)) [].

(** A symbol with a directory part. *)
Definition slash_argv : list string :=
  ["download_data.py"; "brk/b"; "2023-01-01"; "2023-01-05"].

(** ** Further definitions: signs, exact products, reading lines back *)

(** [-v] on the result of a conversion; an exception is passed on. *)
Definition opp_result (r : exn + Z) : exn + Z :=
  match r with
  | inl e => inl e
  | inr v => inr (- v)
  end.

(** [math.floor(price * 10000)] with the product taken exactly, in the
    reals: the value of [price] is [Float.scaled price * 2^-1074]. *)
Definition floor_of_exact_product (price : spec_float) : Z :=
  Float.scaled price * MULTIPLIER / 2 ^ 1074.

(** 900719925474.0: up to this price the product with 10000 stays below
    [2^53], where consecutive floats are at most 1 apart. *)
Definition UNIT_SPACED_PRICE : spec_float := Float.of_int 900719925474.

(** The sign bit of a float; a NaN has none. *)
Definition sign_bit (x : spec_float) : bool :=
  match x with
  | S754_zero s | S754_infinity s | S754_finite s _ _ => s
  | S754_nan => false
  end.

(** The product of the magnitude with 10000, floored, under the sign of the
    price: the product truncated toward zero. *)
Definition truncated_product (price : spec_float) : Z :=
  cond_Zopp (sign_bit price) (floor_of_product (SFabs price)).

(** The value of a decimal digit. *)
Definition digit_value (c : ascii) : Z := Z.of_nat (nat_of_ascii c) - 48.

(** The number written by a string of digits, after the digits [acc]. *)
Fixpoint parse_digits (acc : Z) (s : string) : Z :=
  match s with
  | "" => acc
  | String c s' => parse_digits (acc * 10 + digit_value c) s'
  end.

(** [int(s)] for a string of digits with an optional minus sign. *)
Definition parse_int (s : string) : Z :=
  match s with
  | String "-" s' => - parse_digits 0 s'
  | _ => parse_digits 0 s
  end.

(** A reader of output lines: the line is split at the commas, the
    timestamp at the space, and the numbers are read as integers. It yields
    the date as the number YYYYMMDD, the time of day and the five integers. *)
Definition parse_line (line : string) : option (Z * string * Z * Z * Z * Z * Z) :=
  match split_on "," line with
  | [timestamp; open_s; high_s; low_s; close_s; volume_s] =>
      match split_on " " timestamp with
      | [date_s; time_s] =>
          Some (parse_int date_s, time_s, parse_int open_s, parse_int high_s,
                parse_int low_s, parse_int close_s, parse_int volume_s)
      | _ => None
      end
  | _ => None
  end.

(** A frame with one row whose close is a NaN. *)
Definition nan_row : Row :=
  mkRow (Float.of_int 130) (Float.of_int 131) (Float.of_int 129) S754_nan
        (int64_cell 1000).

Definition nan_download (symbol start_date end_date : string) : DataFrame :=
  [(aapl_date, aapl_row); (aapl_date, nan_row); (aapl_date, aapl_row)].

(** [H : b1 && ... && bn = true] split into its conjuncts. *)
Ltac split_andb H := repeat (apply andb_prop in H as [H ?]).


(** * Rounding in [SpecFloat]

    [binary_round_aux] shifts the mantissa right bit by bit and keeps a round
    bit and a sticky bit; the lemmas below give it the closed form [rne]. *)

Lemma iter_pos_nat {A : Type} (f : A → A) (p : positive) (x : A) :
  SpecFloat.iter_pos f p x = Nat.iter (Pos.to_nat p) f x.
Proof.
  revert x. induction p as [p IH|p IH|]; intros x.
  - change (SpecFloat.iter_pos f p~1 x)
      with (SpecFloat.iter_pos f p (SpecFloat.iter_pos f p (f x))).
    rewrite !IH, Pos2Nat.inj_xI.
    replace (S (2 * Pos.to_nat p)) with (Pos.to_nat p + (Pos.to_nat p + 1))%nat by lia.
    rewrite !Nat.iter_add. reflexivity.
  - change (SpecFloat.iter_pos f p~0 x)
      with (SpecFloat.iter_pos f p (SpecFloat.iter_pos f p x)).
    rewrite !IH, Pos2Nat.inj_xO.
    replace (2 * Pos.to_nat p)%nat with (Pos.to_nat p + Pos.to_nat p)%nat by lia.
    rewrite Nat.iter_add. reflexivity.
  - reflexivity.
Qed.

Lemma shr_1_m mrs : 0 <= shr_m mrs → shr_m (shr_1 mrs) = shr_m mrs / 2.
Proof.
  intros Hm. rewrite <- Z.div2_div.
  destruct mrs as [m r s]; simpl in *.
  destruct m as [|[p|p|]|p]; (reflexivity || lia).
Qed.

Lemma shr_1_r mrs : 0 <= shr_m mrs → shr_r (shr_1 mrs) = Z.odd (shr_m mrs).
Proof. destruct mrs as [m r s]; simpl. destruct m as [|[p|p|]|p]; simpl; (reflexivity || lia). Qed.

Lemma shr_1_s mrs : shr_s (shr_1 mrs) = shr_r mrs || shr_s mrs.
Proof. destruct mrs as [m r s]; simpl. destruct m as [|[p|p|]|[p|p|]]; reflexivity. Qed.

Lemma shr_iter m (k : nat) :
  0 <= m →
  let mrs := Nat.iter k shr_1 (Build_shr_record m false false) in
  let rem := m mod 2 ^ Z.of_nat k in
  shr_m mrs = m / 2 ^ Z.of_nat k
  ∧ shr_r mrs = (2 ^ Z.of_nat k <=? 2 * rem)
  ∧ shr_s mrs = negb (rem =? 0) && negb (2 * rem =? 2 ^ Z.of_nat k).
Proof.
  intros Hm. induction k as [|k IH]; cbv zeta.
  - simpl. rewrite Z.div_1_r, Z.mod_1_r. auto.
  - cbv zeta in IH. destruct IH as (IHm & IHr & IHs).
    rewrite Nat.iter_succ.
    set (mrs := Nat.iter k shr_1 _) in *.
    assert (Hq : 0 <= shr_m mrs) by (rewrite IHm; apply Z.div_pos; lia).
    rewrite shr_1_m, shr_1_r, shr_1_s by assumption.
    rewrite IHm, IHr, IHs. clear IHm IHr IHs Hq mrs.
    rewrite Nat2Z.inj_succ, Z.pow_succ_r by lia.
    set (K := 2 ^ Z.of_nat k).
    assert (HK : 0 < K) by (apply Z.pow_pos_nonneg; lia).
    pose proof (Z.div_mod m K ltac:(lia)) as E1.
    pose proof (Z.mod_pos_bound m K HK) as B1.
    pose proof (Z.div_mod (m / K) 2 ltac:(lia)) as E2.
    pose proof (Z.mod_pos_bound (m / K) 2 ltac:(lia)) as B2.
    assert (Ediv : m / (2 * K) = m / K / 2).
    { rewrite Z.mul_comm. rewrite Z.div_div by lia. reflexivity. }
    assert (Emod : m mod (2 * K) = m mod K + K * ((m / K) mod 2)).
    { rewrite Z.mul_comm. rewrite Z.rem_mul_r by lia. reflexivity. }
    rewrite Ediv, Emod. rewrite <- Z.bit0_mod, Z.bit0_odd.
    split; [reflexivity|].
    destruct (Z.odd (m / K)); cbn [Z.b2z]; split.
    + symmetry. apply Z.leb_le. lia.
    + destruct (K <=? 2 * (m mod K)) eqn:H1, (m mod K =? 0) eqn:H2,
        (2 * (m mod K) =? K) eqn:H3, (m mod K + K * 1 =? 0) eqn:H4,
        (2 * (m mod K + K * 1) =? 2 * K) eqn:H5; simpl; try reflexivity; lia.
    + symmetry. apply Z.leb_gt. lia.
    + destruct (K <=? 2 * (m mod K)) eqn:H1, (m mod K =? 0) eqn:H2,
        (2 * (m mod K) =? K) eqn:H3, (m mod K + K * 0 =? 0) eqn:H4,
        (2 * (m mod K + K * 0) =? 2 * K) eqn:H5; simpl; try reflexivity; lia.
Qed.

Lemma shr_round m (p : positive) :
  0 <= m →
  let mrs := SpecFloat.iter_pos shr_1 p (Build_shr_record m false false) in
  round_nearest_even (shr_m mrs) (loc_of_shr_record mrs) = rne m (Z.pos p).
Proof.
  intros Hm mrs. subst mrs. rewrite iter_pos_nat.
  destruct (shr_iter m (Pos.to_nat p) Hm) as (Em & Er & Es).
  rewrite positive_nat_Z in *.
  set (mrs := Nat.iter _ _ _) in *.
  destruct mrs as [q r s]. simpl in *. subst q.
  unfold rne. set (K := 2 ^ Z.pos p) in *.
  assert (HK : 0 < K) by (apply Z.pow_pos_nonneg; lia).
  pose proof (Z.mod_pos_bound m K HK) as B1.
  rewrite Er, Es.
  destruct (Z.compare_spec (2 * (m mod K)) K) as [C|C|C].
  - replace (K <=? 2 * (m mod K)) with true by (symmetry; apply Z.leb_le; lia).
    replace (2 * (m mod K) =? K) with true by (symmetry; apply Z.eqb_eq; lia).
    rewrite andb_false_r. reflexivity.
  - replace (K <=? 2 * (m mod K)) with false by (symmetry; apply Z.leb_gt; lia).
    destruct (negb _ && negb _); reflexivity.
  - replace (K <=? 2 * (m mod K)) with true by (symmetry; apply Z.leb_le; lia).
    replace (2 * (m mod K) =? K) with false by (symmetry; apply Z.eqb_neq; lia).
    replace (m mod K =? 0) with false by (symmetry; apply Z.eqb_neq; lia).
    reflexivity.
Qed.

Lemma digits2_pos_size p : digits2_pos p = Pos.size p.
Proof. induction p; simpl; congruence. Qed.

Lemma Zdigits2_bounds (p : positive) :
  2 ^ (Zdigits2 (Z.pos p) - 1) <= Z.pos p < 2 ^ Zdigits2 (Z.pos p).
Proof.
  cbn [Zdigits2]. rewrite digits2_pos_size.
  pose proof (Pos.size_gt p) as Hgt. pose proof (Pos.size_le p) as Hle.
  apply Pos2Z.pos_lt_pos in Hgt. apply Pos2Z.pos_le_pos in Hle.
  rewrite Pos2Z.inj_pow in Hgt, Hle.
  replace (2 ^ Z.pos (Pos.size p)) with (2 * 2 ^ (Z.pos (Pos.size p) - 1)) in Hle.
  2:{ rewrite <- Z.pow_succ_r by lia. f_equal. lia. }
  lia.
Qed.

Lemma Zdigits2_unique (m d : Z) :
  0 < m → 2 ^ (d - 1) <= m < 2 ^ d → Zdigits2 m = d.
Proof.
  intros Hm [Hlo Hhi]. destruct m as [|p|p]; try lia.
  pose proof (Zdigits2_bounds p) as [Blo Bhi].
  set (d' := Zdigits2 (Z.pos p)) in *.
  assert (0 < d') by (subst d'; simpl; lia).
  assert (0 < d).
  { destruct (Z.lt_trichotomy d 0) as [C|[C|C]]; [| |assumption].
    - rewrite Z.pow_neg_r in Hhi by assumption. lia.
    - subst d. simpl in Hhi. lia. }
  destruct (Z.lt_trichotomy d' d) as [C|[C|C]]; [|assumption|].
  - assert (2 ^ d' <= 2 ^ (d - 1)) by (apply Z.pow_le_mono_r; lia). lia.
  - assert (2 ^ d <= 2 ^ (d' - 1)) by (apply Z.pow_le_mono_r; lia). lia.
Qed.

Lemma rne_bounds m n : 0 <= m → 0 <= n → m / 2 ^ n <= rne m n <= m / 2 ^ n + 1.
Proof.
  intros. unfold rne. destruct (_ ?= _); [destruct (Z.even _)| |]; lia.
Qed.

Lemma round_aux_exact (s : bool) (M : positive) (E : Z) :
  let n := fexp 53 1024 (Zdigits2 (Z.pos M) + E) - E in
  0 < n →
  binary_round_aux 53 1024 s (Z.pos M) E loc_Exact
  = round_result s (rne (Z.pos M) n) (E + n)
  ∧ 0 <= rne (Z.pos M) n <= 2 ^ 53.
Proof.
  intros n Hn.
  pose proof (Zdigits2_bounds M) as [Blo Bhi].
  set (d := Zdigits2 (Z.pos M)) in *.
  set (k := rne (Z.pos M) n).
  assert (Hk : 0 <= k <= 2 ^ 53).
  { pose proof (rne_bounds (Z.pos M) n ltac:(lia) ltac:(lia)) as [Hl Hu]. fold k in Hl, Hu.
    assert (0 <= Z.pos M / 2 ^ n) by (apply Z.div_pos; [lia|apply Z.pow_pos_nonneg; lia]).
    assert (Z.pos M / 2 ^ n < 2 ^ 53).
    { apply Z.div_lt_upper_bound; [apply Z.pow_pos_nonneg; lia|].
      rewrite <- Z.pow_add_r by lia.
      eapply Z.lt_le_trans; [exact Bhi|]. apply Z.pow_le_mono_r; [lia|].
      unfold n, fexp. lia. }
    lia. }
  split; [|exact Hk].
  assert (HE1 : -1074 <= E + n) by (unfold n, fexp, emin; lia).
  unfold binary_round_aux. unfold shr_fexp at 1. fold d. fold n.
  destruct n as [|pn|pn] eqn:En; try lia.
  cbn [shr shr_record_of_loc].
  pose proof (shr_round (Z.pos M) pn ltac:(lia)) as Hr. cbv zeta in Hr.
  rewrite Hr. fold k. clear Hr.
  unfold shr_fexp, shr_record_of_loc.
  unfold round_result.
  destruct (Z.eqb_spec k 0) as [K0|K0].
  - rewrite K0. cbn [Zdigits2].
    assert (Hs : fexp 53 1024 (0 + (E + Z.pos pn)) - (E + Z.pos pn) <= 0)
      by (unfold fexp, emin; lia).
    destruct (fexp 53 1024 (0 + (E + Z.pos pn)) - (E + Z.pos pn)); try lia; reflexivity.
  - destruct (Z.ltb_spec k (2 ^ 53)) as [K1|K1].
    + destruct k as [|pk|pk] eqn:Ek; try lia.
      pose proof (Zdigits2_bounds pk) as [Klo Khi].
      assert (Zdigits2 (Z.pos pk) <= 53).
      { destruct (Z.le_gt_cases (Zdigits2 (Z.pos pk)) 53) as [C|C]; [assumption|].
        assert (2 ^ 53 <= 2 ^ (Zdigits2 (Z.pos pk) - 1)) by (apply Z.pow_le_mono_r; lia). lia. }
      assert (Hs : fexp 53 1024 (Zdigits2 (Z.pos pk) + (E + Z.pos pn)) - (E + Z.pos pn) <= 0)
        by (unfold fexp, emin; lia).
      destruct (fexp 53 1024 (Zdigits2 (Z.pos pk) + (E + Z.pos pn)) - (E + Z.pos pn));
        try lia; reflexivity.
    + assert (Ek : k = 2 ^ 53) by lia. rewrite Ek.
      change (Zdigits2 (2 ^ 53)) with 54.
      assert (Hs : fexp 53 1024 (54 + (E + Z.pos pn)) - (E + Z.pos pn) = 1)
        by (unfold fexp, emin; lia).
      rewrite Hs. cbn [shr SpecFloat.iter_pos].
      change (shr_m (shr_1 {| shr_m := 2 ^ 53; shr_r := false; shr_s := false |}))
        with (2 ^ 52).
      change (2 ^ 52) with (Z.pos (Z.to_pos (2 ^ 52))) at 1.
      cbv iota beta. reflexivity.
Qed.

(** ** Rounding on scaled values is monotone *)

Lemma pow2_pos n : 0 <= n → 0 < 2 ^ n.
Proof. intros. apply Z.pow_pos_nonneg; lia. Qed.

Lemma rne_scale m n s : 0 <= n → 0 <= s → rne (m * 2 ^ s) (n + s) = rne m n.
Proof.
  intros Hn Hs. unfold rne.
  pose proof (pow2_pos n Hn). pose proof (pow2_pos s Hs).
  rewrite Z.pow_add_r by lia.
  rewrite Z.div_mul_cancel_r by lia.
  rewrite Z.mul_mod_distr_r by lia.
  replace (2 * (m mod 2 ^ n * 2 ^ s)) with (2 * (m mod 2 ^ n) * 2 ^ s) by ring.
  assert (Hc : (2 * (m mod 2 ^ n) * 2 ^ s ?= 2 ^ n * 2 ^ s)
               = (2 * (m mod 2 ^ n) ?= 2 ^ n)).
  { destruct (Z.compare_spec (2 * (m mod 2 ^ n)) (2 ^ n)),
      (Z.compare_spec (2 * (m mod 2 ^ n) * 2 ^ s) (2 ^ n * 2 ^ s)); try reflexivity; nia. }
  rewrite Hc. reflexivity.
Qed.

Lemma Zdigits2_scale (p : positive) s :
  0 <= s → Zdigits2 (Z.pos p * 2 ^ s) = Zdigits2 (Z.pos p) + s.
Proof.
  intros Hs. pose proof (Zdigits2_bounds p) as [Blo Bhi].
  pose proof (pow2_pos s Hs).
  assert (0 < Zdigits2 (Z.pos p)) by (simpl; lia).
  apply Zdigits2_unique; [lia|].
  replace (Zdigits2 (Z.pos p) + s - 1) with (Zdigits2 (Z.pos p) - 1 + s) by lia.
  rewrite !Z.pow_add_r by lia. split; nia.
Qed.

Lemma rne_mono m1 m2 n : 0 <= n → 0 <= m1 <= m2 → rne m1 n <= rne m2 n.
Proof.
  intros Hn Hm. unfold rne. pose proof (pow2_pos n Hn) as HK.
  set (K := 2 ^ n) in *.
  pose proof (Z.div_mod m1 K ltac:(lia)). pose proof (Z.div_mod m2 K ltac:(lia)).
  pose proof (Z.mod_pos_bound m1 K HK). pose proof (Z.mod_pos_bound m2 K HK).
  assert (m1 / K <= m2 / K) by (apply Z.div_le_mono; lia).
  destruct (Z.eq_dec (m1 / K) (m2 / K)) as [Eq|Ne].
  - rewrite Eq in *.
    destruct (Z.compare_spec (2 * (m1 mod K)) K), (Z.compare_spec (2 * (m2 mod K)) K);
      destruct (Z.even (m2 / K)); lia.
  - destruct (Z.compare_spec (2 * (m1 mod K)) K), (Z.compare_spec (2 * (m2 mod K)) K);
      destruct (Z.even (m1 / K)), (Z.even (m2 / K)); lia.
Qed.

Lemma round_exp_ge P : 39 <= round_exp P.
Proof. unfold round_exp. lia. Qed.

Lemma round_scaled_0 : round_scaled 0 = 0.
Proof. reflexivity. Qed.

Lemma rne_nonneg m n : 0 <= m → 0 <= n → 0 <= rne m n.
Proof.
  intros. pose proof (rne_bounds m n ltac:(lia) ltac:(lia)).
  assert (0 <= m / 2 ^ n) by (apply Z.div_pos; [lia|apply pow2_pos; lia]). lia.
Qed.

Lemma round_scaled_nonneg P : 0 <= P → 0 <= round_scaled P.
Proof.
  intros. unfold round_scaled. pose proof (round_exp_ge P).
  apply Z.mul_nonneg_nonneg; [apply rne_nonneg; lia|]. pose proof (pow2_pos (round_exp P)). lia.
Qed.

(** Rounding stays within the binade of its argument. *)
Lemma round_scaled_upper (p : positive) :
  round_scaled (Z.pos p) <= 2 ^ Z.max (Zdigits2 (Z.pos p)) (round_exp (Z.pos p)).
Proof.
  unfold round_scaled. pose proof (Zdigits2_bounds p) as [Blo Bhi].
  pose proof (round_exp_ge (Z.pos p)) as Hn.
  set (n := round_exp (Z.pos p)) in *. set (d := Zdigits2 (Z.pos p)) in *.
  assert (0 < d) by (subst d; simpl; lia).
  pose proof (rne_bounds (Z.pos p) n ltac:(lia) ltac:(lia)) as [_ Hu].
  pose proof (pow2_pos n ltac:(lia)) as HK.
  destruct (Z.le_gt_cases d n) as [C|C].
  - rewrite Z.max_r by lia.
    assert (Z.pos p / 2 ^ n = 0).
    { apply Z.div_small. split; [lia|]. eapply Z.lt_le_trans; [exact Bhi|].
      apply Z.pow_le_mono_r; lia. }
    nia.
  - rewrite Z.max_l by lia.
    assert (Z.pos p / 2 ^ n < 2 ^ (d - n)).
    { apply Z.div_lt_upper_bound; [lia|]. rewrite <- Z.pow_add_r by lia.
      replace (n + (d - n)) with d by lia. exact Bhi. }
    replace d with ((d - n) + n) at 1 by lia. rewrite Z.pow_add_r by lia.
    apply Z.mul_le_mono_nonneg_r; lia.
Qed.

Lemma round_scaled_lower (p : positive) :
  round_exp (Z.pos p) < Zdigits2 (Z.pos p) →
  2 ^ (Zdigits2 (Z.pos p) - 1) <= round_scaled (Z.pos p).
Proof.
  intros Hlt. unfold round_scaled. pose proof (Zdigits2_bounds p) as [Blo Bhi].
  pose proof (round_exp_ge (Z.pos p)) as Hn.
  set (n := round_exp (Z.pos p)) in *. set (d := Zdigits2 (Z.pos p)) in *.
  pose proof (rne_bounds (Z.pos p) n ltac:(lia) ltac:(lia)) as [Hl _].
  pose proof (pow2_pos n ltac:(lia)) as HK.
  assert (2 ^ (d - 1 - n) <= Z.pos p / 2 ^ n).
  { apply Z.div_le_lower_bound; [lia|]. rewrite <- Z.pow_add_r by lia.
    replace (n + (d - 1 - n)) with (d - 1) by lia. exact Blo. }
  replace (d - 1) with ((d - 1 - n) + n) by lia. rewrite Z.pow_add_r by lia.
  apply Z.mul_le_mono_nonneg_r; lia.
Qed.

Lemma Zdigits2_mono (p q : positive) :
  Z.pos p <= Z.pos q → Zdigits2 (Z.pos p) <= Zdigits2 (Z.pos q).
Proof.
  intros Hle. pose proof (Zdigits2_bounds p) as [Plo Phi].
  pose proof (Zdigits2_bounds q) as [Qlo Qhi].
  destruct (Z.le_gt_cases (Zdigits2 (Z.pos p)) (Zdigits2 (Z.pos q))) as [C|C]; [assumption|].
  assert (2 ^ Zdigits2 (Z.pos q) <= 2 ^ (Zdigits2 (Z.pos p) - 1))
    by (apply Z.pow_le_mono_r; lia).
  lia.
Qed.

Lemma round_scaled_mono P Q : 0 <= P <= Q → round_scaled P <= round_scaled Q.
Proof.
  intros [HP HPQ].
  destruct P as [|p|p]; [|clear HP|lia].
  { rewrite round_scaled_0. apply round_scaled_nonneg. lia. }
  destruct Q as [|q|q]; try lia.
  pose proof (Zdigits2_mono p q HPQ) as Hd.
  destruct (Z.eq_dec (round_exp (Z.pos p)) (round_exp (Z.pos q))) as [En|En].
  - unfold round_scaled. rewrite En. pose proof (round_exp_ge (Z.pos q)).
    apply Z.mul_le_mono_nonneg_r; [pose proof (pow2_pos (round_exp (Z.pos q))); lia|].
    apply rne_mono; lia.
  - pose proof (round_scaled_upper p) as Hu.
    assert (Hlt : round_exp (Z.pos q) < Zdigits2 (Z.pos q)) by (unfold round_exp in *; lia).
    pose proof (round_scaled_lower q Hlt) as Hl.
    assert (2 ^ Z.max (Zdigits2 (Z.pos p)) (round_exp (Z.pos p))
            <= 2 ^ (Zdigits2 (Z.pos q) - 1)).
    { apply Z.pow_le_mono_r; [lia|]. unfold round_exp in *. lia. }
    lia.
Qed.

(** ** The product with [float(MULTIPLIER)] *)

Lemma float_MULTIPLIER :
  Float.of_int MULTIPLIER = S754_finite false multiplier_mantissa (-39).
Proof. reflexivity. Qed.

Lemma bounded_inv (m : positive) (e : Z) :
  bounded 53 1024 m e = true →
  -1074 <= e <= 971
  ∧ Zdigits2 (Z.pos m) <= 53
  ∧ (-1074 < e → Zdigits2 (Z.pos m) = 53).
Proof.
  unfold bounded, canonical_mantissa, fexp, emin. intros H.
  apply andb_prop in H as [H1 H2].
  apply Z.eqb_eq in H1. apply Z.leb_le in H2.
  change (Z.pos (digits2_pos m)) with (Zdigits2 (Z.pos m)) in H1. lia.
Qed.

Lemma shiftl_scaled k n u :
  0 <= n → 0 <= u → Z.shiftl k (n - u) = k * 2 ^ n / 2 ^ u.
Proof.
  intros Hn Hu. pose proof (pow2_pos n Hn). pose proof (pow2_pos u Hu).
  destruct (Z.le_gt_cases u n) as [C|C].
  - rewrite Z.shiftl_mul_pow2 by lia.
    replace n with ((n - u) + u) at 2 by lia. rewrite Z.pow_add_r by lia.
    rewrite Z.mul_assoc, Z.div_mul by lia. reflexivity.
  - replace (n - u) with (- (u - n)) by lia. rewrite Z.shiftl_opp_r.
    rewrite Z.shiftr_div_pow2 by lia.
    replace u with ((u - n) + n) at 2 by lia. rewrite Z.pow_add_r by lia.
    rewrite Z.div_mul_cancel_r by (pose proof (pow2_pos (u - n)); lia). reflexivity.
Qed.

Lemma scaled_finite (m : positive) (e : Z) :
  -1074 <= e → Float.scaled (S754_finite false m e) = Z.pos m * 2 ^ (e + 1074).
Proof. intros. unfold Float.scaled. apply Z.shiftl_mul_pow2. lia. Qed.

(** The product with [float(MULTIPLIER)], in closed form. *)
Lemma mul_MULTIPLIER_finite (m : positive) (e : Z) :
  bounded 53 1024 m e = true →
  let P := Float.scaled (S754_finite false m e) * Z.pos multiplier_mantissa in
  Float.mul (S754_finite false m e) (Float.of_int MULTIPLIER)
  = round_result false (rne P (round_exp P)) (round_exp P - 1113)
  ∧ 0 < P ∧ 0 <= rne P (round_exp P) <= 2 ^ 53.
Proof.
  intros Hb P. destruct (bounded_inv m e Hb) as (He & Hd & Hn).
  rewrite float_MULTIPLIER. unfold Float.mul, SFmul. cbn [xorb].
  change Float.prec with 53. change Float.emax with 1024.
  set (M := (m * multiplier_mantissa)%positive).
  set (E := e + -39).
  assert (HP : P = Z.pos M * 2 ^ (E + 1113)).
  { subst P M E. rewrite scaled_finite by lia. rewrite Pos2Z.inj_mul.
    replace (e + -39 + 1113) with (e + 1074) by lia. ring. }
  pose proof (Zdigits2_bounds m) as [mlo mhi].
  pose proof (Zdigits2_bounds M) as [Mlo Mhi].
  assert (HdM : Zdigits2 (Z.pos m) + 52 <= Zdigits2 (Z.pos M)).
  { destruct (Z.le_gt_cases (Zdigits2 (Z.pos m) + 52) (Zdigits2 (Z.pos M))) as [C|C];
      [assumption|].
    assert (0 < Zdigits2 (Z.pos m)) by (simpl; lia).
    assert (2 ^ Zdigits2 (Z.pos M) <= 2 ^ (Zdigits2 (Z.pos m) - 1 + 52))
      by (apply Z.pow_le_mono_r; lia).
    rewrite Z.pow_add_r in * by lia.
    assert (2 ^ 52 <= Z.pos multiplier_mantissa) by (vm_compute; discriminate).
    assert (Z.pos M = Z.pos m * Z.pos multiplier_mantissa) by (subst M; apply Pos2Z.inj_mul).
    nia. }
  assert (0 < Zdigits2 (Z.pos m)) by (simpl; lia).
  assert (Hpos : 0 < fexp 53 1024 (Zdigits2 (Z.pos M) + E) - E).
  { unfold fexp, emin. subst E. lia. }
  destruct (round_aux_exact false M E Hpos) as [Hr Hk].
  rewrite Hr.
  assert (Hexp : round_exp P = fexp 53 1024 (Zdigits2 (Z.pos M) + E) - E + (E + 1113)).
  { unfold round_exp. rewrite HP, Zdigits2_scale by (subst E; lia).
    unfold fexp, emin. subst E. lia. }
  assert (Hrne : rne P (round_exp P) = rne (Z.pos M) (fexp 53 1024 (Zdigits2 (Z.pos M) + E) - E)).
  { rewrite Hexp, HP. apply rne_scale; subst E; lia. }
  rewrite Hrne. split; [|split].
  - f_equal. lia.
  - rewrite HP. pose proof (pow2_pos (E + 1113) ltac:(subst E; lia)). lia.
  - exact Hk.
Qed.

(** [convert_price_value] on a well-formed non-negative float, in closed
    form. *)
Lemma convert_price_value_scaled (x : spec_float) :
  Float.well_formed x → Float.is_nonneg x = true →
  let P := Float.scaled x * Z.pos multiplier_mantissa in
  convert_price_value x
  = if round_scaled P <? 2 ^ 2137 then inr (round_scaled P / 2 ^ 1113)
    else inl OverflowError.
Proof.
  intros Hwf Hnn P. destruct x as [s|s| |[|] m e]; try discriminate.
  - reflexivity.
  - unfold Float.well_formed in Hwf. cbn [valid_binary] in Hwf.
    destruct (mul_MULTIPLIER_finite m e Hwf) as (Hmul & HP & Hk). fold P in Hmul, HP, Hk.
    unfold convert_price_value. rewrite Hmul. clear Hmul.
    unfold round_scaled. pose proof (round_exp_ge P) as Hn.
    set (n := round_exp P) in *. set (k := rne P n) in *.
    pose proof (pow2_pos n ltac:(lia)) as HK.
    unfold round_result.
    destruct (Z.eqb_spec k 0) as [K0|K0].
    { rewrite K0. reflexivity. }
    assert (Hbig : 2084 < n → 2 ^ 52 <= k).
    { intros Hgt. destruct P as [|p|p]; try lia.
      assert (Hd : n = Zdigits2 (Z.pos p) - 53) by (unfold n, round_exp in *; lia).
      pose proof (Zdigits2_bounds p) as [Plo Phi].
      pose proof (rne_bounds (Z.pos p) n ltac:(lia) ltac:(lia)) as [Hl _]. fold k in Hl.
      assert (2 ^ 52 <= Z.pos p / 2 ^ n).
      { apply Z.div_le_lower_bound; [lia|]. rewrite <- Z.pow_add_r by lia.
        replace (n + 52) with (Zdigits2 (Z.pos p) - 1) by lia. exact Plo. }
      lia. }
    destruct (Z.ltb_spec k (2 ^ 53)) as [K1|K1].
    + destruct (Z.leb_spec (n - 1113) 971) as [C|C].
      * assert (Hlt : k * 2 ^ n < 2 ^ 2137).
        { assert (2 ^ n <= 2 ^ 2084) by (apply Z.pow_le_mono_r; lia).
          change (2 ^ 2137) with (2 ^ 53 * 2 ^ 2084). nia. }
        apply Z.ltb_lt in Hlt. rewrite Hlt. cbn [int_of_float cond_Zopp].
        rewrite Z2Pos.id by lia. f_equal. apply shiftl_scaled; lia.
      * assert (Hge : 2 ^ 2137 <= k * 2 ^ n).
        { assert (2 ^ 2085 <= 2 ^ n) by (apply Z.pow_le_mono_r; lia).
          specialize (Hbig ltac:(lia)).
          change (2 ^ 2137) with (2 ^ 52 * 2 ^ 2085). nia. }
        apply Z.ltb_ge in Hge. rewrite Hge. reflexivity.
    + assert (Ek : k = 2 ^ 53) by lia. rewrite Ek.
      destruct (Z.leb_spec (n - 1113 + 1) 971) as [C|C].
      * assert (Hlt : 2 ^ 53 * 2 ^ n < 2 ^ 2137).
        { assert (2 ^ n <= 2 ^ 2083) by (apply Z.pow_le_mono_r; lia).
          change (2 ^ 2137) with (2 ^ 53 * 2 ^ 2084).
          assert (2 ^ 2083 < 2 ^ 2084) by (apply Z.pow_lt_mono_r; lia). nia. }
        apply Z.ltb_lt in Hlt. rewrite Hlt. cbn [int_of_float cond_Zopp].
        rewrite Z2Pos.id by (vm_compute; reflexivity). f_equal.
        rewrite <- (shiftl_scaled (2 ^ 53) n 1113) by lia.
        change (2 ^ 53) with (Z.shiftl (2 ^ 52) 1).
        rewrite Z.shiftl_shiftl by lia. f_equal. lia.
      * assert (Hge : 2 ^ 2137 <= 2 ^ 53 * 2 ^ n).
        { assert (2 ^ 2084 <= 2 ^ n) by (apply Z.pow_le_mono_r; lia).
          change (2 ^ 2137) with (2 ^ 53 * 2 ^ 2084). nia. }
        apply Z.ltb_ge in Hge. rewrite Hge. reflexivity.
Qed.

(** ** Comparison and the range of the conversion *)

Lemma scaled_nonneg x : 0 <= Float.scaled x.
Proof.
  destruct x as [s|s| |[|] m e]; simpl; try lia.
  apply Z.shiftl_nonneg. lia.
Qed.

Lemma scaled_pos (m : positive) (e : Z) :
  -1074 <= e → 0 < Float.scaled (S754_finite false m e).
Proof.
  intros. rewrite scaled_finite by assumption.
  pose proof (pow2_pos (e + 1074) ltac:(lia)). lia.
Qed.

Lemma scaled_lt_exp (m1 m2 : positive) (e1 e2 : Z) :
  bounded 53 1024 m1 e1 = true → bounded 53 1024 m2 e2 = true → e1 < e2 →
  Float.scaled (S754_finite false m1 e1) < Float.scaled (S754_finite false m2 e2).
Proof.
  intros H1 H2 Hlt.
  destruct (bounded_inv m1 e1 H1) as (He1 & Hd1 & _).
  destruct (bounded_inv m2 e2 H2) as (He2 & _ & Hn2).
  rewrite !scaled_finite by lia.
  pose proof (Zdigits2_bounds m1) as [_ Hhi]. pose proof (Zdigits2_bounds m2) as [Hlo _].
  rewrite Hn2 in Hlo by lia.
  assert (Z.pos m1 < 2 ^ 53).
  { eapply Z.lt_le_trans; [exact Hhi|]. apply Z.pow_le_mono_r; lia. }
  pose proof (pow2_pos (e1 + 1074) ltac:(lia)).
  replace (e2 + 1074) with ((e2 - e1 - 1) + 1 + (e1 + 1074)) by lia.
  rewrite (Z.pow_add_r 2 (e2 - e1 - 1 + 1) (e1 + 1074)) by lia.
  rewrite (Z.pow_add_r 2 (e2 - e1 - 1) 1) by lia.
  pose proof (pow2_pos (e2 - e1 - 1) ltac:(lia)).
  change (2 ^ (53 - 1)) with 4503599627370496 in Hlo.
  change (2 ^ 53) with 9007199254740992 in *. change (2 ^ 1) with 2.
  set (A := 2 ^ (e1 + 1074)) in *. set (B := 2 ^ (e2 - e1 - 1)) in *.
  apply Z.lt_le_trans with (2 * Z.pos m2 * A).
  - apply Z.mul_lt_mono_pos_r; lia.
  - rewrite Z.mul_assoc. apply Z.mul_le_mono_nonneg_r; [lia|]. nia.
Qed.

(** On well-formed non-negative floats the comparison of [SpecFloat] is
    the comparison of the scaled values. *)
Lemma SFcompare_scaled (x y : spec_float) :
  Float.well_formed x → Float.well_formed y →
  Float.is_nonneg x = true → Float.is_nonneg y = true →
  SFcompare x y = Some (Float.scaled x ?= Float.scaled y).
Proof.
  unfold Float.well_formed.
  destruct x as [sx|sx| |[|] mx ex]; try discriminate;
    destruct y as [sy|sy| |[|] my ey]; try discriminate;
    cbn [valid_binary SFcompare]; intros Hx Hy _ _.
  - reflexivity.
  - destruct (bounded_inv my ey Hy) as (He & _).
    pose proof (scaled_pos my ey ltac:(lia)) as Hp.
    change (Float.scaled (S754_zero sx)) with 0.
    destruct (Z.compare_spec 0 (Float.scaled (S754_finite false my ey))); (reflexivity || lia).
  - destruct (bounded_inv mx ex Hx) as (He & _).
    pose proof (scaled_pos mx ex ltac:(lia)) as Hp.
    change (Float.scaled (S754_zero sy)) with 0.
    destruct (Z.compare_spec (Float.scaled (S754_finite false mx ex)) 0); (reflexivity || lia).
  - f_equal. destruct (Z.compare_spec ex ey) as [E|L|G].
    + subst ey. destruct (bounded_inv mx ex Hx) as (He & _).
      rewrite !scaled_finite by lia.
      pose proof (pow2_pos (ex + 1074) ltac:(lia)).
      change (Pos.compare_cont Eq mx my) with (Z.pos mx ?= Z.pos my).
      destruct (Z.compare_spec (Z.pos mx) (Z.pos my)),
        (Z.compare_spec (Z.pos mx * 2 ^ (ex + 1074)) (Z.pos my * 2 ^ (ex + 1074)));
        try reflexivity; nia.
    + symmetry. apply Z.compare_lt_iff. apply scaled_lt_exp; assumption.
    + symmetry. apply Z.compare_gt_iff. apply scaled_lt_exp; assumption.
Qed.

Lemma leb_scaled (x y : spec_float) :
  Float.well_formed x → Float.well_formed y →
  Float.is_nonneg x = true → Float.is_nonneg y = true →
  Float.leb x y = (Float.scaled x <=? Float.scaled y).
Proof.
  intros. unfold Float.leb, SFleb. rewrite SFcompare_scaled by assumption.
  unfold Z.leb. destruct (_ ?= _); reflexivity.
Qed.

(** The conversion is monotone, and it succeeds below any price at which
    it succeeds. *)
Lemma convert_price_value_mono (x y : spec_float) (vy : Z) :
  Float.well_formed x → Float.well_formed y →
  Float.is_nonneg x = true → Float.is_nonneg y = true →
  Float.leb x y = true →
  convert_price_value y = inr vy →
  ∃ vx, convert_price_value x = inr vx ∧ vx <= vy.
Proof.
  intros Wx Wy Nx Ny Hle Hy.
  rewrite leb_scaled in Hle by assumption. apply Z.leb_le in Hle.
  rewrite convert_price_value_scaled in Hy |- * by assumption. cbv zeta in *.
  pose proof (scaled_nonneg x) as Hx0.
  assert (Hmono : round_scaled (Float.scaled x * Z.pos multiplier_mantissa)
                  <= round_scaled (Float.scaled y * Z.pos multiplier_mantissa)).
  { apply round_scaled_mono. split; [lia|]. apply Z.mul_le_mono_nonneg_r; lia. }
  destruct (Z.ltb_spec (round_scaled (Float.scaled y * Z.pos multiplier_mantissa)) (2 ^ 2137))
    as [Cy|Cy]; [|discriminate].
  injection Hy as <-.
  destruct (Z.ltb_spec (round_scaled (Float.scaled x * Z.pos multiplier_mantissa)) (2 ^ 2137))
    as [Cx|Cx]; [|lia].
  eexists. split; [reflexivity|].
  apply Z.div_le_mono; [apply pow2_pos; lia|exact Hmono].
Qed.

Lemma scaled_above_MAX_PRICE (x : spec_float) :
  Float.well_formed x → Float.is_nonneg x = true →
  Float.scaled MAX_PRICE < Float.scaled x →
  Float.scaled (S754_finite false 7378697629483821 958) <= Float.scaled x.
Proof.
  unfold Float.well_formed.
  destruct x as [s|s| |[|] m e]; cbn [valid_binary Float.is_nonneg];
    intros Hb Hn; try discriminate Hn.
  - change (Float.scaled (S754_zero s)) with 0. intros H.
    pose proof (scaled_nonneg MAX_PRICE). lia.
  - destruct (bounded_inv m e Hb) as (He & Hd & _).
    unfold MAX_PRICE. rewrite !scaled_finite by lia.
    change (958 + 1074) with 2032.
    pose proof (Zdigits2_bounds m) as [_ Hhi].
    assert (Hm : Z.pos m < 2 ^ 53).
    { eapply Z.lt_le_trans; [exact Hhi|]. apply Z.pow_le_mono_r; lia. }
    change (2 ^ 53) with 9007199254740992 in Hm.
    pose proof (pow2_pos 2032 ltac:(lia)) as H2032.
    set (U := 2 ^ 2032) in *.
    destruct (Z.le_gt_cases 958 e) as [C|C].
    + replace (e + 1074) with ((e - 958) + 2032) by lia.
      rewrite Z.pow_add_r by lia. fold U.
      pose proof (pow2_pos (e - 958) ltac:(lia)). nia.
    + pose proof (pow2_pos (e + 1074) ltac:(lia)).
      assert (2 * 2 ^ (e + 1074) <= U).
      { subst U. rewrite <- Z.pow_succ_r by lia. apply Z.pow_le_mono_r; lia. }
      intros. nia.
Qed.

Lemma int_of_float_floor (p : spec_float) :
  Float.is_nonneg p = true → int_of_float p = inr (Float.floor p).
Proof. destruct p as [s|s| |[|] m e]; try discriminate; reflexivity. Qed.

Lemma mul_MULTIPLIER_sign (x : spec_float) :
  Float.well_formed x → Float.is_nonneg x = true →
  Float.is_nonneg (Float.mul x (Float.of_int MULTIPLIER)) = true
  ∨ Float.mul x (Float.of_int MULTIPLIER) = S754_infinity false.
Proof.
  unfold Float.well_formed.
  destruct x as [s|s| |[|] m e]; try discriminate; cbn [valid_binary]; intros Hb _.
  - left. reflexivity.
  - destruct (mul_MULTIPLIER_finite m e Hb) as (-> & _).
    unfold round_result.
    repeat match goal with |- context [if ?b then _ else _] => destruct b end; auto.
Qed.

Lemma convert_price_value_range (x : spec_float) :
  Float.well_formed x → Float.is_nonneg x = true →
  (Float.leb x MAX_PRICE = true →
     Float.is_nonneg (Float.mul x (Float.of_int MULTIPLIER)) = true
     ∧ convert_price_value x = inr (Float.floor (Float.mul x (Float.of_int MULTIPLIER))))
  ∧ (Float.leb x MAX_PRICE = false → convert_price_value x = inl OverflowError).
Proof.
  intros Wx Nx.
  assert (Wm : Float.well_formed MAX_PRICE) by reflexivity.
  assert (Nm : Float.is_nonneg MAX_PRICE = true) by reflexivity.
  split; intros Hle.
  - assert (Hm : convert_price_value MAX_PRICE
                 = inr (Float.floor (Float.mul MAX_PRICE (Float.of_int MULTIPLIER))))
      by (vm_compute; reflexivity).
    destruct (convert_price_value_mono x MAX_PRICE _ Wx Wm Nx Nm Hle Hm) as (vx & Hx & _).
    destruct (mul_MULTIPLIER_sign x Wx Nx) as [Hs|Hs].
    + split; [exact Hs|]. unfold convert_price_value. apply int_of_float_floor, Hs.
    + unfold convert_price_value in Hx. rewrite Hs in Hx. discriminate.
  - rewrite leb_scaled in Hle by assumption. apply Z.leb_gt in Hle.
    pose proof (scaled_above_MAX_PRICE x Wx Nx Hle) as Hnext.
    rewrite convert_price_value_scaled by assumption. cbv zeta.
    assert (Hmono : round_scaled (Float.scaled (S754_finite false 7378697629483821 958)
                                   * Z.pos multiplier_mantissa)
                    <= round_scaled (Float.scaled x * Z.pos multiplier_mantissa)).
    { apply round_scaled_mono. split.
      - apply Z.mul_nonneg_nonneg; [apply scaled_nonneg|lia].
      - apply Z.mul_le_mono_nonneg_r; lia. }
    assert (Hover : 2 ^ 2137 <= round_scaled (Float.scaled (S754_finite false 7378697629483821 958)
                                   * Z.pos multiplier_mantissa))
      by (vm_compute; discriminate).
    destruct (Z.ltb_spec (round_scaled (Float.scaled x * Z.pos multiplier_mantissa)) (2 ^ 2137));
      [lia|reflexivity].
Qed.

(** ** Integers as floats *)




(** Above [2^53] the cast to a float rounds: [2^53 + 1] comes back as
    [2^53]. *)
Lemma int_of_float_of_int_rounds :
  int_of_float (Float.of_int (2 ^ 53 + 1)) = inr (2 ^ 53).
Proof. vm_compute. reflexivity. Qed.

(** ** Negative prices *)

Lemma binary_round_aux_opp (s : bool) (m e : Z) (l : location) :
  binary_round_aux Float.prec Float.emax (negb s) m e l
  = SFopp (binary_round_aux Float.prec Float.emax s m e l).
Proof.
  unfold binary_round_aux.
  destruct (shr_fexp _ _ m e l) as [mrs' e'].
  destruct (shr_fexp _ _ _ e' loc_Exact) as [mrs'' e''].
  destruct (shr_m mrs'') as [|p|p]; [reflexivity| |reflexivity].
  destruct (e'' <=? Float.emax - Float.prec); reflexivity.
Qed.

Lemma mul_opp (x y : spec_float) : Float.mul (SFopp x) y = SFopp (Float.mul x y).
Proof.
  unfold Float.mul.
  destruct x as [sx|sx| |sx mx ex], y as [sy|sy| |sy my ey]; cbn [SFopp SFmul];
    try reflexivity; try (destruct sx, sy; reflexivity).
  rewrite <- Bool.negb_xorb_l. apply binary_round_aux_opp.
Qed.

Lemma int_of_float_opp (p : spec_float) :
  int_of_float (SFopp p) = opp_result (int_of_float p).
Proof.
  destruct p as [s|s| |s m e]; try reflexivity.
  cbn [SFopp int_of_float opp_result]. f_equal. destruct s; cbn [negb cond_Zopp]; lia.
Qed.

(** ** Exact products *)

Lemma rne_exact (k n : Z) : 0 <= n → rne (k * 2 ^ n) n = k.
Proof.
  intros Hn. unfold rne. pose proof (pow2_pos n Hn).
  rewrite Z.div_mul, Z.mod_mul by lia. rewrite Z.mul_0_r.
  destruct (Z.compare_spec 0 (2 ^ n)); (reflexivity || lia).
Qed.

Lemma round_scaled_representable (K : Z) :
  0 <= K <= 2 ^ 53 → round_scaled (K * 2 ^ 1113) = K * 2 ^ 1113.
Proof.
  intros [H0 H53]. destruct K as [|p|p]; [reflexivity| |lia].
  unfold round_scaled. set (P := Z.pos p * 2 ^ 1113).
  pose proof (Zdigits2_bounds p) as [Plo Phi].
  assert (Hd : Zdigits2 P = Zdigits2 (Z.pos p) + 1113) by (apply Zdigits2_scale; lia).
  assert (Hpos : 0 < Zdigits2 (Z.pos p)) by (simpl; lia).
  assert (Hn : round_exp P = Zdigits2 (Z.pos p) + 1060) by (unfold round_exp; lia).
  assert (Hle : Zdigits2 (Z.pos p) <= 54).
  { destruct (Z.le_gt_cases (Zdigits2 (Z.pos p)) 54) as [C|C]; [assumption|].
    assert (2 ^ 54 <= 2 ^ (Zdigits2 (Z.pos p) - 1)) by (apply Z.pow_le_mono_r; lia).
    assert (2 ^ 53 < 2 ^ 54) by (apply Z.pow_lt_mono_r; lia). lia. }
  rewrite Hn. set (n := Zdigits2 (Z.pos p) + 1060).
  assert (Hdiv : ∃ j, P = j * 2 ^ n).
  { destruct (Z.le_gt_cases (Zdigits2 (Z.pos p)) 53) as [C|C].
    - exists (Z.pos p * 2 ^ (1113 - n)). subst P.
      rewrite <- Z.mul_assoc, <- Z.pow_add_r by lia. do 2 f_equal. lia.
    - assert (Ed : Zdigits2 (Z.pos p) = 54) by lia.
      rewrite Ed in Plo. change (54 - 1) with 53 in Plo.
      assert (Ep : Z.pos p = 2 ^ 53) by lia.
      exists (2 ^ 52). subst P n. rewrite Ed, Ep. vm_compute. reflexivity. }
  destruct Hdiv as [j Hj]. rewrite Hj, rne_exact by lia. reflexivity.
Qed.

Lemma product_scaled (x : spec_float) :
  Float.scaled x * Z.pos multiplier_mantissa = Float.scaled x * MULTIPLIER * 2 ^ 39.
Proof.
  change (Z.pos multiplier_mantissa) with (MULTIPLIER * 2 ^ 39). ring.
Qed.

Lemma round_scaled_between (P K : Z) :
  0 <= K → K + 1 <= 2 ^ 53 → K * 2 ^ 1113 <= P < (K + 1) * 2 ^ 1113 →
  round_scaled P < 2 ^ 2137 ∧ K <= round_scaled P / 2 ^ 1113 <= K + 1.
Proof.
  intros HK HK1 [Hlo Hhi].
  pose proof (pow2_pos 1113 ltac:(lia)) as HU.
  assert (H1 : round_scaled (K * 2 ^ 1113) <= round_scaled P).
  { apply round_scaled_mono. split; [|assumption]. apply Z.mul_nonneg_nonneg; lia. }
  assert (H2 : round_scaled P <= round_scaled ((K + 1) * 2 ^ 1113)).
  { apply round_scaled_mono. split; [|lia].
    apply Z.le_trans with (K * 2 ^ 1113); [apply Z.mul_nonneg_nonneg; lia|assumption]. }
  rewrite round_scaled_representable in H1, H2 by lia.
  split.
  - apply Z.le_lt_trans with ((K + 1) * 2 ^ 1113); [assumption|].
    apply Z.le_lt_trans with (2 ^ 53 * 2 ^ 1113).
    + apply Z.mul_le_mono_nonneg_r; lia.
    + rewrite <- Z.pow_add_r by lia. apply Z.pow_lt_mono_r; lia.
  - split.
    + apply Z.div_le_lower_bound; lia.
    + apply Z.div_le_upper_bound; lia.
Qed.
(** * Strings and paths *)

(** ** Strings *)

Lemma str_app_assoc (s1 s2 s3 : string) : (s1 +:+ s2) +:+ s3 = s1 +:+ s2 +:+ s3.
Proof.
  induction s1 as [|c s1 IH]; [reflexivity|].
  change ((String c s1 +:+ s2) +:+ s3) with (String c ((s1 +:+ s2) +:+ s3)).
  rewrite IH. reflexivity.
Qed.

Lemma str_forallb_app P s1 s2 :
  str_forallb P (s1 +:+ s2) = str_forallb P s1 && str_forallb P s2.
Proof.
  induction s1 as [|c s1 IH]; [reflexivity|].
  change (String c s1 +:+ s2) with (String c (s1 +:+ s2)).
  cbn [str_forallb]. rewrite IH. apply andb_assoc.
Qed.

Lemma str_forallb_impl (P Q : ascii → bool) s :
  (∀ c, P c = true → Q c = true) → str_forallb P s = true → str_forallb Q s = true.
Proof.
  intros HPQ. induction s as [|c s IH]; [reflexivity|].
  cbn [str_forallb]. intros [H1 H2]%andb_prop.
  rewrite (HPQ c H1), (IH H2). reflexivity.
Qed.

Lemma pretty_N_char_digit x : is_digit (pretty_N_char x) = true.
Proof. unfold pretty_N_char. repeat case_match; reflexivity. Qed.

Lemma pretty_N_go_digits x s :
  str_forallb is_digit s = true → str_forallb is_digit (pretty_N_go x s) = true.
Proof.
  revert s. induction (N.lt_wf_0 x) as [x _ IH]; intros s Hs.
  destruct (decide (x = 0%N)) as [->|Hx].
  - rewrite pretty_N_go_0. exact Hs.
  - rewrite pretty_N_go_step by lia. apply IH.
    + apply N.div_lt; lia.
    + cbn [str_forallb]. rewrite pretty_N_char_digit. exact Hs.
Qed.

Lemma pretty_N_digits (x : N) : str_forallb is_digit (pretty x) = true.
Proof.
  unfold pretty, pretty_N. case_decide; [reflexivity|].
  apply pretty_N_go_digits. reflexivity.
Qed.

Lemma pretty_Z_chars (z : Z) : str_forallb is_int_char (pretty z) = true.
Proof.
  assert (Hd : ∀ p : positive, str_forallb is_int_char (pretty (N.pos p)) = true).
  { intros p. apply str_forallb_impl with (P := is_digit); [|apply pretty_N_digits].
    intros c Hc. unfold is_int_char. rewrite Hc. reflexivity. }
  destruct z as [|p|p]; [reflexivity|apply Hd|].
  change (pretty (Z.neg p)) with ("-" +:+ pretty (N.pos p)).
  rewrite str_forallb_app, Hd. reflexivity.
Qed.

Lemma replicate_zero_chars n :
  str_forallb is_int_char (String.string_of_list_ascii (replicate n "0"%char)) = true.
Proof. induction n as [|n IH]; [reflexivity|]. simpl. exact IH. Qed.

Lemma zfill_chars width s :
  str_forallb is_int_char s = true → str_forallb is_int_char (zfill width s) = true.
Proof.
  intros Hs. unfold zfill. rewrite str_forallb_app, replicate_zero_chars, Hs. reflexivity.
Qed.

Lemma strftime_chars date : str_forallb is_stamp_char (strftime date) = true.
Proof.
  assert (Hz : ∀ (w : nat) (z : Z), str_forallb is_stamp_char (zfill w (pretty z)) = true).
  { intros w z. apply str_forallb_impl with (P := is_int_char).
    - intros c Hc. unfold is_stamp_char. rewrite Hc. reflexivity.
    - apply zfill_chars, pretty_Z_chars. }
  assert (Hy : str_forallb is_stamp_char (pretty (year date)) = true).
  { apply str_forallb_impl with (P := is_int_char); [|apply pretty_Z_chars].
    intros c Hc. unfold is_stamp_char. rewrite Hc. reflexivity. }
  unfold strftime. rewrite !str_forallb_app, !Hz, Hy. reflexivity.
Qed.

Lemma split_on_none sep s :
  str_forallb (differs sep) s = true → split_on sep s = [s].
Proof.
  induction s as [|c s IH]; [reflexivity|].
  cbn [str_forallb split_on]. intros [H1 H2]%andb_prop.
  unfold differs in H1. apply negb_true_iff in H1. rewrite H1, (IH H2). reflexivity.
Qed.

Lemma split_on_app sep s1 s2 :
  str_forallb (differs sep) s1 = true →
  split_on sep (s1 +:+ String sep s2) = s1 :: split_on sep s2.
Proof.
  induction s1 as [|c s1 IH].
  - intros _. change ("" +:+ String sep s2) with (String sep s2).
    cbn [split_on]. rewrite Ascii.eqb_refl. reflexivity.
  - cbn [str_forallb]. intros [H1 H2]%andb_prop.
    change (String c s1 +:+ String sep s2) with (String c (s1 +:+ String sep s2)).
    cbn [split_on]. unfold differs in H1. apply negb_true_iff in H1.
    rewrite H1, (IH H2). reflexivity.
Qed.

Lemma split_on_concat sep (l : string) (ls : list string) :
  Forall (λ s, str_forallb (differs sep) s = true) (l :: ls) →
  split_on sep (String.concat (String sep "") (l :: ls)) = l :: ls.
Proof.
  revert l. induction ls as [|l' ls IH]; intros l Hall.
  - apply split_on_none. apply (Forall_inv Hall).
  - change (String.concat (String sep "") (l :: l' :: ls))
      with (l +:+ String sep "" +:+ String.concat (String sep "") (l' :: ls)).
    change (String sep "" +:+ String.concat (String sep "") (l' :: ls))
      with (String sep (String.concat (String sep "") (l' :: ls))).
    rewrite split_on_app by apply (Forall_inv Hall).
    rewrite IH by apply (Forall_inv_tail Hall). reflexivity.
Qed.

Lemma text_mode_id s : text_mode s = s.
Proof.
  induction s as [|c s IH]; [reflexivity|].
  cbn [text_mode]. rewrite IH.
  destruct (Ascii.eqb_spec c LF) as [->|_]; reflexivity.
Qed.

Lemma endswith_app c s1 s2 :
  s2 ≠ "" → endswith c (s1 +:+ s2) = endswith c s2.
Proof.
  intros Hne. induction s1 as [|a s1 IH]; [reflexivity|].
  change (String a s1 +:+ s2) with (String a (s1 +:+ s2)).
  cbn [endswith]. destruct (s1 +:+ s2) eqn:E.
  - destruct s1; [|discriminate E]. simpl in E. contradiction.
  - exact IH.
Qed.

Lemma path_join2_suffix path b : ∃ p, path_join2 path b = p +:+ b.
Proof.
  unfold path_join2. destruct (startswith "/" b).
  - exists "". reflexivity.
  - destruct (_ || _).
    + exists path. reflexivity.
    + exists (path +:+ "/"). symmetry. apply str_app_assoc.
Qed.

Lemma csv_path_ne_zip_path a b : csv_path a ≠ zip_path b.
Proof.
  unfold csv_path, zip_path, os_path_join. cbn [fold_left].
  destruct (path_join2_suffix output_dir (a +:+ ".csv")) as [p ->].
  destruct (path_join2_suffix output_dir (b +:+ ".zip")) as [q ->].
  intros Heq. apply (f_equal (endswith "v")) in Heq.
  rewrite <- !str_app_assoc in Heq.
  rewrite !endswith_app in Heq by discriminate. discriminate Heq.
Qed.

(** ** Dates *)

Lemma str_length_app s1 s2 :
  String.length (s1 +:+ s2) = (String.length s1 + String.length s2)%nat.
Proof.
  induction s1 as [|c s1 IH]; [reflexivity|].
  change (String c s1 +:+ s2) with (String c (s1 +:+ s2)). simpl. rewrite IH. reflexivity.
Qed.

Lemma pretty_N_go_app x s : pretty_N_go x s = pretty_N_go x "" +:+ s.
Proof.
  revert s. induction (N.lt_wf_0 x) as [x _ IH]; intros s.
  destruct (decide (x = 0%N)) as [->|Hx].
  - rewrite !pretty_N_go_0. reflexivity.
  - rewrite (pretty_N_go_step x s), (pretty_N_go_step x "") by lia.
    assert (Hlt : (x `div` 10 < x)%N) by (apply N.div_lt; lia).
    set (c := pretty_N_char (x `mod` 10)).
    rewrite (IH _ Hlt (String c s)), (IH _ Hlt (String c "")).
    rewrite str_app_assoc. reflexivity.
Qed.

Lemma pretty_N_go_two_digits (a v : N) s :
  (0 < a)%N → (v < 100)%N →
  pretty_N_go (a * 100 + v) s
  = pretty_N_go a (String (pretty_N_char (v `div` 10))
                     (String (pretty_N_char (v `mod` 10)) s)).
Proof.
  intros Ha Hv.
  rewrite pretty_N_go_step by lia.
  assert (E1 : ((a * 100 + v) `div` 10 = a * 10 + v `div` 10)%N).
  { replace (a * 100 + v)%N with (v + (a * 10) * 10)%N by lia.
    rewrite N.div_add by lia. apply N.add_comm. }
  assert (E2 : ((a * 100 + v) `mod` 10 = v `mod` 10)%N).
  { replace (a * 100 + v)%N with (v + (a * 10) * 10)%N by lia.
    apply N.Div0.mod_add. }
  rewrite E1, E2.
  rewrite pretty_N_go_step by (apply N.add_pos_l; lia).
  assert (Hq : (v `div` 10 < 10)%N) by (apply N.Div0.div_lt_upper_bound; lia).
  assert (E3 : ((a * 10 + v `div` 10) `div` 10 = a)%N).
  { replace (a * 10 + v `div` 10)%N with (v `div` 10 + a * 10)%N by lia.
    rewrite N.div_add by lia. rewrite (N.div_small (v `div` 10)) by exact Hq.
    apply N.add_0_l. }
  assert (E4 : ((a * 10 + v `div` 10) `mod` 10 = v `div` 10)%N).
  { replace (a * 10 + v `div` 10)%N with (v `div` 10 + a * 10)%N by lia.
    rewrite N.Div0.mod_add. apply N.mod_small. exact Hq. }
  rewrite E3, E4. reflexivity.
Qed.

Lemma zfill_two_digits (v : N) :
  (v < 100)%N →
  zfill 2 (pretty v)
  = String (pretty_N_char (v `div` 10)) (String (pretty_N_char (v `mod` 10)) "").
Proof.
  intros Hv.
  assert (Hall : forallb (λ n, String.eqb (zfill 2 (pretty (N.of_nat n)))
                   (String (pretty_N_char (N.of_nat n `div` 10))
                      (String (pretty_N_char (N.of_nat n `mod` 10)) "")))
                   (seq 0 100) = true) by (vm_compute; reflexivity).
  rewrite forallb_forall in Hall.
  specialize (Hall (N.to_nat v)). rewrite N2Nat.id in Hall.
  apply String.eqb_eq, Hall. apply in_seq. lia.
Qed.

Lemma pretty_Z_pos (z : Z) : 0 < z → pretty z = pretty (Z.to_N z).
Proof. destruct z; (lia || reflexivity). Qed.

Lemma pretty_N_pos (x : N) : (0 < x)%N → pretty x = pretty_N_go x "".
Proof. intros. unfold pretty, pretty_N. case_decide; [lia|reflexivity]. Qed.

Lemma pretty_date_digits (yn mn dn : N) :
  (0 < yn)%N → (mn < 100)%N → (dn < 100)%N →
  pretty ((yn * 100 + mn) * 100 + dn)%N
  = pretty yn +:+ zfill 2 (pretty mn) +:+ zfill 2 (pretty dn).
Proof.
  intros Hy Hm Hd.
  rewrite (pretty_N_pos ((yn * 100 + mn) * 100 + dn)) by lia.
  rewrite pretty_N_go_two_digits by lia.
  rewrite pretty_N_go_two_digits by lia.
  rewrite pretty_N_go_app, <- pretty_N_pos by lia.
  rewrite (zfill_two_digits mn Hm), (zfill_two_digits dn Hd). reflexivity.
Qed.

Lemma valid_date_inv (date : Timestamp) :
  valid_date date = true →
  1 <= year date <= 9999 ∧ 1 <= month date <= 12 ∧ 1 <= day date <= 31.
Proof.
  unfold valid_date. intros H. split_andb H.
  repeat match goal with
         | H : (_ <=? _) = true |- _ => apply Z.leb_le in H
         end.
  lia.
Qed.

(** The timestamp is the decimal number [year * 10000 + month * 100 + day]
    followed by [" 00:00"]. *)
Lemma strftime_digits (date : Timestamp) :
  valid_date date = true →
  strftime date
  = pretty (year date * 10000 + month date * 100 + day date) +:+ " 00:00".
Proof.
  intros (Hy & Hm & Hd)%valid_date_inv. unfold strftime.
  rewrite !pretty_Z_pos by lia.
  replace (Z.to_N (year date * 10000 + month date * 100 + day date))
    with ((Z.to_N (year date) * 100 + Z.to_N (month date)) * 100 + Z.to_N (day date))%N by lia.
  rewrite pretty_date_digits by lia.
  rewrite !str_app_assoc. reflexivity.
Qed.

Lemma pretty_year_length (y : N) :
  (1000 <= y < 10000)%N → String.length (pretty y) = 4%nat.
Proof.
  intros Hy.
  assert (Hall : forallb (λ n, (String.length (pretty (N.of_nat n + 1000)%N) =? 4)%nat)
                   (seq 0 (N.to_nat 9000)) = true) by (vm_compute; reflexivity).
  rewrite forallb_forall in Hall.
  specialize (Hall (N.to_nat (y - 1000))). rewrite N2Nat.id in Hall.
  replace (y - 1000 + 1000)%N with y in Hall by lia.
  apply Nat.eqb_eq, Hall. apply in_seq. lia.
Qed.

Lemma zfill_2_length (v : N) :
  (v < 100)%N → String.length (zfill 2 (pretty v)) = 2%nat.
Proof. intros Hv. rewrite zfill_two_digits by assumption. reflexivity. Qed.

Lemma strftime_length (date : Timestamp) :
  valid_date date = true →
  String.length (strftime date)
  = (String.length (pretty (year date)) + 10)%nat.
Proof.
  intros (Hy & Hm & Hd)%valid_date_inv. unfold strftime.
  rewrite !str_length_app.
  rewrite (pretty_Z_pos (month date)), (pretty_Z_pos (day date)) by lia.
  rewrite !zfill_2_length by lia. reflexivity.
Qed.

Lemma yyyymmdd_pretty (date : Timestamp) :
  valid_date date = true → 1000 <= year date →
  yyyymmdd date = pretty (year date * 10000 + month date * 100 + day date).
Proof.
  intros Hdate H1000. pose proof Hdate as (Hy & Hm & Hd)%valid_date_inv.
  pose proof (strftime_length date Hdate) as Hlen.
  rewrite (strftime_digits date Hdate), str_length_app in Hlen.
  rewrite (pretty_Z_pos (year date)), pretty_year_length in Hlen by lia.
  cbn [String.length] in Hlen.
  unfold yyyymmdd, zfill.
  set (s := pretty (year date * 10000 + month date * 100 + day date)) in *.
  replace (8 - String.length s)%nat with 0%nat by lia.
  reflexivity.
Qed.

(** For a year of four digits the timestamp is the eight digits YYYYMMDD
    followed by [" 00:00"]. *)
Lemma strftime_yyyymmdd (date : Timestamp) :
  valid_date date = true → 1000 <= year date →
  strftime date = yyyymmdd date +:+ " 00:00".
Proof.
  intros Hdate H1000.
  rewrite (yyyymmdd_pretty date Hdate H1000). apply strftime_digits, Hdate.
Qed.

(** ** Rows and lines *)

Lemma format_row_inv (date : Timestamp) (row : Row) (line : string) :
  format_row date row = inr line →
  ∃ open_i high_i low_i close_i volume_i,
    convert_price_value (Open row) = inr open_i
    ∧ convert_price_value (High row) = inr high_i
    ∧ convert_price_value (Low row) = inr low_i
    ∧ convert_price_value (Close row) = inr close_i
    ∧ int_of_float (Volume row) = inr volume_i
    ∧ line = String.concat ","
               [strftime date; pretty open_i; pretty high_i; pretty low_i;
                pretty close_i; pretty volume_i].
Proof.
  unfold format_row.
  destruct (convert_price_value (Open row)) as [?|o]; [discriminate|].
  destruct (convert_price_value (High row)) as [?|h]; [discriminate|].
  destruct (convert_price_value (Low row)) as [?|l]; [discriminate|].
  destruct (convert_price_value (Close row)) as [?|c]; [discriminate|].
  destruct (int_of_float (Volume row)) as [?|v]; [discriminate|].
  intros [= <-]. exists o, h, l, c, v. repeat split; reflexivity.
Qed.

Lemma format_row_intro (date : Timestamp) (row : Row) (o h l c : Z) :
  convert_price_value (Open row) = inr o →
  convert_price_value (High row) = inr h →
  convert_price_value (Low row) = inr l →
  convert_price_value (Close row) = inr c →
  format_row date row = line_of date o h l c (int_of_float (Volume row)).
Proof.
  intros Ho Hh Hl Hc. unfold format_row, line_of. rewrite Ho, Hh, Hl, Hc.
  destruct (int_of_float (Volume row)); reflexivity.
Qed.

Lemma int_of_float_nonneg (x : spec_float) :
  Float.is_nonneg x = true → ∃ v, int_of_float x = inr v.
Proof. destruct x as [s|s| |[] m e]; try discriminate; intros _; eexists; reflexivity. Qed.

Lemma int_char_not_comma c : is_int_char c = true → differs "," c = true.
Proof.
  intros H. unfold differs. destruct (Ascii.eqb_spec c ","); [subst; discriminate|reflexivity].
Qed.

Lemma stamp_char_not_comma c : is_stamp_char c = true → differs "," c = true.
Proof.
  intros H. unfold differs. destruct (Ascii.eqb_spec c ","); [subst; discriminate|reflexivity].
Qed.

Lemma line_char_not_LF c : is_line_char c = true → differs LF c = true.
Proof.
  intros H. unfold differs. destruct (Ascii.eqb_spec c LF); [subst; discriminate|reflexivity].
Qed.

Lemma pretty_no_comma (z : Z) : str_forallb (differs ",") (pretty z) = true.
Proof. eapply str_forallb_impl; [apply int_char_not_comma|apply pretty_Z_chars]. Qed.

Lemma strftime_no_comma date : str_forallb (differs ",") (strftime date) = true.
Proof. eapply str_forallb_impl; [apply stamp_char_not_comma|apply strftime_chars]. Qed.

Lemma line_fields_split (date : Timestamp) (o h l c v : Z) :
  split_on "," (String.concat ","
                  [strftime date; pretty o; pretty h; pretty l; pretty c; pretty v])
  = [strftime date; pretty o; pretty h; pretty l; pretty c; pretty v].
Proof.
  apply (split_on_concat ","%char).
  repeat (apply Forall_cons; split; [first [apply strftime_no_comma|apply pretty_no_comma]|]).
  apply Forall_nil_2.
Qed.

Lemma line_chars (date : Timestamp) (o h l c v : Z) :
  str_forallb is_line_char
    (String.concat "," [strftime date; pretty o; pretty h; pretty l; pretty c; pretty v])
  = true.
Proof.
  assert (Hp : ∀ z : Z, str_forallb is_line_char (pretty z) = true).
  { intros z. apply str_forallb_impl with (P := is_int_char); [|apply pretty_Z_chars].
    intros a Ha. unfold is_line_char, is_stamp_char. rewrite Ha. reflexivity. }
  assert (Hs : str_forallb is_line_char (strftime date) = true).
  { apply str_forallb_impl with (P := is_stamp_char); [|apply strftime_chars].
    intros a Ha. unfold is_line_char. rewrite Ha. reflexivity. }
  cbn [String.concat]. rewrite !str_forallb_app, Hs, !Hp. reflexivity.
Qed.

Lemma format_row_no_LF (date : Timestamp) (row : Row) (line : string) :
  format_row date row = inr line → str_forallb (differs LF) line = true.
Proof.
  intros (o & h & l & c & v & _ & _ & _ & _ & _ & ->)%format_row_inv.
  eapply str_forallb_impl; [apply line_char_not_LF|apply line_chars].
Qed.

(** The loop is a map over the rows, in order. *)
Lemma format_rows_spec (data : DataFrame) (acc lines : list string) :
  format_rows data acc = inr lines →
  ∃ new, lines = acc ++ new
         ∧ Forall2 (λ dr line, format_row dr.1 dr.2 = inr line) data new.
Proof.
  revert acc. induction data as [|[date row] rest IH]; intros acc; cbn [format_rows].
  - intros [= <-]. exists []. split; [symmetry; apply app_nil_r|constructor].
  - destruct (format_row date row) as [e|line] eqn:Hrow; [discriminate|].
    intros (new & -> & Hall)%IH. exists (line :: new). split.
    + rewrite <- app_assoc. reflexivity.
    + constructor; [exact Hrow|exact Hall].
Qed.

Lemma format_rows_complete (data : DataFrame) (acc new : list string) :
  Forall2 (λ dr line, format_row dr.1 dr.2 = inr line) data new →
  format_rows data acc = inr (acc ++ new).
Proof.
  intros Hall. revert acc. induction Hall as [|[date row] line rest new Hrow _ IH]; intros acc.
  - cbn [format_rows]. rewrite app_nil_r. reflexivity.
  - cbn [format_rows]. cbn [fst snd] in Hrow. rewrite Hrow, IH, <- app_assoc. reflexivity.
Qed.

Lemma format_rows_lines (data : DataFrame) (lines : list string) :
  format_rows data [] = inr lines →
  Forall2 (λ dr line, format_row dr.1 dr.2 = inr line) data lines.
Proof. intros (new & -> & Hall)%format_rows_spec. exact Hall. Qed.

Lemma lines_split (data : DataFrame) (lines : list string) :
  data ≠ [] → format_rows data [] = inr lines →
  split_on LF (String.concat newline lines) = lines.
Proof.
  intros Hne Hall%format_rows_lines.
  destruct Hall as [|[date row] line rest new Hrow Hall]; [contradiction|].
  apply (split_on_concat LF). constructor.
  - apply (format_row_no_LF _ _ _ Hrow).
  - clear Hrow Hne. induction Hall as [|[d r] l ? ? Hr _ IH]; constructor.
    + apply (format_row_no_LF _ _ _ Hr).
    + exact IH.
Qed.

(** * The file system *)

(** ** Paths as lists of components *)

Lemma split_on_app_tail (c : ascii) (a b : string) :
  str_forallb (differs c) b = true →
  ∃ init l, split_on c a = init ++ [l] ∧ split_on c (a +:+ b) = init ++ [l +:+ b].
Proof.
  intros Hb. induction a as [|x a IH].
  - exists [], "". split; [reflexivity|]. apply split_on_none, Hb.
  - destruct IH as (init & l & E1 & E2).
    change (String x a +:+ b) with (String x (a +:+ b)). cbn [split_on].
    rewrite E1, E2. destruct (Ascii.eqb x c).
    + exists ("" :: init), l. split; reflexivity.
    + destruct init as [|i init].
      * exists [], (String x l). split; reflexivity.
      * exists (String x i :: init), l. split; reflexivity.
Qed.

Lemma last_snoc (init : list string) (l : string) : List.last (init ++ [l]) "" = l.
Proof. apply last_last. Qed.

Lemma removelast_snoc (init : list string) (l : string) : removelast (init ++ [l]) = init.
Proof. apply removelast_last. Qed.

Lemma str_contains_app (c : ascii) (a b : string) :
  str_contains c (a +:+ b) = str_contains c a || str_contains c b.
Proof.
  induction a as [|x a IH]; [reflexivity|].
  change (String x a +:+ b) with (String x (a +:+ b)). cbn [str_contains].
  rewrite IH. apply orb_assoc.
Qed.

Lemma str_contains_differs (c : ascii) (s : string) :
  str_contains c s = negb (str_forallb (differs c) s).
Proof.
  induction s as [|x s IH]; [reflexivity|].
  cbn [str_contains str_forallb]. rewrite IH. unfold differs.
  destruct (Ascii.eqb x c); reflexivity.
Qed.

Lemma before_id (c : ascii) (s : string) : str_contains c s = false → before c s = s.
Proof.
  induction s as [|x s IH]; [reflexivity|].
  cbn [str_contains before]. intros [H1 H2]%orb_false_elim.
  rewrite H1, (IH H2). reflexivity.
Qed.

Lemma startswith_app (c : ascii) (a b : string) :
  startswith c b = false → startswith c (a +:+ b) = startswith c a.
Proof. intros Hb. destruct a; [exact Hb|reflexivity]. Qed.

Lemma step_name (cur : node) (name : string) :
  (3 <= String.length name)%nat → step cur name = cur ++ [name].
Proof.
  intros Hlen. destruct name as [|a [|b [|c name]]]; cbn in Hlen; try lia.
  unfold step.
  rewrite (proj2 (String.eqb_neq _ "")), (proj2 (String.eqb_neq _ ".")),
    (proj2 (String.eqb_neq _ "..")) by discriminate.
  reflexivity.
Qed.

(** ** Where the staging file and the archive go *)

Lemma output_dir_value : output_dir = "C:\GitRepo\Finance\LeanFork\Data/equity/usa/daily".
Proof. reflexivity. Qed.

Lemma split_on_snoc (c : ascii) (a : string) : ∃ init l, split_on c a = init ++ [l].
Proof.
  destruct (split_on_app_tail c a "" eq_refl) as (init & l & E & _). eauto.
Qed.

Lemma split_on_app_snoc (c : ascii) (a b : string) (init : list string) (l : string) :
  split_on c a = init ++ [l] → str_forallb (differs c) b = true →
  split_on c (a +:+ b) = init ++ [l +:+ b].
Proof.
  intros E Hb. destruct (split_on_app_tail c a b Hb) as (init' & l' & E1 & E2).
  rewrite E in E1. apply app_inj_tail in E1 as [-> ->]. exact E2.
Qed.

Lemma path_join2_output_dir (b : string) :
  path_join2 output_dir b = if startswith "/" b then b else output_dir +:+ "/" +:+ b.
Proof. reflexivity. Qed.

Lemma csv_path_stem (symbol_lower : string) :
  csv_path symbol_lower = path_stem symbol_lower +:+ ".csv".
Proof.
  unfold csv_path, os_path_join, path_stem. cbn [fold_left].
  rewrite path_join2_output_dir, startswith_app by reflexivity.
  destruct (startswith "/" symbol_lower); [reflexivity|].
  rewrite !str_app_assoc. reflexivity.
Qed.

Lemma zip_path_stem (symbol_lower : string) :
  zip_path symbol_lower = path_stem symbol_lower +:+ ".zip".
Proof.
  unfold zip_path, os_path_join, path_stem. cbn [fold_left].
  rewrite path_join2_output_dir, startswith_app by reflexivity.
  destruct (startswith "/" symbol_lower); [reflexivity|].
  rewrite !str_app_assoc. reflexivity.
Qed.

(** ** Worlds that agree *)

Lemma World_eta (w : World) : w = mkWorld (cwd w) (files w) (dirs w) (stdout w).
Proof. destruct w; reflexivity. Qed.

Lemma is_dir_same (w w' : World) (n : node) :
  cwd w = cwd w' → dirs w = dirs w' → is_dir w n = is_dir w' n.
Proof. intros Hc Hd. unfold is_dir. rewrite Hc, Hd. reflexivity. Qed.

Lemma walk_same_tree (w w' : World) (cur : node) (comps : list string) :
  cwd w = cwd w' → files w = files w' → dirs w = dirs w' →
  walk w cur comps = walk w' cur comps.
Proof.
  intros Hc Hf Hd. revert cur. induction comps as [|comp rest IH]; intros cur; [reflexivity|].
  cbn [walk]. rewrite (is_dir_same w w') by assumption. rewrite IH, Hf. reflexivity.
Qed.

Lemma walk_same_dirs (w w' : World) (cur n : node) (comps : list string) :
  cwd w = cwd w' → dirs w = dirs w' →
  walk w cur comps = inr n → walk w' cur comps = inr n.
Proof.
  intros Hc Hd. revert cur. induction comps as [|comp rest IH]; intros cur; [exact id|].
  cbn [walk]. rewrite (is_dir_same w w') by assumption.
  destruct (is_dir w' (step cur comp)); [apply IH|].
  destruct (files w !! step cur comp); discriminate.
Qed.

Lemma walk_fold (w : World) (cur n : node) (comps : list string) :
  walk w cur comps = inr n → n = fold_left step comps cur.
Proof.
  revert cur. induction comps as [|comp rest IH]; intros cur; cbn [walk fold_left].
  - intros [= <-]. reflexivity.
  - destruct (is_dir w (step cur comp)); [apply IH|].
    destruct (files w !! step cur comp); discriminate.
Qed.

Lemma walk_nodes (w : World) (cur : node) (comps : list string) :
  Forall (λ n, is_dir w n = true) (path_nodes cur comps) →
  walk w cur comps = inr (fold_left step comps cur).
Proof.
  revert cur. induction comps as [|comp rest IH]; intros cur; cbn [walk fold_left path_nodes].
  - reflexivity.
  - intros [H1 H2]%Forall_cons. rewrite H1. apply IH, H2.
Qed.

(** ** Opening the staging file and the archive *)

Lemma ext_name (l ext : string) :
  ext = ".csv" ∨ ext = ".zip" →
  (3 <= String.length (l +:+ ext))%nat
  ∧ str_forallb (differs "/") ext = true
  ∧ str_contains NUL ext = false
  ∧ startswith "/" ext = false
  ∧ ext ≠ "".
Proof.
  intros [-> | ->]; rewrite str_length_app; cbn [String.length];
    (split; [lia|repeat split; discriminate]).
Qed.

Lemma str_app_not_empty (a b : string) : b ≠ "" → a +:+ b ≠ "".
Proof. intros Hb. destruct a; [exact Hb|discriminate]. Qed.

Lemma locate_target (w : World) (a ext : string) (init : list string) (l : string) :
  ext = ".csv" ∨ ext = ".zip" →
  split_on "/" a = init ++ [l] →
  locate w (a +:+ ext)
  = if str_contains NUL a then inl ValueError
    else match walk w (start w a) init with
         | inl e => inl e
         | inr dir => inr (dir ++ [l +:+ ext])
         end.
Proof.
  intros Hext Hsplit. destruct (ext_name l ext Hext) as (Hlen & Hsl & Hnul & Hst & Hne).
  unfold locate, check_path, start.
  rewrite str_contains_app, Hnul, orb_false_r.
  destruct (str_contains NUL a); [reflexivity|].
  rewrite (proj2 (String.eqb_neq _ "")) by (apply str_app_not_empty, Hne).
  rewrite (split_on_app_snoc _ _ _ _ _ Hsplit Hsl), removelast_snoc, last_snoc.
  rewrite startswith_app by exact Hst.
  destruct (walk w _ init) as [e|dir]; [reflexivity|].
  rewrite step_name by exact Hlen. reflexivity.
Qed.

Lemma open_w_target (w : World) (a ext : string) (init : list string) (l : string) :
  ext = ".csv" ∨ ext = ".zip" →
  split_on "/" a = init ++ [l] →
  open_w w (a +:+ ext)
  = if str_contains NUL a then inl ValueError
    else match walk w (start w a) init with
         | inl e => inl e
         | inr dir =>
             if is_dir w (dir ++ [l +:+ ext]) then inl IsADirectoryError
             else inr (dir ++ [l +:+ ext])
         end.
Proof.
  intros Hext Hsplit. destruct (ext_name l ext Hext) as (Hlen & Hsl & Hnul & Hst & Hne).
  unfold open_w. rewrite endswith_app by exact Hne.
  replace (endswith "/" ext) with false by (destruct Hext as [-> | ->]; reflexivity).
  rewrite (locate_target w a ext init l Hext Hsplit).
  destruct (str_contains NUL a); [reflexivity|].
  destruct (walk w _ init) as [e|dir]; [reflexivity|].
  rewrite (split_on_app_snoc _ _ _ _ _ Hsplit Hsl), last_snoc.
  assert (N1 : l +:+ ext ≠ ".").
  { intros H. apply (f_equal String.length) in H. cbn in H. lia. }
  assert (N2 : l +:+ ext ≠ "..").
  { intros H. apply (f_equal String.length) in H. cbn in H. lia. }
  rewrite (proj2 (String.eqb_neq _ _) N1), (proj2 (String.eqb_neq _ _) N2).
  reflexivity.
Qed.

Lemma target_nodes_differ (dir : node) (l : string) :
  dir ++ [l +:+ ".csv"] ≠ dir ++ [l +:+ ".zip"].
Proof.
  intros H. apply app_inv_head in H. injection H as H.
  apply (f_equal (endswith "v")) in H.
  rewrite !endswith_app in H by discriminate. discriminate H.
Qed.

(** ** [os.makedirs] *)

Lemma makedirs_from_frame (w : World) (cur : node) (comps : list string) :
  let r := makedirs_from w cur comps in
  cwd r.2 = cwd w ∧ files r.2 = files w ∧ stdout r.2 = stdout w
  ∧ dirs w ⊆ dirs r.2
  ∧ ∀ n, n ∈ dirs r.2 → n ∈ dirs w ∨ n ∈ path_nodes cur comps.
Proof.
  revert w cur. induction comps as [|comp rest IH]; intros w cur; cbn [makedirs_from path_nodes].
  - cbn. repeat split; [reflexivity|]. intros n Hn. left. exact Hn.
  - cbv zeta. destruct (is_dir w (step cur comp)).
    + destruct (IH w (step cur comp)) as (Hc & Hf & Hs & Hsub & Hnew).
      repeat (split; [assumption|]). intros n Hn.
      destruct (Hnew n Hn) as [?|?]; [left; assumption|right; apply elem_of_cons; right; assumption].
    + destruct (files w !! step cur comp).
      * cbn. repeat split; [reflexivity|]. intros n Hn. left. exact Hn.
      * destruct (IH (mkdir w (step cur comp)) (step cur comp)) as (Hc & Hf & Hs & Hsub & Hnew).
        cbn [mkdir cwd files dirs stdout] in *.
        repeat (split; [assumption|]).
        split; [etrans; [apply union_subseteq_r|exact Hsub]|].
        intros n Hn. destruct (Hnew n Hn) as [Hin|Hin].
        -- apply elem_of_union in Hin as [Hin|Hin]; [|left; exact Hin].
           apply elem_of_singleton in Hin. subst n. right. apply elem_of_cons. left. reflexivity.
        -- right. apply elem_of_cons. right. exact Hin.
Qed.

Lemma makedirs_from_stdout (w : World) (out : list string) (cur : node) (comps : list string) :
  makedirs_from (mkWorld (cwd w) (files w) (dirs w) out) cur comps
  = ((makedirs_from w cur comps).1,
     mkWorld (cwd w) (files w) (dirs (makedirs_from w cur comps).2) out).
Proof.
  revert w cur. induction comps as [|comp rest IH]; intros w cur; cbn [makedirs_from].
  - reflexivity.
  - cbv zeta.
    change (is_dir (mkWorld (cwd w) (files w) (dirs w) out) (step cur comp))
      with (is_dir w (step cur comp)).
    cbn [files]. destruct (is_dir w (step cur comp)); [apply IH|].
    destruct (files w !! step cur comp); [reflexivity|].
    change (mkdir (mkWorld (cwd w) (files w) (dirs w) out) (step cur comp))
      with (mkWorld (cwd (mkdir w (step cur comp))) (files (mkdir w (step cur comp)))
              (dirs (mkdir w (step cur comp))) out).
    rewrite IH. reflexivity.
Qed.

Lemma is_dir_mono (w w' : World) (n : node) :
  cwd w = cwd w' → dirs w ⊆ dirs w' → is_dir w n = true → is_dir w' n = true.
Proof.
  intros Hc Hd. unfold is_dir. rewrite Hc.
  intros [H|H]%orb_prop; apply orb_true_intro; [left; exact H|right].
  apply bool_decide_eq_true. apply bool_decide_eq_true in H. set_solver.
Qed.

(** After a call that succeeded every directory on the way exists. *)
Lemma makedirs_from_dirs (w w' : World) (cur : node) (comps : list string) :
  makedirs_from w cur comps = (inr tt, w') →
  Forall (λ n, is_dir w' n = true) (path_nodes cur comps).
Proof.
  revert w cur. induction comps as [|comp rest IH]; intros w cur; cbn [makedirs_from path_nodes].
  - intros _. constructor.
  - cbv zeta. destruct (is_dir w (step cur comp)) eqn:Hdir.
    + intros Hrun. constructor; [|exact (IH _ _ Hrun)].
      pose proof (makedirs_from_frame w (step cur comp) rest) as (Hc & _ & _ & Hsub & _).
      rewrite Hrun in Hc, Hsub. cbn [snd] in Hc, Hsub.
      apply (is_dir_mono w w'); [symmetry; exact Hc|exact Hsub|exact Hdir].
    + destruct (files w !! step cur comp); [discriminate|].
      intros Hrun. constructor; [|exact (IH _ _ Hrun)].
      pose proof (makedirs_from_frame (mkdir w (step cur comp)) (step cur comp) rest)
        as (_ & _ & _ & Hsub & _).
      rewrite Hrun in Hsub. cbn [snd mkdir dirs] in Hsub.
      unfold is_dir. apply orb_true_intro. right. apply bool_decide_eq_true. set_solver.
Qed.

(** A call succeeds when no regular file is where a directory has to be. *)
Lemma makedirs_from_ok (w : World) (cur : node) (comps : list string) :
  Forall (λ n, is_dir w n = true ∨ files w !! n = None) (path_nodes cur comps) →
  (makedirs_from w cur comps).1 = inr tt.
Proof.
  revert w cur. induction comps as [|comp rest IH]; intros w cur; cbn [makedirs_from path_nodes].
  - reflexivity.
  - cbv zeta. intros [H1 H2]%Forall_cons.
    destruct (is_dir w (step cur comp)) eqn:Hdir; [apply IH, H2|].
    destruct H1 as [H1|H1]; [discriminate H1|]. rewrite H1.
    apply IH. eapply Forall_impl; [exact H2|]. cbn beta.
    intros n [Hn|Hn]; [left|right; exact Hn].
    apply (is_dir_mono w); [reflexivity|cbn; set_solver|exact Hn].
Qed.

(** Where every directory on the way exists, the call changes nothing. *)
Lemma makedirs_from_noop (w : World) (cur : node) (comps : list string) :
  Forall (λ n, is_dir w n = true) (path_nodes cur comps) →
  makedirs_from w cur comps = (inr tt, w).
Proof.
  revert cur. induction comps as [|comp rest IH]; intros cur; cbn [makedirs_from path_nodes].
  - reflexivity.
  - cbv zeta. intros [H1 H2]%Forall_cons. rewrite H1. apply IH, H2.
Qed.

Lemma check_path_output_dir : check_path output_dir = inr tt.
Proof. reflexivity. Qed.

Lemma split_on_output_dir :
  split_on "/" output_dir = [lean_data_dir; "equity"; "usa"; "daily"].
Proof. reflexivity. Qed.

Lemma start_output_dir (w : World) : start w output_dir = cwd w.
Proof. reflexivity. Qed.

Lemma path_nodes_output_dir (w : World) :
  path_nodes (cwd w) (split_on "/" output_dir) = output_nodes w.
Proof.
  rewrite split_on_output_dir. unfold output_nodes, output_node.
  cbn [path_nodes].
  rewrite !step_name by (cbn; lia).
  rewrite <- !app_assoc. reflexivity.
Qed.

Lemma os_makedirs_output_dir (w : World) :
  os_makedirs output_dir w = makedirs_from w (cwd w) (split_on "/" output_dir).
Proof. reflexivity. Qed.

(** * Runs of [main] *)

Section Runs.

Variable upper lower : string → string.
Variable yf_download : string → string → string → DataFrame.

Lemma main_usage (argv : list string) (w : World) :
  (length argv < 4)%nat →
  main upper lower yf_download argv w
  = (inl (SystemExit 1),
     mkWorld (cwd w) (files w) (dirs w) (stdout w ++ [usage_line; example_line])).
Proof.
  intros Hlen. unfold main.
  replace (length argv <? 4)%nat with true by (symmetry; apply Nat.ltb_lt; exact Hlen).
  unfold when, mbind, M_bind, mret, M_ret, print, sys_exit, raise.
  cbn [cwd files dirs stdout]. rewrite <- app_assoc. reflexivity.
Qed.

Lemma main_no_data (argv : list string) (w : World) :
  (4 <= length argv)%nat →
  let symbol := upper (nth 1 argv "") in
  yf_download symbol (nth 2 argv "") (nth 3 argv "") = [] →
  main upper lower yf_download argv w
  = (inl (SystemExit 1),
     mkWorld (cwd w) (files w) (dirs w)
       (stdout w ++ [downloading_line symbol (nth 2 argv "") (nth 3 argv "");
                     no_data_line symbol])).
Proof.
  intros Hlen symbol Hdata. unfold main. fold symbol. rewrite Hdata.
  replace (length argv <? 4)%nat with false by (symmetry; apply Nat.ltb_ge; exact Hlen).
  unfold when, mbind, M_bind, mret, M_ret, print, sys_exit, raise.
  cbn [DataFrame_empty cwd files dirs stdout]. rewrite <- app_assoc. reflexivity.
Qed.

Lemma main_conversion_failure (argv : list string) (w : World) (e : exn) :
  (4 <= length argv)%nat →
  let symbol := upper (nth 1 argv "") in
  let data := yf_download symbol (nth 2 argv "") (nth 3 argv "") in
  data ≠ [] →
  format_rows data [] = inl e →
  main upper lower yf_download argv w
  = (inl e,
     mkWorld (cwd w) (files w) (dirs w)
       (stdout w ++ [downloading_line symbol (nth 2 argv "") (nth 3 argv "")])).
Proof.
  intros Hlen symbol data Hne Hfmt.
  unfold main. fold symbol. fold data.
  replace (length argv <? 4)%nat with false by (symmetry; apply Nat.ltb_ge; exact Hlen).
  replace (DataFrame_empty data) with false by (destruct data; [contradiction|reflexivity]).
  rewrite Hfmt.
  unfold when, mbind, M_bind, mret, M_ret, lift, print.
  cbn [cwd files dirs stdout]. reflexivity.
Qed.

(** A run whose rows all convert, step by step: the directories are made,
    the staging file is written, the archive is started, the staging file
    is added to it and removed. Each step can fail, and what was done
    before it stays. *)
Lemma main_archive (argv : list string) (w : World) (lines init : list string)
    (l : string) :
  (4 <= length argv)%nat →
  let symbol := upper (nth 1 argv "") in
  let data := yf_download symbol (nth 2 argv "") (nth 3 argv "") in
  let symbol_lower := lower symbol in
  let content := String.concat newline lines in
  let out := stdout w ++ [downloading_line symbol (nth 2 argv "") (nth 3 argv "");
                          saving_line] in
  data ≠ [] →
  format_rows data [] = inr lines →
  split_on "/" (path_stem symbol_lower) = init ++ [l] →
  main upper lower yf_download argv w
  = let made := os_makedirs output_dir w in
    let wd := made.2 in
    match made.1 with
    | inl e => (inl e, mkWorld (cwd w) (files w) (dirs wd) out)
    | inr _ =>
        if str_contains NUL (path_stem symbol_lower)
        then (inl ValueError, mkWorld (cwd w) (files w) (dirs wd) out)
        else
          match walk wd (start w (path_stem symbol_lower)) init with
          | inl e => (inl e, mkWorld (cwd w) (files w) (dirs wd) out)
          | inr dir =>
              let csv_node := dir ++ [l +:+ ".csv"] in
              let zip_node := dir ++ [l +:+ ".zip"] in
              if is_dir wd csv_node
              then (inl IsADirectoryError, mkWorld (cwd w) (files w) (dirs wd) out)
              else if is_dir wd zip_node
              then (inl IsADirectoryError,
                    mkWorld (cwd w) (<[csv_node := Plain content]> (files w)) (dirs wd) out)
              else
                match zip_arcname false (symbol_lower +:+ ".csv") with
                | inl e =>
                    (inl e,
                     mkWorld (cwd w)
                       (<[zip_node := ZipArchive ZIP_DEFLATED []]>
                          (<[csv_node := Plain content]> (files w)))
                       (dirs wd) out)
                | inr name =>
                    (inr tt,
                     mkWorld (cwd w)
                       (archived csv_node zip_node name content (files w)) (dirs wd)
                       (out ++ [ready_line symbol_lower;
                                contains_line (length lines) symbol]))
                end
          end
    end.
Proof.
  intros Hlen symbol data symbol_lower content out Hne Hfmt Hsplit.
  unfold main. fold symbol. fold data. fold symbol_lower.
  replace (length argv <? 4)%nat with false by (symmetry; apply Nat.ltb_ge; exact Hlen).
  replace (DataFrame_empty data) with false by (destruct data; [contradiction|reflexivity]).
  rewrite Hfmt. fold content.
  unfold when, mbind, M_bind, mret, M_ret, lift, print.
  cbn [cwd files dirs stdout].
  rewrite <- app_assoc. cbn [app]. fold out.
  rewrite !os_makedirs_output_dir.
  change (cwd (mkWorld (cwd w) (files w) (dirs w) out)) with (cwd w).
  rewrite makedirs_from_stdout.
  pose proof (makedirs_from_frame w (cwd w) (split_on "/" output_dir)) as (Hc & Hf & _ & _ & _).
  cbv zeta in Hc, Hf.
  set (made := makedirs_from w (cwd w) (split_on "/" output_dir)) in *.
  cbv zeta. cbn [fst snd].
  destruct (made.1) as [e|[]]; [reflexivity|].
  set (wd := made.2) in *.
  set (w1 := mkWorld (cwd w) (files w) (dirs wd) out).
  assert (Hw1 : ∀ cur comps, walk w1 cur comps = walk wd cur comps).
  { intros. apply walk_same_tree; [symmetry; exact Hc|symmetry; exact Hf|reflexivity]. }
  assert (Hd1 : ∀ n, is_dir w1 n = is_dir wd n).
  { intros. apply is_dir_same; [symmetry; exact Hc|reflexivity]. }
  (* the staging file *)
  unfold write_text at 1. rewrite csv_path_stem.
  rewrite (open_w_target w1 _ ".csv" init l (or_introl eq_refl) Hsplit).
  destruct (str_contains NUL (path_stem symbol_lower)) eqn:Hnul; [reflexivity|].
  change (start w1 (path_stem symbol_lower)) with (start w (path_stem symbol_lower)).
  rewrite Hw1.
  destruct (walk wd (start w (path_stem symbol_lower)) init) as [e|dir] eqn:Hwalk;
    [reflexivity|].
  rewrite Hd1. cbv zeta.
  destruct (is_dir wd (dir ++ [l +:+ ".csv"])) eqn:Hcsv; [reflexivity|].
  cbn [cwd files dirs stdout]. rewrite text_mode_id.
  set (csv_node := dir ++ [l +:+ ".csv"]) in *.
  set (zip_node := dir ++ [l +:+ ".zip"]).
  assert (Hnodes : csv_node ≠ zip_node) by apply target_nodes_differ.
  set (w2 := mkWorld (cwd w) (<[csv_node := Plain content]> (files w)) (dirs wd) out).
  assert (Hwalk2 : ∀ w', cwd w' = cwd w → dirs w' = dirs wd →
            walk w' (start w (path_stem symbol_lower)) init = inr dir).
  { intros w' Hc' Hd'. apply (walk_same_dirs wd); [congruence|congruence|exact Hwalk]. }
  assert (Hdir2 : ∀ w' n, cwd w' = cwd w → dirs w' = dirs wd → is_dir w' n = is_dir wd n).
  { intros w' n Hc' Hd'. apply is_dir_same; congruence. }
  (* the archive *)
  match goal with |- context [ZipFile_w _ _ ?W] => change W with w2 end.
  unfold ZipFile_w at 1. rewrite zip_path_stem.
  rewrite (open_w_target w2 _ ".zip" init l (or_intror eq_refl) Hsplit), Hnul.
  change (start w2 (path_stem symbol_lower)) with (start w (path_stem symbol_lower)).
  rewrite (Hwalk2 w2) by reflexivity. rewrite (Hdir2 w2) by reflexivity.
  fold zip_node.
  destruct (is_dir wd zip_node) eqn:Hzip; [reflexivity|].
  set (w3 := mkWorld (cwd w)
               (<[zip_node := ZipArchive ZIP_DEFLATED []]>
                  (<[csv_node := Plain content]> (files w))) (dirs wd) out).
  match goal with |- context [ZipFile_write _ _ _ ?W] => change W with w3 end.
  (* the entry *)
  unfold ZipFile_write at 1.
  rewrite (locate_target w3 _ ".csv" init l (or_introl eq_refl) Hsplit), Hnul.
  change (start w3 (path_stem symbol_lower)) with (start w (path_stem symbol_lower)).
  rewrite (Hwalk2 w3) by reflexivity. fold csv_node.
  rewrite (Hdir2 w3) by reflexivity. rewrite Hcsv.
  cbn [zip_fp zip_compression].
  assert (Hcsv3 : files w3 !! (csv_node : node) = Some (Plain content)).
  { unfold w3. cbn [files]. rewrite lookup_insert_ne by congruence. apply lookup_insert_eq. }
  rewrite Hcsv3.
  destruct (zip_arcname false (symbol_lower +:+ ".csv")) as [e|name]; [reflexivity|].
  assert (Hzip3 : entries_at w3 zip_node = []).
  { unfold entries_at, w3. cbn [files]. rewrite lookup_insert_eq. reflexivity. }
  rewrite Hzip3. cbn [app].
  set (w4 := mkWorld (cwd w)
               (<[zip_node := ZipArchive ZIP_DEFLATED [(name, Plain content)]]>
                  (<[csv_node := Plain content]> (files w))) (dirs wd) out).
  assert (E34 : mkWorld (cwd w3)
                  (<[(zip_node : node) := ZipArchive ZIP_DEFLATED [(name, Plain content)]]>
                     (files w3))
                  (dirs w3) (stdout w3) = w4).
  { unfold w3, w4. cbn [cwd files dirs stdout]. rewrite insert_insert_eq. reflexivity. }
  rewrite E34.
  (* the staging file removed *)
  unfold os_remove at 1.
  rewrite (locate_target w4 _ ".csv" init l (or_introl eq_refl) Hsplit), Hnul.
  change (start w4 (path_stem symbol_lower)) with (start w (path_stem symbol_lower)).
  rewrite (Hwalk2 w4) by reflexivity. fold csv_node.
  rewrite (Hdir2 w4) by reflexivity. rewrite Hcsv.
  assert (Hcsv4 : files w4 !! (csv_node : node) = Some (Plain content)).
  { unfold w4. cbn [files]. rewrite lookup_insert_ne by congruence. apply lookup_insert_eq. }
  rewrite Hcsv4.
  unfold w4, archived. cbn [cwd files dirs stdout]. rewrite <- app_assoc. reflexivity.
Qed.

(** What a successful run has done, and where. *)
Lemma main_success_inv (argv : list string) (w : World) :
  let symbol := upper (nth 1 argv "") in
  let data := yf_download symbol (nth 2 argv "") (nth 3 argv "") in
  let symbol_lower := lower symbol in
  (main upper lower yf_download argv w).1 = inr tt →
  (4 <= length argv)%nat ∧ data ≠ []
  ∧ ∃ (lines init : list string) (l : string) (dir : node) (name : string),
      format_rows data [] = inr lines
      ∧ split_on "/" (path_stem symbol_lower) = init ++ [l]
      ∧ (os_makedirs output_dir w).1 = inr tt
      ∧ str_contains NUL (path_stem symbol_lower) = false
      ∧ walk (os_makedirs output_dir w).2 (start w (path_stem symbol_lower)) init = inr dir
      ∧ is_dir (os_makedirs output_dir w).2 (dir ++ [l +:+ ".csv"]) = false
      ∧ is_dir (os_makedirs output_dir w).2 (dir ++ [l +:+ ".zip"]) = false
      ∧ zip_arcname false (symbol_lower +:+ ".csv") = inr name
      ∧ (main upper lower yf_download argv w).2
        = mkWorld (cwd w)
            (archived (dir ++ [l +:+ ".csv"]) (dir ++ [l +:+ ".zip"]) name
               (String.concat newline lines) (files w))
            (dirs (os_makedirs output_dir w).2)
            (stdout w ++ [downloading_line symbol (nth 2 argv "") (nth 3 argv "");
                          saving_line; ready_line symbol_lower;
                          contains_line (length lines) symbol]).
Proof.
  intros symbol data symbol_lower.
  destruct (Nat.lt_ge_cases (length argv) 4) as [Hlt|Hge].
  { rewrite (main_usage argv w Hlt). discriminate. }
  destruct data as [|bar rest] eqn:Hdata.
  { rewrite (main_no_data argv w Hge Hdata). discriminate. }
  assert (Hne : yf_download symbol (nth 2 argv "") (nth 3 argv "") ≠ [])
    by (fold data; rewrite Hdata; discriminate).
  rewrite <- Hdata. subst data.
  destruct (format_rows (yf_download symbol (nth 2 argv "") (nth 3 argv "")) [])
    as [e|lines] eqn:Hfmt.
  { rewrite (main_conversion_failure argv w e Hge Hne Hfmt). discriminate. }
  destruct (split_on_snoc "/" (path_stem symbol_lower)) as (init & l & Hsplit).
  rewrite (main_archive argv w lines init l Hge Hne Hfmt Hsplit). cbv zeta.
  fold symbol. fold symbol_lower.
  destruct ((os_makedirs output_dir w).1) as [e|[]] eqn:Hmade; [discriminate|].
  destruct (str_contains NUL (path_stem symbol_lower)) eqn:Hnul; [discriminate|].
  destruct (walk _ _ init) as [e|dir] eqn:Hwalk; [discriminate|].
  destruct (is_dir _ (dir ++ [l +:+ ".csv"])) eqn:Hcsv; [discriminate|].
  destruct (is_dir _ (dir ++ [l +:+ ".zip"])) eqn:Hzip; [discriminate|].
  destruct (zip_arcname false (symbol_lower +:+ ".csv")) as [e|name] eqn:Hname; [discriminate|].
  intros _. split; [exact Hge|]. split; [exact Hne|].
  exists lines, init, l, dir, name. cbn [snd].
  rewrite <- app_assoc. repeat (split; [assumption || reflexivity|]). reflexivity.
Qed.

(** When every step goes through, so does the run. *)
Lemma main_success_intro (argv : list string) (w : World) (lines init : list string)
    (l : string) (dir : node) (name : string) :
  (4 <= length argv)%nat →
  let symbol := upper (nth 1 argv "") in
  let data := yf_download symbol (nth 2 argv "") (nth 3 argv "") in
  let symbol_lower := lower symbol in
  data ≠ [] →
  format_rows data [] = inr lines →
  split_on "/" (path_stem symbol_lower) = init ++ [l] →
  (os_makedirs output_dir w).1 = inr tt →
  str_contains NUL (path_stem symbol_lower) = false →
  walk (os_makedirs output_dir w).2 (start w (path_stem symbol_lower)) init = inr dir →
  is_dir (os_makedirs output_dir w).2 (dir ++ [l +:+ ".csv"]) = false →
  is_dir (os_makedirs output_dir w).2 (dir ++ [l +:+ ".zip"]) = false →
  zip_arcname false (symbol_lower +:+ ".csv") = inr name →
  main upper lower yf_download argv w
  = (inr tt,
     mkWorld (cwd w)
       (archived (dir ++ [l +:+ ".csv"]) (dir ++ [l +:+ ".zip"]) name
          (String.concat newline lines) (files w))
       (dirs (os_makedirs output_dir w).2)
       (stdout w ++ [downloading_line symbol (nth 2 argv "") (nth 3 argv "");
                     saving_line; ready_line symbol_lower;
                     contains_line (length lines) symbol])).
Proof.
  intros Hlen symbol data symbol_lower Hne Hfmt Hsplit Hmade Hnul Hwalk Hcsv Hzip Hname.
  rewrite (main_archive argv w lines init l Hlen Hne Hfmt Hsplit). cbv zeta.
  fold symbol. fold symbol_lower.
  rewrite Hmade, Hnul, Hwalk, Hcsv, Hzip, Hname. rewrite <- app_assoc. reflexivity.
Qed.

End Runs.

(** ** The files after a run *)

Lemma archived_zip (csv_node zip_node : node) (name content : string) (fs : gmap node file) :
  csv_node ≠ zip_node →
  archived csv_node zip_node name content fs !! zip_node
  = Some (ZipArchive ZIP_DEFLATED [(name, Plain content)]).
Proof.
  intros Hne. unfold archived.
  rewrite lookup_delete_ne by assumption. apply lookup_insert_eq.
Qed.

Lemma archived_csv (csv_node zip_node : node) (name content : string) (fs : gmap node file) :
  archived csv_node zip_node name content fs !! csv_node = None.
Proof. unfold archived. apply lookup_delete_eq. Qed.

Lemma archived_other (csv_node zip_node : node) (name content : string)
    (fs : gmap node file) (n : node) :
  n ≠ csv_node → n ≠ zip_node →
  archived csv_node zip_node name content fs !! n = fs !! n.
Proof.
  intros H1 H2. unfold archived.
  rewrite lookup_delete_ne, !lookup_insert_ne by congruence. reflexivity.
Qed.

Lemma archived_idempotent (csv_node zip_node : node) (name content : string)
    (fs : gmap node file) :
  csv_node ≠ zip_node →
  archived csv_node zip_node name content (archived csv_node zip_node name content fs)
  = archived csv_node zip_node name content fs.
Proof.
  intros Hne. apply map_eq. intros n.
  destruct (decide (n = csv_node)) as [->|H1].
  { rewrite !archived_csv. reflexivity. }
  destruct (decide (n = zip_node)) as [->|H2].
  { rewrite !archived_zip by assumption. reflexivity. }
  rewrite !archived_other by assumption. reflexivity.
Qed.

(** ** Symbols without a slash *)

Lemma split_on_sep_app (c : ascii) (a b : string) :
  split_on c (a +:+ String c b) = split_on c a ++ split_on c b.
Proof.
  induction a as [|x a IH].
  - change ("" +:+ String c b) with (String c b). cbn [split_on].
    rewrite Ascii.eqb_refl. reflexivity.
  - change (String x a +:+ String c b) with (String x (a +:+ String c b)).
    cbn [split_on]. rewrite IH. destruct (Ascii.eqb x c); [reflexivity|].
    destruct (split_on_snoc c a) as (init & l & ->).
    destruct init; reflexivity.
Qed.

Lemma no_slash_startswith (s : string) :
  str_contains "/" s = false → startswith "/" s = false.
Proof. destruct s as [|c s]; [reflexivity|]. cbn. intros [H _]%orb_false_elim. exact H. Qed.

Lemma no_slash_split (s : string) : str_contains "/" s = false → split_on "/" s = [s].
Proof.
  intros H. apply split_on_none. rewrite str_contains_differs in H.
  apply negb_false_iff, H.
Qed.

Lemma path_stem_plain (symbol_lower : string) :
  str_contains "/" symbol_lower = false →
  path_stem symbol_lower = output_dir +:+ "/" +:+ symbol_lower
  ∧ split_on "/" (path_stem symbol_lower)
    = [lean_data_dir; "equity"; "usa"; "daily"] ++ [symbol_lower].
Proof.
  intros H. unfold path_stem. rewrite (no_slash_startswith _ H). split; [reflexivity|].
  change ("/" +:+ symbol_lower) with (String "/" symbol_lower).
  rewrite split_on_sep_app, (no_slash_split _ H). reflexivity.
Qed.

Lemma start_path_stem_plain (w : World) (symbol_lower : string) :
  str_contains "/" symbol_lower = false → start w (path_stem symbol_lower) = cwd w.
Proof. intros H. unfold path_stem. rewrite (no_slash_startswith _ H). reflexivity. Qed.

Lemma nul_path_stem (symbol_lower : string) :
  str_contains NUL (path_stem symbol_lower) = str_contains NUL symbol_lower.
Proof.
  unfold path_stem. destruct (startswith "/" symbol_lower); [reflexivity|].
  rewrite !str_contains_app. reflexivity.
Qed.

Lemma fold_step_output_dir (cur : node) :
  fold_left step [lean_data_dir; "equity"; "usa"; "daily"] cur
  = cur ++ [lean_data_dir; "equity"; "usa"; "daily"].
Proof.
  cbn [fold_left]. rewrite !step_name by (cbn; lia).
  rewrite <- !app_assoc. reflexivity.
Qed.

Lemma prefix_string_startswith (s : string) :
  startswith "/" s = false → String.prefix "/" s = false.
Proof.
  destruct s as [|c s]; [reflexivity|]. intros H.
  change (String.prefix "/" (String c s))
    with (if ascii_dec "/" c then String.prefix "" s else false).
  destruct (ascii_dec "/" c) as [E|_]; [|reflexivity].
  subst c. cbn in H. discriminate H.
Qed.

Lemma lstrip_id (c : ascii) (s : string) : startswith c s = false → lstrip c s = s.
Proof. destruct s as [|x s]; [reflexivity|]. cbn. intros ->. reflexivity. Qed.

(** A name without a slash, other than [.] and [..], is its own normal
    form. *)
Lemma normpath_name (s : string) :
  str_contains "/" s = false → (3 <= String.length s)%nat → normpath s = s.
Proof.
  intros Hs Hlen.
  assert (N0 : s ≠ "") by (intros ->; cbn in Hlen; lia).
  assert (N1 : s ≠ ".") by (intros ->; cbn in Hlen; lia).
  assert (N2 : s ≠ "..") by (intros ->; cbn in Hlen; lia).
  unfold normpath.
  rewrite (proj2 (String.eqb_neq _ _) N0).
  rewrite (prefix_string_startswith _ (no_slash_startswith _ Hs)).
  rewrite (no_slash_split _ Hs). cbn [fold_left]. unfold normpath_step.
  rewrite (proj2 (String.eqb_neq _ _) N0), (proj2 (String.eqb_neq _ _) N1),
    (proj2 (String.eqb_neq _ _) N2).
  cbn. change ("" +:+ s) with s. rewrite (proj2 (String.eqb_neq _ _) N0). reflexivity.
Qed.

(** The entry of a symbol without a slash is named after it. *)
Lemma zip_arcname_plain (symbol_lower : string) :
  str_contains "/" symbol_lower = false →
  str_contains NUL symbol_lower = false →
  zip_arcname false (symbol_lower +:+ ".csv") = inr (symbol_lower +:+ ".csv").
Proof.
  intros Hs Hn. unfold zip_arcname.
  assert (Hs' : str_contains "/" (symbol_lower +:+ ".csv") = false)
    by (rewrite str_contains_app, Hs; reflexivity).
  rewrite normpath_name; [|exact Hs'|rewrite str_length_app; cbn; lia].
  rewrite lstrip_id by apply no_slash_startswith, Hs'.
  assert (Hb : before NUL (symbol_lower +:+ ".csv") = symbol_lower +:+ ".csv")
    by (apply before_id; rewrite str_contains_app, Hn; reflexivity).
  destruct (symbol_lower +:+ ".csv") eqn:E.
  - apply (f_equal String.length) in E. rewrite str_length_app in E. cbn in E. lia.
  - rewrite Hb. reflexivity.
Qed.

Section Success.

Variable upper lower : string → string.
Variable yf_download : string → string → string → DataFrame.

(** The world after a successful run. *)
Lemma main_success_world (argv : list string) (w : World) :
  let symbol := upper (nth 1 argv "") in
  let data := yf_download symbol (nth 2 argv "") (nth 3 argv "") in
  let symbol_lower := lower symbol in
  let run := main upper lower yf_download argv w in
  run.1 = inr tt →
  (4 <= length argv)%nat ∧ data ≠ []
  ∧ ∃ (lines : list string) (dir : node) (l name : string),
      format_rows data [] = inr lines
      ∧ zip_arcname false (symbol_lower +:+ ".csv") = inr name
      ∧ locate run.2 (csv_path symbol_lower) = inr (dir ++ [l +:+ ".csv"])
      ∧ locate run.2 (zip_path symbol_lower) = inr (dir ++ [l +:+ ".zip"])
      ∧ is_dir run.2 (dir ++ [l +:+ ".csv"]) = false
      ∧ is_dir run.2 (dir ++ [l +:+ ".zip"]) = false
      ∧ files run.2
        = archived (dir ++ [l +:+ ".csv"]) (dir ++ [l +:+ ".zip"]) name
            (String.concat newline lines) (files w)
      ∧ cwd run.2 = cwd w
      ∧ (os_makedirs output_dir w).1 = inr tt
      ∧ dirs run.2 = dirs (os_makedirs output_dir w).2
      ∧ stdout run.2
        = stdout w ++ [downloading_line symbol (nth 2 argv "") (nth 3 argv "");
                       saving_line; ready_line symbol_lower;
                       contains_line (length lines) symbol]
      ∧ (str_contains "/" symbol_lower = false →
         dir = output_node w ∧ l = symbol_lower ∧ name = symbol_lower +:+ ".csv").
Proof.
  intros symbol data symbol_lower run Hrun.
  destruct (main_success_inv upper lower yf_download argv w Hrun)
    as (Hlen & Hne & lines & init & l & dir & name & Hfmt & Hsplit & Hmade & Hnul
        & Hwalk & Hcsv & Hzip & Hname & Hworld).
  fold symbol symbol_lower in Hsplit, Hnul, Hwalk, Hname, Hworld.
  fold run in Hworld.
  split; [exact Hlen|]. split; [exact Hne|].
  exists lines, dir, l, name.
  pose proof (makedirs_from_frame w (cwd w) (split_on "/" output_dir)) as (Hc & _).
  rewrite <- os_makedirs_output_dir in Hc. cbv zeta in Hc.
  set (wd := (os_makedirs output_dir w).2) in *.
  assert (Hwalk' : walk run.2 (start run.2 (path_stem symbol_lower)) init = inr dir).
  { rewrite Hworld. 
    change (start _ (path_stem symbol_lower)) with (start w (path_stem symbol_lower)).
    apply (walk_same_dirs wd); [exact Hc|reflexivity|exact Hwalk]. }
  assert (Hdir' : ∀ n, is_dir run.2 n = is_dir wd n).
  { intros n. rewrite Hworld. apply is_dir_same; [symmetry; exact Hc|reflexivity]. }
  split; [exact Hfmt|]. split; [exact Hname|].
  split.
  { rewrite csv_path_stem, (locate_target _ _ ".csv" init l (or_introl eq_refl) Hsplit).
    rewrite Hnul, Hwalk'. reflexivity. }
  split.
  { rewrite zip_path_stem, (locate_target _ _ ".zip" init l (or_intror eq_refl) Hsplit).
    rewrite Hnul, Hwalk'. reflexivity. }
  split; [rewrite Hdir'; exact Hcsv|]. split; [rewrite Hdir'; exact Hzip|].
  rewrite Hworld. cbn [cwd files dirs stdout].
  repeat (split; [reflexivity || assumption|]).
  intros Hplain.
  destruct (path_stem_plain _ Hplain) as [_ Hsplit'].
  rewrite Hsplit in Hsplit'. apply app_inj_tail in Hsplit' as [-> ->].
  rewrite (start_path_stem_plain w _ Hplain) in Hwalk.
  apply walk_fold in Hwalk. rewrite fold_step_output_dir in Hwalk.
  split; [exact Hwalk|]. split; [reflexivity|].
  rewrite nul_path_stem in Hnul.
  rewrite (zip_arcname_plain _ Hplain Hnul) in Hname. congruence.
Qed.

(** From a successful run: what [zip_path] and [csv_path] name
    afterwards. *)
Lemma main_success_archive (argv : list string) (w : World) :
  let symbol := upper (nth 1 argv "") in
  let data := yf_download symbol (nth 2 argv "") (nth 3 argv "") in
  let symbol_lower := lower symbol in
  let run := main upper lower yf_download argv w in
  run.1 = inr tt →
  ∃ (lines : list string) (name : string),
    format_rows data [] = inr lines
    ∧ zip_arcname false (symbol_lower +:+ ".csv") = inr name
    ∧ read_file run.2 (zip_path symbol_lower)
      = Some (ZipArchive ZIP_DEFLATED [(name, Plain (String.concat newline lines))])
    ∧ path_exists run.2 (csv_path symbol_lower) = false.
Proof.
  intros symbol data symbol_lower run Hrun.
  destruct (main_success_world argv w Hrun)
    as (_ & _ & lines & dir & l & name & Hfmt & Hname & Lcsv & Lzip & Dcsv & Dzip & Hfiles & _).
  fold symbol symbol_lower run in Hname, Lcsv, Lzip, Dcsv, Dzip, Hfiles.
  exists lines, name. split; [exact Hfmt|]. split; [exact Hname|].
  unfold read_file, path_exists. rewrite Lcsv, Lzip, Dcsv, Dzip, Hfiles.
  rewrite archived_zip by apply target_nodes_differ.
  rewrite archived_csv. split; reflexivity.
Qed.

End Success.

(** ** When a run succeeds *)

(** A call that succeeded found no regular file where a directory had to
    be. *)
Lemma makedirs_from_ok_inv (w : World) (cur : node) (comps : list string) :
  (makedirs_from w cur comps).1 = inr tt →
  Forall (λ n, is_dir w n = true ∨ files w !! n = None) (path_nodes cur comps).
Proof.
  revert w cur. induction comps as [|comp rest IH]; intros w cur; cbn [makedirs_from path_nodes].
  - intros _. constructor.
  - cbv zeta. destruct (is_dir w (step cur comp)) eqn:Hdir.
    + intros Hrun. constructor; [left; exact Hdir|exact (IH _ _ Hrun)].
    + destruct (files w !! step cur comp) eqn:Hfile; [discriminate|].
      intros Hrun. constructor; [right; exact Hfile|].
      eapply Forall_impl; [exact (IH _ _ Hrun)|]. cbn beta.
      intros n [Hn|Hn]; [|right; exact Hn].
      unfold is_dir in Hn. cbn [mkdir cwd dirs] in Hn.
      apply orb_prop in Hn as [Hn|Hn].
      * left. unfold is_dir. rewrite Hn. reflexivity.
      * apply bool_decide_eq_true in Hn. apply elem_of_union in Hn as [Hn|Hn].
        -- apply elem_of_singleton in Hn. subst n. right. exact Hfile.
        -- left. unfold is_dir. apply orb_true_intro. right.
           apply bool_decide_eq_true. exact Hn.
Qed.

Lemma output_node_name (w : World) (name : string) :
  output_node w ++ [name] ∉ output_nodes w.
Proof.
  unfold output_nodes, output_node. rewrite <- app_assoc. cbn [app].
  intros Hin. repeat (apply elem_of_cons in Hin as [Hin|Hin];
                      [apply app_inv_head in Hin; discriminate Hin|]).
  apply elem_of_nil in Hin. exact Hin.
Qed.

(** Making [output_dir] does not put a directory where a file of
    [output_dir] goes. *)
Lemma is_dir_after_makedirs (w : World) (name : string) :
  is_dir (os_makedirs output_dir w).2 (output_node w ++ [name])
  = is_dir w (output_node w ++ [name]).
Proof.
  rewrite os_makedirs_output_dir.
  pose proof (makedirs_from_frame w (cwd w) (split_on "/" output_dir))
    as (Hc & _ & _ & Hsub & Hnew).
  cbv zeta in Hc, Hsub, Hnew. rewrite path_nodes_output_dir in Hnew.
  set (wd := (makedirs_from w (cwd w) (split_on "/" output_dir)).2) in *.
  unfold is_dir. rewrite Hc. f_equal.
  apply bool_decide_ext. split.
  - intros Hin. destruct (Hnew _ Hin) as [H|H]; [exact H|].
    contradiction (output_node_name w name H).
  - intros Hin. apply Hsub, Hin.
Qed.

Lemma can_archive_spec (w : World) (symbol_lower : string) :
  can_archive w symbol_lower = true
  ↔ Forall (λ n, is_dir w n = true ∨ files w !! n = None) (output_nodes w)
    ∧ is_dir w (output_node w ++ [symbol_lower +:+ ".csv"]) = false
    ∧ is_dir w (output_node w ++ [symbol_lower +:+ ".zip"]) = false.
Proof.
  unfold can_archive. rewrite !andb_true_iff, !negb_true_iff, forallb_forall, Forall_forall.
  split.
  - intros [[Hall Hcsv] Hzip]. split; [|split; assumption].
    intros n Hn. specialize (Hall n (proj1 (list_elem_of_In _ _) Hn)).
    apply orb_prop in Hall as [H|H]; [left; exact H|right].
    apply bool_decide_eq_true in H. exact H.
  - intros (Hall & Hcsv & Hzip). split; [split|]; try assumption.
    intros n Hn. apply list_elem_of_In in Hn.
    destruct (Hall n Hn) as [H|H]; apply orb_true_intro; [left; exact H|right].
    apply bool_decide_eq_true. exact H.
Qed.

Section Plain.

Variable upper lower : string → string.
Variable yf_download : string → string → string → DataFrame.

(** For a symbol without a slash or a null byte whose rows all convert,
    the run succeeds exactly when nothing stands in the way in the tree. *)
Lemma main_success_plain (argv : list string) (w : World) (lines : list string) :
  (4 <= length argv)%nat →
  let symbol := upper (nth 1 argv "") in
  let data := yf_download symbol (nth 2 argv "") (nth 3 argv "") in
  let symbol_lower := lower symbol in
  data ≠ [] →
  format_rows data [] = inr lines →
  str_contains "/" symbol_lower = false →
  str_contains NUL symbol_lower = false →
  ((main upper lower yf_download argv w).1 = inr tt ↔ can_archive w symbol_lower = true).
Proof.
  intros Hlen symbol data symbol_lower Hne Hfmt Hslash Hnul.
  rewrite can_archive_spec. split.
  - intros Hrun.
    destruct (main_success_world upper lower yf_download argv w Hrun)
      as (_ & _ & lines' & dir & l & name & _ & _ & _ & _ & Dcsv & Dzip & _ & Hc & Hmade
          & Hdirs & _ & Hplain).
    fold symbol symbol_lower in Dcsv, Dzip, Hplain.
    destruct (Hplain Hslash) as (-> & -> & _).
    set (run := main upper lower yf_download argv w) in *.
    assert (Hdir : ∀ name, is_dir run.2 (output_node w ++ [name])
                            = is_dir w (output_node w ++ [name])).
    { intros nm. rewrite <- is_dir_after_makedirs. apply is_dir_same; [|exact Hdirs].
      rewrite Hc. pose proof (makedirs_from_frame w (cwd w) (split_on "/" output_dir)) as (E & _).
      rewrite <- os_makedirs_output_dir in E. symmetry. exact E. }
    rewrite Hdir in Dcsv, Dzip. split; [|split; assumption].
    rewrite <- path_nodes_output_dir. apply makedirs_from_ok_inv.
    rewrite <- os_makedirs_output_dir. exact Hmade.
  - intros (Hall & Hcsv & Hzip).
    destruct (path_stem_plain _ Hslash) as [_ Hsplit].
    assert (Hmade : (os_makedirs output_dir w).1 = inr tt).
    { rewrite os_makedirs_output_dir. apply makedirs_from_ok.
      rewrite path_nodes_output_dir. exact Hall. }
    assert (Hwalk : walk (os_makedirs output_dir w).2 (start w (path_stem symbol_lower))
                      [lean_data_dir; "equity"; "usa"; "daily"] = inr (output_node w)).
    { rewrite (start_path_stem_plain w _ Hslash).
      rewrite <- split_on_output_dir at 1.
      rewrite walk_nodes.
      - rewrite split_on_output_dir, fold_step_output_dir. reflexivity.
      - apply (makedirs_from_dirs w). rewrite <- os_makedirs_output_dir.
        destruct (os_makedirs output_dir w) as [r wd]. cbn [fst snd] in *.
        rewrite Hmade. reflexivity. }
    rewrite (main_success_intro upper lower yf_download argv w lines _ symbol_lower
               (output_node w) (symbol_lower +:+ ".csv") Hlen Hne Hfmt Hsplit Hmade).
    + reflexivity.
    + rewrite nul_path_stem. exact Hnul.
    + exact Hwalk.
    + rewrite is_dir_after_makedirs. exact Hcsv.
    + rewrite is_dir_after_makedirs. exact Hzip.
    + apply zip_arcname_plain; assumption.
Qed.

(** A second run with the same arguments, from where a successful run
    ended, makes the same directories and writes the same files: it
    succeeds and only prints. *)
Lemma main_rerun (argv : list string) (w : World) :
  let first := main upper lower yf_download argv w in
  let second := main upper lower yf_download argv first.2 in
  first.1 = inr tt →
  second.1 = inr tt ∧ cwd second.2 = cwd first.2
  ∧ files second.2 = files first.2 ∧ dirs second.2 = dirs first.2.
Proof.
  intros first second Hrun. subst second.
  destruct (main_success_inv upper lower yf_download argv w Hrun)
    as (Hlen & Hne & lines & init & l & dir & name & Hfmt & Hsplit & Hmade & Hnul
        & Hwalk & Hcsv & Hzip & Hname & Hworld).
  fold first in Hworld.
  pose proof (makedirs_from_frame w (cwd w) (split_on "/" output_dir)) as (Hc & _).
  rewrite <- os_makedirs_output_dir in Hc. cbv zeta in Hc.
  set (wd := (os_makedirs output_dir w).2) in *.
  assert (Hcw : cwd first.2 = cwd w) by (rewrite Hworld; reflexivity).
  assert (Hdw : dirs first.2 = dirs wd) by (rewrite Hworld; reflexivity).
  assert (Hnoop : os_makedirs output_dir first.2 = (inr tt, first.2)).
  { rewrite os_makedirs_output_dir. apply makedirs_from_noop.
    assert (Hall : Forall (λ n, is_dir wd n = true)
                     (path_nodes (cwd w) (split_on "/" output_dir))).
    { apply (makedirs_from_dirs w). rewrite <- os_makedirs_output_dir.
      destruct (os_makedirs output_dir w) as [r wd']. cbn [fst snd] in *.
      rewrite Hmade. reflexivity. }
    rewrite Hcw. eapply Forall_impl; [exact Hall|]. cbn beta.
    intros n Hn. rewrite <- Hn. apply is_dir_same; congruence. }
  assert (Hsame : ∀ n, is_dir first.2 n = is_dir wd n)
    by (intros n; apply is_dir_same; congruence).
  rewrite (main_success_intro upper lower yf_download argv first.2 lines init l dir name
             Hlen Hne Hfmt Hsplit).
  - cbn [fst snd cwd files dirs]. rewrite Hnoop. cbn [snd].
    split; [reflexivity|]. split; [reflexivity|]. split; [|reflexivity].
    rewrite Hworld at 1. cbn [files]. rewrite Hworld. cbn [files].
    apply archived_idempotent, target_nodes_differ.
  - rewrite Hnoop. reflexivity.
  - exact Hnul.
  - rewrite Hnoop. cbn [snd].
    change (start first.2 (path_stem (lower (upper (nth 1 argv "")))))
      with (if startswith "/" (path_stem (lower (upper (nth 1 argv "")))) then []
            else cwd first.2).
    rewrite Hcw. apply (walk_same_dirs wd); [congruence|congruence|exact Hwalk].
  - rewrite Hnoop. cbn [snd]. rewrite Hsame. exact Hcsv.
  - rewrite Hnoop. cbn [snd]. rewrite Hsame. exact Hzip.
  - exact Hname.
Qed.

End Plain.

(** * The encoder *)

Lemma prices_ok_inv row :
  prices_ok row = true →
  (Float.well_formed (Open row) ∧ Float.well_formed (High row)
   ∧ Float.well_formed (Low row) ∧ Float.well_formed (Close row))
  ∧ Float.is_nonneg (Open row) = true ∧ Float.is_nonneg (High row) = true
  ∧ Float.is_nonneg (Low row) = true ∧ Float.is_nonneg (Close row) = true.
Proof.
  unfold prices_ok, Float.well_formed. intros H.
  split_andb H. auto 10.
Qed.

(** C1, as amended. For a row whose four prices are representable and not
    below zero: when every price is at most [MAX_PRICE]
    (7378697629483820 * 2^958, about 1.7976931348623157e304), each price is
    written as the integer part of its floating-point product with 10000,
    which is the floor of that product, the product being finite and not
    below zero, and the line of the row is made of these four integers and
    the converted volume; when some price is above [MAX_PRICE], its product
    is infinite and the row raises [OverflowError] instead of being
    written. *)
Theorem price_fields_truncate_product (date : Timestamp) (row : Row) :
  prices_ok row = true →
  (prices_in_range row = true →
     convert_price_value (Open row) = inr (floor_of_product (Open row))
     ∧ convert_price_value (High row) = inr (floor_of_product (High row))
     ∧ convert_price_value (Low row) = inr (floor_of_product (Low row))
     ∧ convert_price_value (Close row) = inr (floor_of_product (Close row))
     ∧ format_row date row
       = line_of date (floor_of_product (Open row)) (floor_of_product (High row))
           (floor_of_product (Low row)) (floor_of_product (Close row))
           (int_of_float (Volume row)))
  ∧ (prices_in_range row = false → format_row date row = inl OverflowError).
Proof.
  intros ((Wo & Wh & Wl & Wc) & No & Nh & Nl & Nc)%prices_ok_inv.
  destruct (convert_price_value_range (Open row) Wo No) as [Oin Oout].
  destruct (convert_price_value_range (High row) Wh Nh) as [Hin Hout].
  destruct (convert_price_value_range (Low row) Wl Nl) as [Lin Lout].
  destruct (convert_price_value_range (Close row) Wc Nc) as [Cin Cout].
  unfold prices_in_range, floor_of_product. split.
  - intros H. split_andb H.
    destruct (Oin H) as [_ Ho]. destruct (Hin ltac:(assumption)) as [_ Hh].
    destruct (Lin ltac:(assumption)) as [_ Hl]. destruct (Cin ltac:(assumption)) as [_ Hc].
    repeat (split; [assumption|]). apply format_row_intro; assumption.
  - intros H. unfold format_row.
    destruct (Float.leb (Open row) MAX_PRICE) eqn:Eo.
    2:{ rewrite (Oout eq_refl). reflexivity. }
    destruct (Oin eq_refl) as [_ ->].
    destruct (Float.leb (High row) MAX_PRICE) eqn:Eh.
    2:{ rewrite (Hout eq_refl). reflexivity. }
    destruct (Hin eq_refl) as [_ ->].
    destruct (Float.leb (Low row) MAX_PRICE) eqn:El.
    2:{ rewrite (Lout eq_refl). reflexivity. }
    destruct (Lin eq_refl) as [_ ->].
    destruct (Float.leb (Close row) MAX_PRICE) eqn:Ec.
    2:{ rewrite (Cout eq_refl). reflexivity. }
    discriminate H.
Qed.

Lemma price_fields_truncate_product_witness :
  prices_ok aapl_row = true ∧ prices_in_range aapl_row = true
  ∧ format_row aapl_date aapl_row
    = line_of aapl_date (floor_of_product (Open aapl_row))
        (floor_of_product (High aapl_row)) (floor_of_product (Low aapl_row))
        (floor_of_product (Close aapl_row)) (int_of_float (Volume aapl_row)).
Proof.
  split; [reflexivity|]. split; [reflexivity|].
  apply (price_fields_truncate_product aapl_date aapl_row); reflexivity.
Defined.

(** C1 as stated fails: 1e308 is a finite, non-negative price, its product
    with 10000 overflows to infinity, and the conversion raises
    [OverflowError] instead of yielding an integer. *)
Lemma price_1e308_overflows :
  let price := Float.of_int (10 ^ 308) in
  Float.well_formed price ∧ Float.is_finite price = true
  ∧ Float.is_nonneg price = true
  ∧ Float.mul price (Float.of_int MULTIPLIER) = S754_infinity false
  ∧ convert_price_value price = inl OverflowError
  ∧ ¬ ∃ v : Z, convert_price_value price = inr v.
Proof.
  cbv zeta. repeat split; try (vm_compute; reflexivity).
  intros [v Hv]. vm_compute in Hv. discriminate Hv.
Qed.

(** The conversion truncates; it does not round to nearest: 1.23456 gives
    12345, and 0.0003, whose nearest float is below 0.0003, gives 2. *)
Example convert_price_value_truncates :
  convert_price_value (Float.div (Float.of_int 123456) (Float.of_int 100000)) = inr 12345
  ∧ convert_price_value (Float.div (Float.of_int 3) (Float.of_int 10000)) = inr 2.
Proof. split; vm_compute; reflexivity. Qed.

(** On a negative price truncation is toward zero and differs from the
    floor: -0.00005 gives 0, the floor of the product is -1. *)
Example convert_price_value_negative :
  let price := Float.div (Float.of_int (-5)) (Float.of_int 100000) in
  convert_price_value price = inr 0 ∧ floor_of_product price = -1.
Proof. split; vm_compute; reflexivity. Qed.

Lemma pretty_date_length (date : Timestamp) :
  valid_date date = true → 1000 <= year date →
  String.length (yyyymmdd date) = 8%nat
  ∧ str_forallb is_digit (yyyymmdd date) = true.
Proof.
  intros Hdate H1000. pose proof Hdate as (Hy & Hm & Hd)%valid_date_inv.
  pose proof (strftime_length date Hdate) as Hlen.
  rewrite (strftime_yyyymmdd date Hdate H1000), str_length_app in Hlen.
  rewrite (pretty_Z_pos (year date)), pretty_year_length in Hlen by lia.
  cbn [String.length] in Hlen. split; [lia|].
  rewrite (yyyymmdd_pretty date Hdate H1000), pretty_Z_pos by lia.
  apply pretty_N_digits.
Qed.




(** C6. For a well-formed bar the integers written for the prices keep the
    order of the prices: low_i <= open_i <= high_i and
    low_i <= close_i <= high_i. The line is produced whenever the high
    price is at most [MAX_PRICE]. *)
Theorem price_order_preserved (date : Timestamp) (row : Row) :
  RawBar_ok row = true →
  (∀ line, format_row date row = inr line →
     ∃ open_i high_i low_i close_i,
       convert_price_value (Open row) = inr open_i
       ∧ convert_price_value (High row) = inr high_i
       ∧ convert_price_value (Low row) = inr low_i
       ∧ convert_price_value (Close row) = inr close_i
       ∧ low_i <= open_i <= high_i ∧ low_i <= close_i <= high_i)
  ∧ (Float.leb (High row) MAX_PRICE = true → ∃ line, format_row date row = inr line).
Proof.
  unfold RawBar_ok. intros H.
  split_andb H.
  assert (Wo : Float.well_formed (Open row)) by assumption.
  assert (Wh : Float.well_formed (High row)) by assumption.
  assert (Wl : Float.well_formed (Low row)) by assumption.
  assert (Wc : Float.well_formed (Close row)) by assumption.
  assert (Hall : ∀ high_i, convert_price_value (High row) = inr high_i →
            ∃ open_i low_i close_i,
              convert_price_value (Open row) = inr open_i
              ∧ convert_price_value (Low row) = inr low_i
              ∧ convert_price_value (Close row) = inr close_i
              ∧ low_i <= open_i <= high_i ∧ low_i <= close_i <= high_i).
  { intros h Hh.
    destruct (convert_price_value_mono (Open row) (High row) h) as (o & Ho & Hoh);
      try assumption.
    destruct (convert_price_value_mono (Close row) (High row) h) as (c & Hc & Hch);
      try assumption.
    destruct (convert_price_value_mono (Low row) (Open row) o) as (l & Hl & Hlo);
      try assumption.
    destruct (convert_price_value_mono (Low row) (Close row) c) as (l' & Hl' & Hlc);
      try assumption.
    assert (l' = l) by congruence. subst l'.
    exists o, l, c. repeat (split; [assumption|]). lia. }
  split.
  - intros line (o & h & l & c & v & Ho & Hh & Hl & Hc & _)%format_row_inv.
    destruct (Hall h Hh) as (o' & l' & c' & Ho' & Hl' & Hc' & Hord).
    exists o', h, l', c'. repeat (split; [assumption|]). exact Hord.
  - intros Hmax.
    destruct (convert_price_value_range (High row) Wh ltac:(assumption)) as [Hin _].
    destruct (Hin Hmax) as [_ Hh].
    destruct (Hall _ Hh) as (o & l & c & Ho & Hl & Hc & _).
    destruct (int_of_float_nonneg (Volume row) ltac:(assumption)) as [v Hv].
    rewrite (format_row_intro date row _ _ _ _ Ho Hh Hl Hc), Hv.
    eexists. reflexivity.
Qed.

Lemma price_order_preserved_witness :
  RawBar_ok aapl_row = true
  ∧ format_row aapl_date aapl_row = inr aapl_line
  ∧ ∃ open_i high_i low_i close_i,
      convert_price_value (Open aapl_row) = inr open_i
      ∧ convert_price_value (High aapl_row) = inr high_i
      ∧ convert_price_value (Low aapl_row) = inr low_i
      ∧ convert_price_value (Close aapl_row) = inr close_i
      ∧ low_i <= open_i <= high_i ∧ low_i <= close_i <= high_i.
Proof.
  split; [reflexivity|]. split; [vm_compute; reflexivity|].
  apply (proj1 (price_order_preserved aapl_date aapl_row eq_refl) aapl_line).
  vm_compute; reflexivity.
Defined.

(** * Letter case *)





Lemma isascii_upper s : isascii s = true → isascii (ascii_str_upper s) = true.
Proof.
  unfold isascii, ascii_str_upper. induction s as [|c s IH]; [reflexivity|].
  cbn [str_map str_forallb]. intros [H1 H2]%andb_prop. rewrite (IH H2), andb_true_r.
  revert H1. destruct c as [[] [] [] [] [] [] [] []]; (reflexivity || discriminate).
Qed.


(** * What a run leaves behind *)

Section Claims.

Variable upper lower : string → string.
Variable yf_download : string → string → string → DataFrame.

(** On ASCII strings [str.upper] and [str.lower] map the letters
    [a-z] and [A-Z] onto each other and leave the rest. *)
Hypothesis upper_isascii : ∀ s, isascii s = true → upper s = ascii_str_upper s.
Hypothesis lower_isascii : ∀ s, isascii s = true → lower s = ascii_str_lower s.

(** C3, as amended. After a run that succeeded the file at [zip_path],
    whose name is the lowercased symbol followed by [.zip], is an archive
    with exactly one entry; the entry is named as [zipfile] normalises the
    lowercased symbol followed by [.csv], which is that very name when the
    symbol has no slash, and holds the lines joined by single newlines,
    with none after the last line: splitting it at the newlines gives back
    the lines, of which there is at least one. *)
Theorem archive_holds_joined_records (argv : list string) (w : World) :
  let symbol := upper (nth 1 argv "") in
  let data := yf_download symbol (nth 2 argv "") (nth 3 argv "") in
  let symbol_lower := lower symbol in
  let run := main upper lower yf_download argv w in
  run.1 = inr tt →
  ∃ (lines : list string) (name : string),
    format_rows data [] = inr lines
    ∧ lines ≠ []
    ∧ zip_arcname false (symbol_lower +:+ ".csv") = inr name
    ∧ read_file run.2 (zip_path symbol_lower)
      = Some (ZipArchive ZIP_DEFLATED [(name, Plain (String.concat newline lines))])
    ∧ (str_contains "/" symbol_lower = false → name = symbol_lower +:+ ".csv")
    ∧ (∃ dir, zip_path symbol_lower = dir +:+ symbol_lower +:+ ".zip")
    ∧ split_on LF (String.concat newline lines) = lines.
Proof.
  intros symbol data symbol_lower run Hrun.
  destruct (main_success_world upper lower yf_download argv w Hrun)
    as (_ & Hne & lines & dir & l & name & Hfmt & Hname & Lcsv & Lzip & Dcsv & Dzip
        & Hfiles & _ & _ & _ & _ & Hplain).
  fold symbol data symbol_lower run in Hne, Hfmt, Hname, Lcsv, Lzip, Dcsv, Dzip, Hfiles, Hplain.
  exists lines, name. split; [exact Hfmt|]. split.
  { pose proof (format_rows_lines _ _ Hfmt) as Hall.
    destruct Hall; [contradiction|discriminate]. }
  split; [exact Hname|]. split.
  { unfold read_file. rewrite Lzip, Dzip, Hfiles.
    apply archived_zip, target_nodes_differ. }
  split; [intros Hs; apply (Hplain Hs)|]. split.
  - unfold zip_path, os_path_join. cbn [fold_left]. apply path_join2_suffix.
  - apply (lines_split data); assumption.
Qed.

(** C4. When the download yields no rows, [main] prints the "No data
    found" line, which is neither of the usage lines, and exits with
    status 1; the file system is as it was, so no archive was made. *)
Theorem no_data_exits_nonzero (argv : list string) (w : World) :
  (4 <= length argv)%nat →
  let symbol := upper (nth 1 argv "") in
  yf_download symbol (nth 2 argv "") (nth 3 argv "") = [] →
  (main upper lower yf_download argv w).1 = inl (SystemExit 1)
  ∧ exit_status (main upper lower yf_download argv w).1 = 1
  ∧ exit_status (main upper lower yf_download argv w).1 ≠ 0
  ∧ files (main upper lower yf_download argv w).2 = files w
  ∧ dirs (main upper lower yf_download argv w).2 = dirs w
  ∧ last (stdout (main upper lower yf_download argv w).2) = Some (no_data_line symbol)
  ∧ no_data_line symbol ≠ usage_line
  ∧ no_data_line symbol ≠ example_line.
Proof.
  intros Hlen symbol Hdata.
  rewrite (main_no_data upper lower yf_download argv w Hlen Hdata).
  cbn [fst snd files dirs stdout exit_status].
  repeat split; try discriminate.
  rewrite last_app. reflexivity.
Qed.

(** C5. After a run that succeeded the archived CSV has one line per row of
    the frame, in the order of the rows: its lines are the images of the
    rows under [format_row]. *)
Theorem one_line_per_bar_in_order (argv : list string) (w : World) :
  let symbol := upper (nth 1 argv "") in
  let data := yf_download symbol (nth 2 argv "") (nth 3 argv "") in
  let symbol_lower := lower symbol in
  let run := main upper lower yf_download argv w in
  run.1 = inr tt →
  ∃ (name csv : string),
    read_file run.2 (zip_path symbol_lower)
    = Some (ZipArchive ZIP_DEFLATED [(name, Plain csv)])
    ∧ length (split_on LF csv) = length data
    ∧ Forall2 (λ dr line, format_row dr.1 dr.2 = inr line) data (split_on LF csv).
Proof.
  intros symbol data symbol_lower run Hrun.
  destruct (main_success_world upper lower yf_download argv w Hrun)
    as (_ & Hne & _).
  destruct (main_success_archive upper lower yf_download argv w Hrun)
    as (lines & name & Hfmt & _ & Hzip & _).
  fold symbol data symbol_lower run in Hne, Hfmt, Hzip.
  exists name, (String.concat newline lines).
  rewrite (lines_split data lines Hne Hfmt).
  pose proof (format_rows_lines data lines Hfmt) as Hall.
  split; [exact Hzip|]. split; [|exact Hall].
  symmetry. apply (Forall2_length _ _ _ Hall).
Qed.

(** C8. A second run with the same arguments and the same download, from
    where a successful run ended, succeeds and leaves the files and the
    directories exactly as they were; and a successful run leaves the same
    archive whatever the tree held before, so an earlier archive at that
    path is replaced, not extended. *)
Theorem rerun_gives_same_archive (argv : list string) (w : World) :
  let symbol := upper (nth 1 argv "") in
  let data := yf_download symbol (nth 2 argv "") (nth 3 argv "") in
  let symbol_lower := lower symbol in
  let first := main upper lower yf_download argv w in
  let second := main upper lower yf_download argv first.2 in
  first.1 = inr tt →
  second.1 = inr tt
  ∧ files second.2 = files first.2
  ∧ dirs second.2 = dirs first.2
  ∧ ∃ (lines : list string) (name : string),
      format_rows data [] = inr lines
      ∧ read_file first.2 (zip_path symbol_lower)
        = Some (ZipArchive ZIP_DEFLATED [(name, Plain (String.concat newline lines))])
      ∧ read_file second.2 (zip_path symbol_lower)
        = read_file first.2 (zip_path symbol_lower)
      ∧ ∀ w' : World,
          (main upper lower yf_download argv w').1 = inr tt →
          read_file (main upper lower yf_download argv w').2 (zip_path symbol_lower)
          = read_file first.2 (zip_path symbol_lower).
Proof.
  intros symbol data symbol_lower first second Hrun.
  destruct (main_rerun upper lower yf_download argv w Hrun) as (Hsecond & _ & Hfiles & Hdirs).
  fold first second in Hsecond, Hfiles, Hdirs.
  split; [exact Hsecond|]. split; [exact Hfiles|]. split; [exact Hdirs|].
  destruct (main_success_archive upper lower yf_download argv w Hrun)
    as (lines & name & Hfmt & Hname & Hzip & _).
  fold symbol data symbol_lower first in Hfmt, Hname, Hzip.
  exists lines, name. split; [exact Hfmt|]. split; [exact Hzip|].
  assert (Hany : ∀ w' : World,
            (main upper lower yf_download argv w').1 = inr tt →
            read_file (main upper lower yf_download argv w').2 (zip_path symbol_lower)
            = Some (ZipArchive ZIP_DEFLATED [(name, Plain (String.concat newline lines))])).
  { intros w' Hrun'.
    destruct (main_success_archive upper lower yf_download argv w' Hrun')
      as (lines' & name' & Hfmt' & Hname' & Hzip' & _).
    fold symbol data symbol_lower in Hfmt', Hname', Hzip'.
    rewrite Hzip'. congruence. }
  rewrite Hzip. split; [apply Hany; exact Hsecond|exact Hany].
Qed.


Lemma aapl_case : isascii "AAPL" = true ∧ ascii_str_upper "AAPL" = "AAPL"
  ∧ ascii_str_lower "AAPL" = "aapl".
Proof. repeat split; reflexivity. Qed.

(** C7. With the bar of 2023-01-03 (open 130.0, high 131.5, low 129.25,
    close 131.0, volume 1000) as the only row downloaded for AAPL, the
    row is encoded as [20230103 00:00,1300000,1315000,1292500,1310000,1000];
    the run succeeds exactly when nothing stands in the way of
    [output_dir], [aapl.csv] and [aapl.zip] in the tree, and then the
    archive holds the one entry [aapl.csv] with exactly that line. *)
Theorem aapl_scenario (argv0 start_date end_date : string) (w : World) :
  yf_download "AAPL" start_date end_date = [(aapl_date, aapl_row)] →
  let run := main upper lower yf_download [argv0; "AAPL"; start_date; end_date] w in
  format_row aapl_date aapl_row = inr aapl_line
  ∧ (run.1 = inr tt ↔ can_archive w "aapl" = true)
  ∧ (run.1 = inr tt →
     read_file run.2 (zip_path "aapl")
     = Some (ZipArchive ZIP_DEFLATED [("aapl.csv", Plain aapl_line)]))
  ∧ split_on LF aapl_line = [aapl_line].
Proof.
  intros Hdata run.
  assert (Hrow : format_row aapl_date aapl_row = inr aapl_line) by (vm_compute; reflexivity).
  destruct aapl_case as (Hascii & Hup & Hlo).
  assert (Eup : upper "AAPL" = "AAPL") by (rewrite upper_isascii; assumption).
  assert (Elo : lower "AAPL" = "aapl") by (rewrite lower_isascii; assumption).
  split; [exact Hrow|].
  set (argv := [argv0; "AAPL"; start_date; end_date]) in *.
  assert (Esym : upper (nth 1 argv "") = "AAPL") by exact Eup.
  assert (Hfmt : format_rows (yf_download (upper (nth 1 argv "")) (nth 2 argv "")
                                (nth 3 argv "")) [] = inr [aapl_line]).
  { rewrite Esym. cbn [argv nth]. rewrite Hdata. cbn [format_rows]. rewrite Hrow. reflexivity. }
  split.
  - rewrite <- Elo, <- Esym.
    apply (main_success_plain upper lower yf_download argv w [aapl_line]).
    + cbn. lia.
    + rewrite Esym. cbn [argv nth]. rewrite Hdata. discriminate.
    + exact Hfmt.
    + rewrite Esym, Elo. reflexivity.
    + rewrite Esym, Elo. reflexivity.
  - split; [|reflexivity]. intros Hrun.
    destruct (main_success_archive upper lower yf_download argv w Hrun)
      as (lines & name & Hfmt' & Hname & Hzip & _).
    fold run in Hzip. rewrite Esym, Elo in Hname, Hzip.
    rewrite Hfmt in Hfmt'. injection Hfmt' as <-.
    vm_compute in Hname. injection Hname as <-. exact Hzip.
Qed.


End Claims.

(** * The scenarios, run *)

Lemma two_bar_run :
  (main ascii_str_upper ascii_str_lower two_bar_download two_bar_argv fresh_world).1 = inr tt.
Proof. vm_compute. reflexivity. Defined.

Lemma aapl_run :
  (main ascii_str_upper ascii_str_lower aapl_download aapl_argv fresh_world).1 = inr tt.
Proof. vm_compute. reflexivity. Defined.

Lemma archive_holds_joined_records_witness :
  let run := main ascii_str_upper ascii_str_lower two_bar_download two_bar_argv fresh_world in
  read_file run.2 (zip_path "aapl")
  = Some (ZipArchive ZIP_DEFLATED
            [("aapl.csv", Plain (aapl_line +:+ newline +:+ next_line))])
  ∧ split_on LF (aapl_line +:+ newline +:+ next_line) = [aapl_line; next_line].
Proof.
  destruct (archive_holds_joined_records ascii_str_upper ascii_str_lower two_bar_download
              two_bar_argv fresh_world two_bar_run)
    as (lines & name & Hfmt & _ & Hname & Hzip & _ & _ & Hsplit).
  vm_compute in Hfmt. injection Hfmt as <-.
  vm_compute in Hname. injection Hname as <-.
  split; [exact Hzip|exact Hsplit].
Defined.

(** C3 as stated fails on the entry name: for the symbol [./aapl] the
    run succeeds and the archive, at [aapl.zip] in [output_dir], holds an
    entry named [aapl.csv], not [./aapl.csv]. *)
Lemma entry_name_is_normalised :
  let run := main ascii_str_upper ascii_str_lower two_bar_download dot_slash_argv fresh_world in
  let symbol_lower := ascii_str_lower (ascii_str_upper (nth 1 dot_slash_argv "")) in
  run.1 = inr tt
  ∧ symbol_lower = "./aapl"
  ∧ read_file run.2 (zip_path symbol_lower)
    = Some (ZipArchive ZIP_DEFLATED
              [("aapl.csv", Plain (aapl_line +:+ newline +:+ next_line))])
  ∧ "aapl.csv" ≠ symbol_lower +:+ ".csv".
Proof.
  cbv zeta. repeat split; try (vm_compute; reflexivity). vm_compute. discriminate.
Qed.

Lemma no_data_exits_nonzero_witness :
  let argv := ["download_data.py"; "msft"; "2023-01-01"; "2023-01-03"] in
  let run := main ascii_str_upper ascii_str_lower aapl_download argv fresh_world in
  run.1 = inl (SystemExit 1)
  ∧ exit_status run.1 = 1
  ∧ exit_status run.1 ≠ 0
  ∧ files run.2 = files fresh_world
  ∧ dirs run.2 = dirs fresh_world
  ∧ last (stdout run.2) = Some (no_data_line "MSFT")
  ∧ no_data_line "MSFT" ≠ usage_line
  ∧ no_data_line "MSFT" ≠ example_line.
Proof.
  intros argv.
  refine (no_data_exits_nonzero ascii_str_upper ascii_str_lower aapl_download argv
            fresh_world _ _);
    [simpl; lia|vm_compute; reflexivity].
Defined.

Lemma one_line_per_bar_in_order_witness :
  let run := main ascii_str_upper ascii_str_lower two_bar_download two_bar_argv fresh_world in
  ∃ (name csv : string),
    read_file run.2 (zip_path "aapl") = Some (ZipArchive ZIP_DEFLATED [(name, Plain csv)])
    ∧ length (split_on LF csv) = 2%nat
    ∧ Forall2 (λ dr line, format_row dr.1 dr.2 = inr line)
        [(aapl_date, aapl_row); (next_date, next_row)] (split_on LF csv).
Proof.
  exact (one_line_per_bar_in_order ascii_str_upper ascii_str_lower two_bar_download
           two_bar_argv fresh_world two_bar_run).
Defined.

Lemma two_bar_run_over_stale_archive :
  (main ascii_str_upper ascii_str_lower two_bar_download two_bar_argv stale_world).1 = inr tt.
Proof. vm_compute. reflexivity. Defined.

Lemma rerun_gives_same_archive_witness :
  let first := main ascii_str_upper ascii_str_lower two_bar_download two_bar_argv stale_world in
  let second := main ascii_str_upper ascii_str_lower two_bar_download two_bar_argv first.2 in
  read_file stale_world (zip_path "aapl") = Some stale_archive
  ∧ read_file first.2 (zip_path "aapl")
    = Some (ZipArchive ZIP_DEFLATED
              [("aapl.csv", Plain (aapl_line +:+ newline +:+ next_line))])
  ∧ second.1 = inr tt
  ∧ files second.2 = files first.2
  ∧ dirs second.2 = dirs first.2
  ∧ read_file second.2 (zip_path "aapl") = read_file first.2 (zip_path "aapl").
Proof.
  destruct (rerun_gives_same_archive ascii_str_upper ascii_str_lower two_bar_download
              two_bar_argv stale_world two_bar_run_over_stale_archive)
    as (H1 & H2 & H3 & lines & name & Hfmt & Hzip & H4 & Hany).
  split; [vm_compute; reflexivity|].
  split.
  { etrans; [symmetry; exact (Hany fresh_world two_bar_run)|vm_compute; reflexivity]. }
  split; [exact H1|]. split; [exact H2|]. split; [exact H3|exact H4].
Defined.


Lemma aapl_scenario_witness :
  let run := main ascii_str_upper ascii_str_lower aapl_download aapl_argv fresh_world in
  format_row aapl_date aapl_row = inr aapl_line
  ∧ (run.1 = inr tt ↔ can_archive fresh_world "aapl" = true)
  ∧ (run.1 = inr tt →
     read_file run.2 (zip_path "aapl")
     = Some (ZipArchive ZIP_DEFLATED [("aapl.csv", Plain aapl_line)]))
  ∧ split_on LF aapl_line = [aapl_line].
Proof.
  exact (aapl_scenario ascii_str_upper ascii_str_lower aapl_download
           (λ s _, eq_refl) (λ s _, eq_refl)
           "download_data.py" "2023-01-01" "2023-01-03" fresh_world eq_refl).
Defined.



(** * Further properties of the script *)

(** ** Negative prices and exact products *)

(** X1. [convert_price_value] is odd: negating the price negates the
    result, and an exception stays the same exception. *)
Theorem convert_price_value_odd (x : spec_float) :
  convert_price_value (SFopp x) = opp_result (convert_price_value x).
Proof.
  unfold convert_price_value. rewrite mul_opp. apply int_of_float_opp.
Qed.

(** X2. On every representable float the conversion is decided by the
    magnitude: a NaN raises [ValueError]; a price of magnitude at most
    [MAX_PRICE] gives the product truncated toward zero; anything larger,
    the infinities included, raises [OverflowError]. *)
Theorem convert_price_value_domain (x : spec_float) :
  Float.well_formed x →
  convert_price_value x
  = match x with
    | S754_nan => inl ValueError
    | _ => if Float.leb (SFabs x) MAX_PRICE then inr (truncated_product x)
           else inl OverflowError
    end.
Proof.
  intros Hwf. destruct x as [s|s| |s m e].
  - destruct s; reflexivity.
  - destruct s; reflexivity.
  - reflexivity.
  - assert (Wp : Float.well_formed (S754_finite false m e)) by exact Hwf.
    destruct (convert_price_value_range (S754_finite false m e) Wp eq_refl) as [Hin Hout].
    cbn [SFabs]. unfold truncated_product. cbn [sign_bit SFabs].
    destruct s.
    + change (S754_finite true m e) with (SFopp (S754_finite false m e)).
      unfold convert_price_value at 1. rewrite mul_opp, int_of_float_opp.
      fold (convert_price_value (S754_finite false m e)).
      destruct (Float.leb (S754_finite false m e) MAX_PRICE).
      * destruct (Hin eq_refl) as [_ ->]. reflexivity.
      * rewrite (Hout eq_refl). reflexivity.
    + destruct (Float.leb (S754_finite false m e) MAX_PRICE).
      * destruct (Hin eq_refl) as [_ ->]. reflexivity.
      * rewrite (Hout eq_refl). reflexivity.
Qed.

Lemma convert_price_value_domain_witness :
  convert_price_value (SFopp (Float.of_int 130)) = inr (-1300000).
Proof.
  rewrite (convert_price_value_domain (SFopp (Float.of_int 130)) eq_refl).
  vm_compute. reflexivity.
Defined.

(** X3. Up to a price of 900719925474 the integer written is the floor of
    the exact product of the price and 10000, or one more: the only error
    is the rounding of the floating-point product, which can lift a product
    just below an integer onto it. *)
Theorem convert_price_value_within_one (x : spec_float) :
  Float.well_formed x → Float.is_nonneg x = true →
  Float.leb x UNIT_SPACED_PRICE = true →
  ∃ v, convert_price_value x = inr v
       ∧ floor_of_exact_product x <= v <= floor_of_exact_product x + 1.
Proof.
  intros Wx Nx Hle.
  rewrite leb_scaled in Hle by (assumption || reflexivity). apply Z.leb_le in Hle.
  assert (Hlim : Float.scaled UNIT_SPACED_PRICE = 900719925474 * 2 ^ 1074)
    by (vm_compute; reflexivity).
  rewrite Hlim in Hle. clear Hlim.
  pose proof (scaled_nonneg x) as H0.
  pose proof (pow2_pos 1074 ltac:(lia)) as HU. pose proof (pow2_pos 39 ltac:(lia)) as H39.
  set (K := floor_of_exact_product x).
  assert (HK : 0 <= K <= 9007199254740000).
  { subst K. unfold floor_of_exact_product, MULTIPLIER. split.
    - apply Z.div_pos; lia.
    - apply Z.div_le_upper_bound; lia. }
  assert (Hbetween : K * 2 ^ 1113 <= Float.scaled x * Z.pos multiplier_mantissa
                     < (K + 1) * 2 ^ 1113).
  { rewrite product_scaled. change (2 ^ 1113) with (2 ^ 1074 * 2 ^ 39).
    pose proof (Z.div_mod (Float.scaled x * MULTIPLIER) (2 ^ 1074) ltac:(lia)) as Hdm.
    pose proof (Z.mod_pos_bound (Float.scaled x * MULTIPLIER) (2 ^ 1074) HU) as Hmb.
    fold (floor_of_exact_product x) in Hdm. fold K in Hdm.
    set (A := 2 ^ 1074) in *. set (B := 2 ^ 39) in *.
    set (S := Float.scaled x * MULTIPLIER) in *.
    split; nia. }
  destruct (round_scaled_between _ K ltac:(lia) ltac:(change (2 ^ 53) with 9007199254740992; lia)
              Hbetween) as [Hfin Hv].
  rewrite convert_price_value_scaled by assumption. cbv zeta.
  apply Z.ltb_lt in Hfin. rewrite Hfin.
  eexists. split; [reflexivity|exact Hv].
Qed.

Lemma convert_price_value_within_one_witness :
  let price := Float.div (Float.of_int 7) (Float.of_int 10000) in
  floor_of_exact_product price = 6
  ∧ ∃ v, convert_price_value price = inr v
         ∧ floor_of_exact_product price <= v <= floor_of_exact_product price + 1.
Proof.
  split; [vm_compute; reflexivity|].
  apply (convert_price_value_within_one (Float.div (Float.of_int 7) (Float.of_int 10000)));
    vm_compute; reflexivity.
Defined.

(** The bound is reached: 0.0007 is a float just below 7/10000, the exact
    product is just below 7, and the integer written is 7. *)
Example convert_price_value_one_above :
  let price := Float.div (Float.of_int 7) (Float.of_int 10000) in
  floor_of_exact_product price = 6 ∧ convert_price_value price = inr 7.
Proof. split; vm_compute; reflexivity. Qed.

(** X4. When the exact product of a non-negative price and 10000 is an
    integer [k <= 2^53], the integer written is [k]: such prices, the whole
    numbers and the binary fractions among them, are encoded without
    error. *)
Theorem convert_price_value_exact (x : spec_float) (k : Z) :
  Float.well_formed x → Float.is_nonneg x = true →
  Float.scaled x * MULTIPLIER = k * 2 ^ 1074 → k <= 2 ^ 53 →
  convert_price_value x = inr k.
Proof.
  intros Wx Nx Hk H53.
  pose proof (scaled_nonneg x) as H0.
  pose proof (pow2_pos 1074 ltac:(lia)) as HU.
  assert (Hk0 : 0 <= k) by (unfold MULTIPLIER in Hk; nia).
  rewrite convert_price_value_scaled by assumption. cbv zeta.
  rewrite product_scaled, Hk.
  replace (k * 2 ^ 1074 * 2 ^ 39) with (k * 2 ^ 1113)
    by (rewrite <- Z.mul_assoc, <- Z.pow_add_r by lia; reflexivity).
  rewrite round_scaled_representable by lia.
  assert (Hlt : k * 2 ^ 1113 < 2 ^ 2137).
  { apply Z.le_lt_trans with (2 ^ 53 * 2 ^ 1113).
    - apply Z.mul_le_mono_nonneg_r; [apply Z.lt_le_incl, pow2_pos; lia|assumption].
    - rewrite <- Z.pow_add_r by lia. apply Z.pow_lt_mono_r; lia. }
  apply Z.ltb_lt in Hlt. rewrite Hlt. f_equal.
  apply Z.div_mul. pose proof (pow2_pos 1113 ltac:(lia)). lia.
Qed.

Lemma convert_price_value_exact_witness :
  convert_price_value (Float.div (Float.of_int 517) (Float.of_int 4)) = inr 1292500.
Proof.
  apply (convert_price_value_exact (Float.div (Float.of_int 517) (Float.of_int 4)) 1292500);
    vm_compute; (reflexivity || discriminate).
Defined.

(** ** Reading a line back *)

Lemma digit_value_pretty (x : N) :
  (x < 10)%N → digit_value (pretty_N_char x) = Z.of_N x.
Proof.
  intros Hx.
  assert (Hall : forallb (λ n, digit_value (pretty_N_char (N.of_nat n)) =? Z.of_nat n)
                   (seq 0 10) = true) by (vm_compute; reflexivity).
  rewrite forallb_forall in Hall.
  specialize (Hall (N.to_nat x)). rewrite N2Nat.id in Hall.
  rewrite N_nat_Z in Hall. apply Z.eqb_eq, Hall. apply in_seq. lia.
Qed.

Lemma parse_digits_pretty_go (x : N) (s : string) :
  parse_digits 0 (pretty_N_go x s) = parse_digits (Z.of_N x) s.
Proof.
  revert s. induction (N.lt_wf_0 x) as [x _ IH]; intros s.
  destruct (decide (x = 0%N)) as [->|Hx].
  - rewrite pretty_N_go_0. reflexivity.
  - rewrite pretty_N_go_step by lia.
    rewrite IH by (apply N.div_lt; lia). cbn [parse_digits].
    rewrite digit_value_pretty by (apply N.mod_lt; lia).
    f_equal. rewrite (N.div_mod x 10) at 3 by lia.
    rewrite N2Z.inj_add, N2Z.inj_mul. change (Z.of_N 10) with 10. lia.
Qed.

Lemma parse_digits_pretty (x : N) : parse_digits 0 (pretty x) = Z.of_N x.
Proof.
  unfold pretty, pretty_N. case_decide as Hx; [subst; reflexivity|].
  apply parse_digits_pretty_go.
Qed.

Lemma parse_int_digits (s : string) :
  str_forallb is_digit s = true → parse_int s = parse_digits 0 s.
Proof.
  destruct s as [|c s]; [reflexivity|]. cbn [str_forallb]. intros [Hc _]%andb_prop.
  unfold parse_int. destruct (Ascii.eqb_spec c "-") as [->|Hne]; [discriminate Hc|].
  destruct c as [[] [] [] [] [] [] [] []]; try reflexivity. contradiction Hne. reflexivity.
Qed.

(** [int(str(z)) == z] *)
Lemma parse_int_pretty (z : Z) : parse_int (pretty z) = z.
Proof.
  destruct z as [|p|p].
  - reflexivity.
  - change (pretty (Z.pos p)) with (pretty (N.pos p)).
    rewrite parse_int_digits by apply pretty_N_digits.
    apply parse_digits_pretty.
  - change (pretty (Z.neg p)) with ("-" +:+ pretty (N.pos p)).
    change ("-" +:+ pretty (N.pos p)) with (String "-" (pretty (N.pos p))).
    cbn [parse_int]. rewrite parse_digits_pretty. reflexivity.
Qed.

Lemma pretty_N_no_space (x : N) : str_forallb (differs " ") (pretty x) = true.
Proof.
  apply str_forallb_impl with (P := is_digit); [|apply pretty_N_digits].
  intros c Hc. unfold differs.
  destruct (Ascii.eqb_spec c " "); [subst; discriminate|reflexivity].
Qed.

(** X5. Reading a line back gives what was written: for a valid date the
    reader of lines returns the number [year * 10000 + month * 100 + day]
    of the date, the time [00:00], the four integers of the prices and
    the integer of the volume. *)
Theorem parse_line_format_row (date : Timestamp) (row : Row) (line : string) :
  valid_date date = true →
  format_row date row = inr line →
  ∃ open_i high_i low_i close_i volume_i,
    convert_price_value (Open row) = inr open_i
    ∧ convert_price_value (High row) = inr high_i
    ∧ convert_price_value (Low row) = inr low_i
    ∧ convert_price_value (Close row) = inr close_i
    ∧ int_of_float (Volume row) = inr volume_i
    ∧ parse_line line
      = Some (year date * 10000 + month date * 100 + day date, "00:00",
              open_i, high_i, low_i, close_i, volume_i).
Proof.
  intros Hdate (o & h & l & c & v & Ho & Hh & Hl & Hc & Hv & ->)%format_row_inv.
  exists o, h, l, c, v. repeat (split; [assumption|]).
  unfold parse_line. rewrite line_fields_split.
  rewrite (strftime_digits date Hdate).
  pose proof Hdate as (Hy & Hm & Hd)%valid_date_inv.
  set (n := year date * 10000 + month date * 100 + day date).
  assert (Hn : 0 < n) by (subst n; lia).
  change (pretty n +:+ " 00:00") with (pretty n +:+ String " " "00:00").
  rewrite split_on_app by (rewrite pretty_Z_pos by exact Hn; apply pretty_N_no_space).
  change (split_on " " "00:00") with ["00:00"].
  rewrite !parse_int_pretty. reflexivity.
Qed.

Lemma parse_line_format_row_witness :
  parse_line aapl_line = Some (20230103, "00:00", 1300000, 1315000, 1292500, 1310000, 1000).
Proof.
  destruct (parse_line_format_row aapl_date aapl_row aapl_line eq_refl)
    as (o & h & l & c & v & Ho & Hh & Hl & Hc & Hv & Hparse); [vm_compute; reflexivity|].
  vm_compute in Ho, Hh, Hl, Hc, Hv.
  injection Ho as <-. injection Hh as <-. injection Hl as <-. injection Hc as <-.
  injection Hv as <-. exact Hparse.
Defined.

(** ** Failing rows *)

Lemma convert_price_value_exn (x : spec_float) (e : exn) :
  convert_price_value x = inl e → e = OverflowError ∨ e = ValueError.
Proof.
  unfold convert_price_value.
  destruct (Float.mul x (Float.of_int MULTIPLIER)); cbn [int_of_float];
    intros [= <-]; auto.
Qed.

Lemma format_row_exn (date : Timestamp) (row : Row) (e : exn) :
  format_row date row = inl e → e = OverflowError ∨ e = ValueError.
Proof.
  unfold format_row.
  destruct (convert_price_value (Open row)) as [e1|o] eqn:Ho.
  { intros [= <-]. exact (convert_price_value_exn _ _ Ho). }
  destruct (convert_price_value (High row)) as [e2|h] eqn:Hh.
  { intros [= <-]. exact (convert_price_value_exn _ _ Hh). }
  destruct (convert_price_value (Low row)) as [e3|l] eqn:Hl.
  { intros [= <-]. exact (convert_price_value_exn _ _ Hl). }
  destruct (convert_price_value (Close row)) as [e4|c] eqn:Hc.
  { intros [= <-]. exact (convert_price_value_exn _ _ Hc). }
  destruct (Volume row); cbn [int_of_float]; intros [= <-]; auto.
Qed.

Lemma format_rows_exn (data : DataFrame) (acc : list string) (e : exn) :
  format_rows data acc = inl e → e = OverflowError ∨ e = ValueError.
Proof.
  revert acc. induction data as [|[d r] rest IH]; intros acc; cbn [format_rows].
  - discriminate.
  - destruct (format_row d r) as [e'|line] eqn:Hrow.
    + intros [= <-]. exact (format_row_exn d r e' Hrow).
    + apply IH.
Qed.

(** X7. The loop stops at the first row that does not convert: it raises
    an exception exactly when some row fails after rows that all succeed,
    and the exception is that row's, whatever rows come after it. *)
Theorem format_rows_first_failure (data : DataFrame) (e : exn) :
  format_rows data [] = inl e
  ↔ ∃ before date row after lines,
      data = before ++ (date, row) :: after
      ∧ format_rows before [] = inr lines
      ∧ format_row date row = inl e.
Proof.
  assert (Hgen : ∀ data acc,
            format_rows data acc = inl e
            ↔ ∃ before date row after new,
                data = before ++ (date, row) :: after
                ∧ Forall2 (λ dr line, format_row dr.1 dr.2 = inr line) before new
                ∧ format_row date row = inl e).
  { clear data. intros data. induction data as [|[d r] rest IH]; intros acc.
    - split; [discriminate|]. intros (before & ? & ? & ? & ? & Heq & _).
      destruct before; discriminate Heq.
    - cbn [format_rows]. destruct (format_row d r) as [e'|line] eqn:Hrow.
      + split.
        * intros [= ->]. exists [], d, r, rest, []. repeat split; [constructor|exact Hrow].
        * intros (before & d' & r' & after & new & Heq & Hall & Hfail).
          destruct Hall as [|[d0 r0] l0 ? ? H0 _].
          -- injection Heq as -> -> _. congruence.
          -- injection Heq as -> -> _. cbn [fst snd] in H0. congruence.
      + rewrite IH. split.
        * intros (before & d' & r' & after & new & -> & Hall & Hfail).
          exists ((d, r) :: before), d', r', after, (line :: new).
          repeat split; [constructor; assumption|exact Hfail].
        * intros (before & d' & r' & after & new & Heq & Hall & Hfail).
          destruct Hall as [|[d0 r0] l0 before' new' H0 Hall'].
          -- injection Heq as -> -> _. congruence.
          -- injection Heq as -> -> ->.
             exists before', d', r', after, new'. repeat split; assumption. }
  rewrite Hgen. split.
  - intros (before & d & r & after & new & Heq & Hall & Hfail).
    exists before, d, r, after, new. repeat split; try assumption.
    rewrite (format_rows_complete before [] new Hall). reflexivity.
  - intros (before & d & r & after & lines & Heq & Hok & Hfail).
    exists before, d, r, after, lines. repeat split; try assumption.
    apply format_rows_lines, Hok.
Qed.

(** ** Paths *)

(** X6. Where the files go depends on the first character of the
    lowercased symbol. A symbol that does not start with [/] is placed in
    [output_dir]; for one that does, [os.path.join] drops the directory and
    the staging file and the archive are the lowercased symbol itself
    followed by [.csv] and [.zip]. The empty symbol gives the names [.csv]
    and [.zip] in [output_dir]. For an ASCII symbol the first character of
    the lowercased symbol is a slash exactly when the symbol given on the
    command line starts with one. *)
Theorem paths_follow_symbol (upper lower : string → string) (arg : string) :
  (∀ s, isascii s = true → upper s = ascii_str_upper s) →
  (∀ s, isascii s = true → lower s = ascii_str_lower s) →
  let symbol_lower := lower (upper arg) in
  csv_path symbol_lower
  = (if startswith "/" symbol_lower then symbol_lower +:+ ".csv"
     else output_dir +:+ "/" +:+ symbol_lower +:+ ".csv")
  ∧ zip_path symbol_lower
    = (if startswith "/" symbol_lower then symbol_lower +:+ ".zip"
       else output_dir +:+ "/" +:+ symbol_lower +:+ ".zip")
  ∧ (isascii arg = true → startswith "/" symbol_lower = startswith "/" arg).
Proof.
  intros Hup Hlo symbol_lower.
  rewrite csv_path_stem, zip_path_stem. unfold path_stem.
  split; [|split].
  - destruct (startswith "/" symbol_lower); [reflexivity|]. rewrite !str_app_assoc. reflexivity.
  - destruct (startswith "/" symbol_lower); [reflexivity|]. rewrite !str_app_assoc. reflexivity.
  - intros Harg. unfold symbol_lower.
    rewrite (Hup arg Harg), (Hlo _ (isascii_upper arg Harg)).
    destruct arg as [|c s]; [reflexivity|]. cbn.
    destruct c as [[] [] [] [] [] [] [] []]; reflexivity.
Qed.

Lemma paths_follow_symbol_witness :
  csv_path "/tmp/aapl" = "/tmp/aapl.csv"
  ∧ zip_path "/tmp/aapl" = "/tmp/aapl.zip".
Proof.
  destruct (paths_follow_symbol ascii_str_upper ascii_str_lower "/tmp/AAPL"
              (λ s _, eq_refl) (λ s _, eq_refl)) as (Hcsv & Hzip & _).
  split; [exact Hcsv|exact Hzip].
Defined.

(** ** Width of the timestamp *)

(** X12. For a valid date the timestamp is the year as [str] prints it
    followed by ten characters; with a year of four digits it has exactly
    14 characters, the first eight of them the digits YYYYMMDD. *)
Theorem strftime_fixed_width (date : Timestamp) :
  valid_date date = true →
  String.length (strftime date) = (String.length (pretty (year date)) + 10)%nat
  ∧ (1000 <= year date →
     String.length (strftime date) = 14%nat
     ∧ strftime date = yyyymmdd date +:+ " 00:00"
     ∧ String.length (yyyymmdd date) = 8%nat
     ∧ str_forallb is_digit (yyyymmdd date) = true).
Proof.
  intros Hdate. split; [apply strftime_length, Hdate|].
  intros H1000. pose proof Hdate as (Hy & _)%valid_date_inv.
  destruct (pretty_date_length date Hdate H1000) as [H8 Hdigits].
  split.
  - rewrite (strftime_length date Hdate), (pretty_Z_pos (year date)) by lia.
    rewrite pretty_year_length by lia. reflexivity.
  - split; [apply strftime_yyyymmdd; assumption|]. split; assumption.
Qed.

Lemma strftime_fixed_width_witness :
  String.length (strftime aapl_date) = 14%nat
  ∧ strftime aapl_date = "20230103 00:00".
Proof.
  destruct (strftime_fixed_width aapl_date eq_refl) as [_ H].
  destruct (H ltac:(simpl; lia)) as (H14 & _).
  split; [exact H14|reflexivity].
Defined.

(** ** Failing runs *)




(** Making [output_dir] where no regular file is in the way, and walking
    down to it afterwards. *)
Lemma output_dir_made (w : World) :
  Forall (λ n, is_dir w n = true ∨ files w !! n = None) (output_nodes w) →
  (os_makedirs output_dir w).1 = inr tt
  ∧ walk (os_makedirs output_dir w).2 (cwd w) [lean_data_dir; "equity"; "usa"; "daily"]
    = inr (output_node w).
Proof.
  intros Hall.
  assert (Hmade : (os_makedirs output_dir w).1 = inr tt).
  { rewrite os_makedirs_output_dir. apply makedirs_from_ok.
    rewrite path_nodes_output_dir. exact Hall. }
  split; [exact Hmade|].
  rewrite <- split_on_output_dir at 1. rewrite walk_nodes.
  - rewrite split_on_output_dir, fold_step_output_dir. reflexivity.
  - apply (makedirs_from_dirs w). rewrite <- os_makedirs_output_dir.
    destruct (os_makedirs output_dir w) as [r wd]. cbn [fst snd] in *.
    rewrite Hmade. reflexivity.
Qed.

Section Failures.

Variable upper lower : string → string.
Variable yf_download : string → string → string → DataFrame.

(** X8. With fewer than three arguments after the program name, [main]
    prints the two usage lines and exits with status 1 without asking the
    provider anything: whatever the provider, the outcome is the same and
    the files and directories are as they were. *)
Theorem usage_error_exits (argv : list string) (w : World) :
  (length argv < 4)%nat →
  main upper lower yf_download argv w
  = (inl (SystemExit 1),
     mkWorld (cwd w) (files w) (dirs w) (stdout w ++ [usage_line; example_line]))
  ∧ exit_status (main upper lower yf_download argv w).1 = 1
  ∧ ∀ other : string → string → string → DataFrame,
      main upper lower other argv w = main upper lower yf_download argv w.
Proof.
  intros Hlen. rewrite (main_usage upper lower yf_download argv w Hlen).
  split; [reflexivity|]. split; [reflexivity|].
  intros other. apply main_usage. exact Hlen.
Qed.

(** X9. When a row of the downloaded frame does not convert, the run ends
    with that row's exception, [OverflowError] or [ValueError], and exit
    status 1 before the directory is made or any file is written: only the
    "Downloading" line has been printed, and files and directories are as
    they were. *)
Theorem conversion_failure_writes_nothing (argv : list string) (w : World) (e : exn) :
  (4 <= length argv)%nat →
  let symbol := upper (nth 1 argv "") in
  let data := yf_download symbol (nth 2 argv "") (nth 3 argv "") in
  format_rows data [] = inl e →
  (e = OverflowError ∨ e = ValueError)
  ∧ (main upper lower yf_download argv w).1 = inl e
  ∧ exit_status (main upper lower yf_download argv w).1 = 1
  ∧ files (main upper lower yf_download argv w).2 = files w
  ∧ dirs (main upper lower yf_download argv w).2 = dirs w
  ∧ stdout (main upper lower yf_download argv w).2
    = stdout w ++ [downloading_line symbol (nth 2 argv "") (nth 3 argv "")].
Proof.
  intros Hlen symbol data Hfmt.
  assert (Hne : data ≠ []) by (intros Hnil; rewrite Hnil in Hfmt; discriminate Hfmt).
  pose proof (format_rows_exn _ _ _ Hfmt) as He.
  rewrite (main_conversion_failure upper lower yf_download argv w e Hlen Hne Hfmt).
  cbn [fst snd files dirs stdout].
  split; [exact He|]. split; [reflexivity|].
  split; [destruct He as [-> | ->]; reflexivity|]. repeat split; reflexivity.
Qed.


(** X11. A successful run prints four lines, in this order: the
    "Downloading" line, the "Saving" line, the "Data ready" line with the
    path of the archive, and the count line, whose number is the number of
    rows of the downloaded frame. The directories it leaves are those that
    were there and those of [output_dir] and above that were missing: all
    of these exist afterwards. *)
Theorem success_report (argv : list string) (w : World) :
  let symbol := upper (nth 1 argv "") in
  let data := yf_download symbol (nth 2 argv "") (nth 3 argv "") in
  let run := main upper lower yf_download argv w in
  run.1 = inr tt →
  stdout run.2
  = stdout w ++ [downloading_line symbol (nth 2 argv "") (nth 3 argv "");
                 saving_line; ready_line (lower symbol);
                 contains_line (length data) symbol]
  ∧ cwd run.2 = cwd w
  ∧ dirs w ⊆ dirs run.2
  ∧ (∀ n, n ∈ dirs run.2 → n ∈ dirs w ∨ n ∈ output_nodes w)
  ∧ Forall (λ n, is_dir run.2 n = true) (output_nodes w).
Proof.
  intros symbol data run Hrun.
  destruct (main_success_world upper lower yf_download argv w Hrun)
    as (_ & _ & lines & dir & l & name & Hfmt & _ & _ & _ & _ & _ & _ & Hc & Hmade
        & Hdirs & Hout & _).
  fold symbol data run in Hfmt, Hc, Hdirs, Hout.
  rewrite Hout, (Forall2_length _ _ _ (format_rows_lines _ _ Hfmt)).
  split; [reflexivity|]. split; [exact Hc|].
  pose proof (makedirs_from_frame w (cwd w) (split_on "/" output_dir))
    as (Hcd & _ & _ & Hsub & Hnew).
  cbv zeta in Hcd, Hsub, Hnew.
  rewrite <- os_makedirs_output_dir, ?path_nodes_output_dir in Hcd, Hsub, Hnew.
  rewrite Hdirs. split; [exact Hsub|].
  rewrite <- path_nodes_output_dir. split; [exact Hnew|].
  assert (Hall : Forall (λ n, is_dir (os_makedirs output_dir w).2 n = true)
                   (path_nodes (cwd w) (split_on "/" output_dir))).
  { apply (makedirs_from_dirs w). rewrite <- os_makedirs_output_dir.
    destruct (os_makedirs output_dir w) as [r wd]. cbn [fst snd] in *.
    rewrite Hmade. reflexivity. }
  eapply Forall_impl; [exact Hall|]. cbn beta. intros n Hn. rewrite <- Hn.
  apply is_dir_same; congruence.
Qed.


(** X14. When the archive cannot be started because a directory is where
    it goes, the run ends with [IsADirectoryError] after the staging file
    has been written, and the staging file stays. *)
Theorem archive_failure_leaves_staging_file (argv : list string) (w : World)
    (lines : list string) :
  (4 <= length argv)%nat →
  let symbol := upper (nth 1 argv "") in
  let data := yf_download symbol (nth 2 argv "") (nth 3 argv "") in
  let symbol_lower := lower symbol in
  let run := main upper lower yf_download argv w in
  data ≠ [] →
  format_rows data [] = inr lines →
  str_contains "/" symbol_lower = false →
  str_contains NUL symbol_lower = false →
  Forall (λ n, is_dir w n = true ∨ files w !! n = None) (output_nodes w) →
  is_dir w (output_node w ++ [symbol_lower +:+ ".csv"]) = false →
  is_dir w (output_node w ++ [symbol_lower +:+ ".zip"]) = true →
  run.1 = inl IsADirectoryError
  ∧ exit_status run.1 = 1
  ∧ read_file run.2 (csv_path symbol_lower) = Some (Plain (String.concat newline lines))
  ∧ ∀ n : node, n ≠ output_node w ++ [symbol_lower +:+ ".csv"] →
      files run.2 !! n = files w !! n.
Proof.
  intros Hlen symbol data symbol_lower run Hne Hfmt Hslash Hnul Hall Hcsv Hzip.
  destruct (path_stem_plain _ Hslash) as [_ Hsplit].
  destruct (output_dir_made w Hall) as [Hmade Hwalk].
  pose proof (makedirs_from_frame w (cwd w) (split_on "/" output_dir)) as (Hc & _).
  rewrite <- os_makedirs_output_dir in Hc. cbv zeta in Hc.
  assert (Hrun : run
            = (inl IsADirectoryError,
               mkWorld (cwd w)
                 (<[output_node w ++ [symbol_lower +:+ ".csv"] :=
                      Plain (String.concat newline lines)]> (files w))
                 (dirs (os_makedirs output_dir w).2)
                 (stdout w ++ [downloading_line symbol (nth 2 argv "") (nth 3 argv "");
                               saving_line]))).
  { unfold run.
    rewrite (main_archive upper lower yf_download argv w lines _ symbol_lower
               Hlen Hne Hfmt Hsplit).
    cbv zeta. fold symbol. fold symbol_lower.
    rewrite Hmade, nul_path_stem, Hnul, (start_path_stem_plain w _ Hslash), Hwalk.
    rewrite !is_dir_after_makedirs, Hcsv, Hzip. reflexivity. }
  rewrite Hrun. cbn [fst snd exit_status files].
  split; [reflexivity|]. split; [reflexivity|]. split.
  - assert (Hw : ∀ w' : World, cwd w' = cwd w → dirs w' = dirs (os_makedirs output_dir w).2 →
              walk w' (cwd w) [lean_data_dir; "equity"; "usa"; "daily"] = inr (output_node w)
              ∧ ∀ n, is_dir w' n = is_dir (os_makedirs output_dir w).2 n).
    { intros w' Hc' Hd'. split.
      - apply (walk_same_dirs (os_makedirs output_dir w).2); [congruence|congruence|exact Hwalk].
      - intros n. apply is_dir_same; congruence. }
    unfold read_file.
    rewrite csv_path_stem,
      (locate_target _ _ ".csv" _ symbol_lower (or_introl eq_refl) Hsplit).
    rewrite nul_path_stem, Hnul.
    change (start _ (path_stem symbol_lower)) with (start w (path_stem symbol_lower)).
    rewrite (start_path_stem_plain w _ Hslash).
    match goal with
    | |- context [walk ?W _ _] => destruct (Hw W eq_refl eq_refl) as [Hw1 Hw2]
    end.
    rewrite Hw1, Hw2.
    rewrite is_dir_after_makedirs, Hcsv. cbn [files]. apply lookup_insert_eq.
  - intros n Hn. apply lookup_insert_ne. congruence.
Qed.

End Failures.

Lemma format_rows_first_failure_witness :
  format_rows (nan_download "AAPL" "2023-01-01" "2023-01-03") [] = inl ValueError.
Proof.
  apply (proj2 (format_rows_first_failure _ ValueError)).
  exists [(aapl_date, aapl_row)], aapl_date, nan_row, [(aapl_date, aapl_row)], [aapl_line].
  repeat split; vm_compute; reflexivity.
Defined.

Lemma usage_error_exits_witness :
  main ascii_str_upper ascii_str_lower aapl_download ["download_data.py"; "AAPL"] fresh_world
  = (inl (SystemExit 1),
     mkWorld (cwd fresh_world) (files fresh_world) (dirs fresh_world)
       (stdout fresh_world ++ [usage_line; example_line])).
Proof.
  apply (usage_error_exits ascii_str_upper ascii_str_lower aapl_download
           ["download_data.py"; "AAPL"] fresh_world).
  simpl. lia.
Defined.

Lemma conversion_failure_writes_nothing_witness :
  let run := main ascii_str_upper ascii_str_lower nan_download aapl_argv fresh_world in
  run.1 = inl ValueError ∧ exit_status run.1 = 1 ∧ files run.2 = files fresh_world.
Proof.
  destruct (conversion_failure_writes_nothing ascii_str_upper ascii_str_lower nan_download
              aapl_argv fresh_world ValueError)
    as (_ & H1 & H2 & H3 & _); [simpl; lia|vm_compute; reflexivity|].
  split; [exact H1|]. split; [exact H2|exact H3].
Defined.

Lemma success_report_witness :
  let run := main ascii_str_upper ascii_str_lower two_bar_download two_bar_argv fresh_world in
  stdout run.2
  = [downloading_line "AAPL" "2023-01-01" "2023-01-05"; saving_line;
     ready_line "aapl"; contains_line 2 "AAPL"]
  ∧ Forall (λ n, is_dir run.2 n = true) (output_nodes fresh_world).
Proof.
  destruct (success_report ascii_str_upper ascii_str_lower two_bar_download two_bar_argv
              fresh_world two_bar_run) as (Hout & _ & _ & _ & Hall).
  split; [exact Hout|exact Hall].
Defined.

Lemma two_bar_rows :
  format_rows (two_bar_download "AAPL" "2023-01-01" "2023-01-05") []
  = inr [aapl_line; next_line].
Proof. vm_compute. reflexivity. Defined.


Lemma archive_failure_leaves_staging_file_witness :
  let run := main ascii_str_upper ascii_str_lower two_bar_download two_bar_argv blocked_world in
  run.1 = inl IsADirectoryError
  ∧ read_file run.2 (csv_path "aapl") = Some (Plain (aapl_line +:+ newline +:+ next_line)).
Proof.
  destruct (archive_failure_leaves_staging_file ascii_str_upper ascii_str_lower
              two_bar_download two_bar_argv blocked_world [aapl_line; next_line])
    as (H1 & _ & H2 & _).
  - simpl. lia.
  - vm_compute. discriminate.
  - exact two_bar_rows.
  - reflexivity.
  - reflexivity.
  - repeat constructor; left; vm_compute; reflexivity.
  - vm_compute. reflexivity.
  - vm_compute. reflexivity.
  - split; [exact H1|exact H2].
Defined.

(** X15. A symbol with a directory part needs that directory: in a tree
    where nothing is below the working directory, the run for [brk/b] makes
    [output_dir] and all that is above it and then ends with
    [FileNotFoundError] and exit status 1, since [output_dir] has no
    directory [brk]; no file is written. *)
Theorem slash_symbol_needs_directory :
  let run := main ascii_str_upper ascii_str_lower two_bar_download slash_argv fresh_world in
  run.1 = inl FileNotFoundError
  ∧ exit_status run.1 = 1
  ∧ files run.2 = ∅
  ∧ Forall (λ n, is_dir run.2 n = true) (output_nodes fresh_world)
  ∧ csv_path "brk/b" = output_dir +:+ "/brk/b.csv".
Proof.
  cbv zeta. split; [vm_compute; reflexivity|]. split; [vm_compute; reflexivity|].
  split; [vm_compute; reflexivity|]. split; [|reflexivity].
  repeat constructor; vm_compute; reflexivity.
Qed.
